(** * Intermediate data cache of the map generator

    A shallow embedding of [generator/intermediate_data.hpp]: the offset
    index file, the element cache built on it, and the three point
    storages.  Unsigned 64-bit quantities are integers in [0, 2^64) with
    the wrap-around written out, files are lists of bytes, and code that
    can abort runs in a small monad that keeps the log. *)

From Stdlib Require Import ZArith String Floats.
From stdpp Require Import base list sorting gmap.

Local Open Scope Z_scope.

(** ** Machine integers and raw bytes *)

Abbreviation byte := Byte.byte.

Definition wrap64 (z : Z) : Z := z `mod` 2 ^ 64.

(** The values of [uint64_t]. *)
Definition is_u64 (z : Z) : Prop := 0 <= z < 2 ^ 64.

(** [static_cast<int32_t>] of a 64-bit integer keeps the low 32 bits and
    reads them as two's complement. *)
Definition to_int32 (z : Z) : Z := (z + 2 ^ 31) `mod` 2 ^ 32 - 2 ^ 31.

Definition fits_int32 (z : Z) : bool := (- 2 ^ 31 <=? z) && (z <? 2 ^ 31).

Definition byte_of_Z (z : Z) : byte :=
  default Byte.x00 (Byte.of_N (Z.to_N (z `mod` 256))).

Definition Z_of_byte (b : byte) : Z := Z.of_N (Byte.to_N b).

(** The memory image of an [n]-byte unsigned integer on the (little-endian)
    host, and the value such an image holds. *)
Fixpoint le_bytes (n : nat) (z : Z) : list byte :=
  match n with
  | O => []
  | S n' => byte_of_Z z :: le_bytes n' (z `div` 256)
  end.

Fixpoint le_value (bs : list byte) : Z :=
  match bs with
  | [] => 0
  | b :: bs' => Z_of_byte b + 256 * le_value bs'
  end.

(** An [int32_t] field is read back from its four bytes as two's complement. *)
Definition le_int32 (bs : list byte) : Z := to_int32 (le_value bs).

(** ** Logging and fatal errors *)

Inductive LogLevel := LDEBUG | LINFO | LWARNING | LERROR | LCRITICAL.

Inductive LogPart := Txt (s : string) | Num (z : Z).

Definition LogEntry : Type := LogLevel * list LogPart.

(** A run either finishes with a value, or aborts the process with a
    diagnostic; both carry the lines logged so far.  [Undefined] is a step
    the language gives no meaning to (an index past the end of a vector). *)
Inductive run (A : Type) : Type :=
| Ok (a : A) (log : list LogEntry)
| Fatal (diag : list LogPart) (log : list LogEntry)
| Undefined.
Arguments Ok {A} a log.
Arguments Fatal {A} diag log.
Arguments Undefined {A}.

Definition run_bind {A B} (f : A -> run B) (m : run A) : run B :=
  match m with
  | Ok a l =>
      match f a with
      | Ok b l' => Ok b (l ++ l')
      | Fatal d l' => Fatal d (l ++ l')
      | Undefined => Undefined
      end
  | Fatal d l => Fatal d l
  | Undefined => Undefined
  end.

#[global] Instance run_mret : MRet run := fun A a => Ok a [].
#[global] Instance run_mbind : MBind run := fun A B f m => run_bind f m.

Definition aborted {A} (r : run A) : bool :=
  match r with Fatal _ _ => true | _ => false end.

(** Modelled from the spec: the logger of [base/logging.hpp] is not part of
    these sources; a line is recorded at its level, and [CRITICAL]
    terminates the process. *)
Definition LOG (lvl : LogLevel) (msg : list LogPart) : run unit :=
  match lvl with
  | LCRITICAL => Fatal msg []
  | _ => Ok tt [(lvl, msg)]
  end.

(** Modelled from the spec: the checking macros of [base/assert.hpp] are
    not part of these sources; a failed check is fatal and aborts with
    its diagnostic. *)
Definition CHECK_EQUAL (a b : Z) (msg : list LogPart) : run unit :=
  if a =? b then Ok tt [] else Fatal msg [].

Definition ASSERT_LESS (a b : Z) (msg : list LogPart) : run unit :=
  if a <? b then Ok tt [] else Fatal msg [].

(** ** Files *)

Record File := { f_name : string; f_bytes : list byte }.

(** Modelled from the spec: the sequential writer ([coding/file_writer.hpp]
    is not part of these sources) offers [write(bytes)], [pos()], [seek]
    and [close]; opening creates an empty file, a write lands at the
    current position, and a position skipped over by [seek] reads back as
    zero. *)
Record FileWriter := { fw_name : string; fw_data : list byte; fw_pos : nat }.

Definition fw_open (name : string) : FileWriter :=
  {| fw_name := name; fw_data := []; fw_pos := 0 |}.

Definition fw_Pos (w : FileWriter) : Z := wrap64 (Z.of_nat (fw_pos w)).

Definition fw_Seek (p : Z) (w : FileWriter) : FileWriter :=
  {| fw_name := fw_name w; fw_data := fw_data w; fw_pos := Z.to_nat p |}.

Definition fw_Write (bs : list byte) (w : FileWriter) : FileWriter :=
  let d := fw_data w in
  let p := fw_pos w in
  {| fw_name := fw_name w;
     fw_data := take p d ++ replicate (p - length d) Byte.x00
                ++ bs ++ drop (p + length bs) d;
     fw_pos := p + length bs |}.

Definition fw_close (w : FileWriter) : File :=
  {| f_name := fw_name w; f_bytes := fw_data w |}.

(** Modelled from the spec: the random reader ([coding/file_reader.hpp] and
    [coding/mmap_reader.hpp] are not part of these sources) offers
    [read(offset, buf)] and [size()]; a read that leaves the file is an
    I/O error, which the core treats as fatal. *)
Record FileReader := { fr_name : string; fr_data : list byte }.

Definition fr_open (f : File) : FileReader :=
  {| fr_name := f_name f; fr_data := f_bytes f |}.

Definition fr_Size (r : FileReader) : Z := Z.of_nat (length (fr_data r)).

Definition fr_Read (pos size : Z) (r : FileReader) : run (list byte) :=
  if (0 <=? pos) && (0 <=? size) && (pos + size <=? fr_Size r)
  then Ok (take (Z.to_nat size) (drop (Z.to_nat pos) (fr_data r))) []
  else Fatal [Txt "Reader exception: read past the end of "; Txt (fr_name r)] [].

(** Modelled from the spec: the reader of the dense point file
    ([coding/mmap_reader.hpp], the [TFileReader] of [RawFilePointStorage],
    is not part of these sources).  The spec has the ids that were never
    written read back as zero (4.3.1), also past the last record of the
    file (scenario S4: [GetPoint(6)] is false on a file that ends with the
    record of id 5), without abort: the part of a read that leaves the file
    is zero bytes. *)
Definition mm_Read (pos size : Z) (r : FileReader) : run (list byte) :=
  let inside := take (Z.to_nat size) (drop (Z.to_nat pos) (fr_data r)) in
  Ok (inside ++ replicate (Z.to_nat size - length inside) Byte.x00) [].

(** ** cache::detail::IndexFile<TFile, uint64_t> *)

Module IndexFile.

Abbreviation TKey := Z (only parsing).
Abbreviation TValue := Z (only parsing).
Abbreviation TElement := (Z * Z)%type (only parsing).

Definition sizeof_TElement : Z := 16.
Definition kFlushCount : nat := 1024.

Record t (TFile : Type) := mk {
  m_elements : list TElement;
  m_file : TFile;
  m_fileSize : Z
}.
Arguments mk {TFile} _ _ _.
Arguments m_elements {TFile} _.
Arguments m_file {TFile} _.
Arguments m_fileSize {TFile} _.

(** [ElementComparator]: its three call operators. *)
Definition comp_elem (r1 r2 : TElement) : bool :=
  if r1.1 =? r2.1 then r1.2 <? r2.2 else r1.1 <? r2.1.
Definition comp_elem_key (r1 : TElement) (r2 : TKey) : bool := r1.1 <? r2.
Definition comp_key_elem (r1 : TKey) (r2 : TElement) : bool := r1 <? r2.1.

Definition CheckedCast (v : Z) : run Z :=
  ASSERT_LESS v (2 ^ 64 - 1) [Txt "Value too long for memory address : "; Num v];;
  mret v.

(** The constructor opens the file and starts with an empty buffer. *)
Definition create (name : string) : t FileWriter := mk [] (fw_open name) 0.
Definition open (f : File) : t FileReader := mk [] (fr_open f) 0.

Definition GetFileName_w (idx : t FileWriter) : string := fw_name (m_file idx).
Definition GetFileName (idx : t FileReader) : string := fr_name (m_file idx).

(** The bytes of one [pair<uint64_t, uint64_t>] in memory. *)
Definition element_bytes (e : TElement) : list byte :=
  le_bytes 8 e.1 ++ le_bytes 8 e.2.

Definition elements_bytes (l : list TElement) : list byte :=
  flat_map element_bytes l.

Definition WriteAll (idx : t FileWriter) : t FileWriter :=
  match m_elements idx with
  | [] => idx
  | _ :: _ =>
      mk [] (fw_Write (elements_bytes (m_elements idx)) (m_file idx))
         (m_fileSize idx)
  end.

Definition push_back (e : TElement) (idx : t FileWriter) : t FileWriter :=
  mk (m_elements idx ++ [e]) (m_file idx) (m_fileSize idx).

Definition Add (k : TKey) (v : TValue) (idx : t FileWriter) : t FileWriter :=
  let idx' :=
    if (kFlushCount <? length (m_elements idx))%nat then WriteAll idx else idx in
  push_back (k, v) idx'.

(** What [m_file.Read(0, &m_elements[0], size)] leaves in a vector of
    [n] elements. *)
Fixpoint elements_of_bytes (n : nat) (bs : list byte) : list TElement :=
  match n with
  | O => []
  | S n' =>
      (le_value (take 8 bs), le_value (take 8 (drop 8 bs)))
        :: elements_of_bytes n' (drop 16 bs)
  end.

(** [std::sort] with [ElementComparator].  The comparator is a strict
    total order on pairs, so the sorted arrangement of a vector is
    unique ([std_sort_unique] below) and any sorting algorithm gives it. *)
Definition sorted_before (r1 r2 : TElement) : Prop := comp_elem r2 r1 = false.

#[global] Instance sorted_before_dec (r1 r2 : TElement) :
  Decision (sorted_before r1 r2) := bool_eq_dec _ _.

Definition std_sort (l : list TElement) : list TElement :=
  merge_sort sorted_before l.

(** [enough_memory] says whether the [resize] of the vector succeeds. *)
Definition ReadAll (enough_memory : bool) (idx : t FileReader) : run (t FileReader) :=
  let size := fr_Size (m_file idx) in
  if size =? 0 then mret (mk [] (m_file idx) size)
  else
    LOG LINFO [Txt "Offsets reading is started for file "; Txt (GetFileName idx)];;
    CHECK_EQUAL 0 (size `mod` sizeof_TElement) [Txt "Damaged file."];;
    n ← CheckedCast (size `div` sizeof_TElement);
    (if enough_memory then mret tt
     else LOG LCRITICAL [Txt "Insufficient memory for required offset map"]);;
    sz ← CheckedCast size;
    bs ← fr_Read 0 sz (m_file idx);
    let elems := std_sort (elements_of_bytes (Z.to_nat n) bs) in
    LOG LINFO [Txt "Offsets reading is finished"];;
    mret (mk elems (m_file idx) size).

(** The loop shared by [std::lower_bound] and [std::upper_bound]: the
    range [first, first + count) is halved until it is empty; [go_right]
    tells whether the answer lies after the probed element. *)
Fixpoint bound_loop {A} (go_right : A -> bool) (fuel : nat) (l : list A)
    (first count : nat) : nat :=
  match fuel with
  | O => first
  | S fuel' =>
      match count with
      | O => first
      | S _ =>
          let step := (count / 2)%nat in
          match l !! (first + step)%nat with
          | Some x =>
              if go_right x
              then bound_loop go_right fuel' l (first + step + 1)%nat
                              (count - (step + 1))%nat
              else bound_loop go_right fuel' l first step
          | None => first
          end
      end
  end.

Definition lower_bound (l : list TElement) (key : TKey) : nat :=
  bound_loop (fun e => comp_elem_key e key) (length l) l 0 (length l).

Definition upper_bound (l : list TElement) (key : TKey) : nat :=
  bound_loop (fun e => negb (comp_key_elem key e)) (length l) l 0 (length l).

Definition equal_range (l : list TElement) (key : TKey) : nat * nat :=
  (lower_bound l key, upper_bound l key).

Definition GetValueByKey {TFile} (idx : t TFile) (key : TKey) : option TValue :=
  let it := lower_bound (m_elements idx) key in
  match m_elements idx !! it with
  | Some e => if e.1 =? key then Some e.2 else None
  | None => None
  end.

(** The visitor is a state transformer that also answers whether to stop. *)
Fixpoint visit_range {S} (toDo : TValue -> S -> bool * S) (l : list TElement)
    (first : nat) (n : nat) (st : S) : S :=
  match n with
  | O => st
  | S n' =>
      match l !! first with
      | Some e =>
          let '(stop, st') := toDo e.2 st in
          if stop then st' else visit_range toDo l (first + 1)%nat n' st'
      | None => st
      end
  end.

Definition ForEachByKey {TFile S} (idx : t TFile) (k : TKey)
    (toDo : TValue -> S -> bool * S) (st : S) : S :=
  let range := equal_range (m_elements idx) k in
  visit_range toDo (m_elements idx) range.1 (range.2 - range.1)%nat st.

(** Teardown of the writer: the file it leaves. *)
Definition close (idx : t FileWriter) : File := fw_close (m_file idx).

(** A pass of [Add] calls, in order. *)
Definition add_all (adds : list TElement) (idx : t FileWriter) : t FileWriter :=
  foldl (fun i e => Add e.1 e.2 i) idx adds.

(** The reference the lookups are compared with, in the words of the
    specification: the visitor is run over a list of values in order and
    stops as soon as it answers true. *)
Fixpoint visit_until {S} (toDo : TValue -> S -> bool * S) (vs : list TValue)
    (st : S) : S :=
  match vs with
  | [] => st
  | v :: vs' =>
      let '(stop, st') := toDo v st in
      if stop then st' else visit_until toDo vs' st'
  end.

(** The values added under a key, in the order they were added. *)
Definition values_of (k : TKey) (adds : list TElement) : list TValue :=
  (filter (fun e => e.1 = k) adds).*2.

End IndexFile.

(** ** cache::OSMElementCache<TMode> *)

(** The codec a cached value type supplies: [value.Write(writer)] and
    [value.Read(reader)]. *)
Class Payload (V : Type) := {
  value_Write : V -> list byte;
  value_Read : list byte -> V
}.

(** A value that is its own encoding. *)
#[global] Instance raw_payload : Payload (list byte) :=
  {| value_Write := fun bs => bs; value_Read := fun bs => bs |}.

(** A read from a buffer in memory; outside the buffer it has no meaning. *)
Definition mem_read (data : list byte) (off len : Z) : run (list byte) :=
  if (0 <=? off) && (0 <=? len) && (off + len <=? Z.of_nat (length data))
  then Ok (take (Z.to_nat len) (drop (Z.to_nat off) data)) []
  else Undefined.

Module OSMElementCache.

(** Modelled from the spec: [OFFSET_EXT] comes from [defines.hpp], which is
    not part of these sources; the index file is at [P + ".offsets"]. *)
Definition OFFSET_EXT : string := ".offsets".

Record t (TFile : Type) := mk {
  m_storage : TFile;
  m_offsets : IndexFile.t TFile;
  m_name : string;
  m_data : list byte;
  m_preload : bool
}.
Arguments mk {TFile} _ _ _ _ _.
Arguments m_storage {TFile} _.
Arguments m_offsets {TFile} _.
Arguments m_name {TFile} _.
Arguments m_data {TFile} _.
Arguments m_preload {TFile} _.

(** Write mode: the constructor, whose [InitStorage] does nothing. *)
Definition create (name : string) (preload : bool) : t FileWriter :=
  mk (fw_open name) (IndexFile.create (String.append name OFFSET_EXT)) name []
     preload.

Definition InitStorage_Read (c : t FileReader) : run (t FileReader) :=
  if negb (m_preload c) then mret c
  else
    let sz := fr_Size (m_storage c) in
    bs ← fr_Read 0 sz (m_storage c);
    mret (mk (m_storage c) (m_offsets c) (m_name c) bs (m_preload c)).

(** Read mode: the constructor over the payload file and the index file. *)
Definition open (files : File * File) (preload : bool) : run (t FileReader) :=
  InitStorage_Read
    (mk (fr_open files.1) (IndexFile.open files.2) (f_name files.1) [] preload).

Definition Write {V} `{Payload V} (id : Z) (value : V) (c : t FileWriter)
    : run (t FileWriter) :=
  let offsets := IndexFile.Add id (fw_Pos (m_storage c)) (m_offsets c) in
  let data := value_Write value in
  ASSERT_LESS (Z.of_nat (length data)) (2 ^ 32 - 1) [];;
  let sz := Z.of_nat (length data) `mod` 2 ^ 32 in
  let storage := fw_Write (le_bytes 4 sz) (m_storage c) in
  let storage := fw_Write (take (Z.to_nat sz) data) storage in
  mret (mk storage offsets (m_name c) data (m_preload c)).

Definition Read {V} `{Payload V} (id : Z) (c : t FileReader)
    : run (t FileReader * option V) :=
  match IndexFile.GetValueByKey (m_offsets c) id with
  | None =>
      LOG LWARNING [Txt "Can't find offset in file";
                    Txt (IndexFile.GetFileName (m_offsets c));
                    Txt "by id"; Num id];;
      mret (c, None)
  | Some pos =>
      if m_preload c then
        sz ← mem_read (m_data c) pos 4;
        let valueSize := le_value sz in
        let offset := wrap64 (pos + 4) in
        bs ← mem_read (m_data c) offset valueSize;
        mret (c, Some (value_Read bs))
      else
        sz ← fr_Read pos 4 (m_storage c);
        let valueSize := le_value sz in
        bs ← fr_Read (wrap64 (pos + 4)) valueSize (m_storage c);
        mret (mk (m_storage c) (m_offsets c) (m_name c) bs (m_preload c),
              Some (value_Read bs))
  end.

Definition SaveOffsets (c : t FileWriter) : t FileWriter :=
  mk (m_storage c) (IndexFile.WriteAll (m_offsets c)) (m_name c) (m_data c)
     (m_preload c).

Definition LoadOffsets (enough_memory : bool) (c : t FileReader)
    : run (t FileReader) :=
  offsets ← IndexFile.ReadAll enough_memory (m_offsets c);
  mret (mk (m_storage c) offsets (m_name c) (m_data c) (m_preload c)).

(** Teardown of a writer: the payload file and the index file it leaves.
    The class has no destructor of its own, so index entries still in the
    buffer are not written here. *)
Definition close (c : t FileWriter) : File * File :=
  (fw_close (m_storage c), IndexFile.close (m_offsets c)).

(** A pass of [Write] calls, in order. *)
Fixpoint write_all {V} `{Payload V} (ws : list (Z * V)) (c : t FileWriter)
    : run (t FileWriter) :=
  match ws with
  | [] => mret c
  | (id, v) :: ws' => c' ← Write id v c; write_all ws' c'
  end.

End OSMElementCache.

(** ** cache::PointStorage and its three strategies *)

Module PointStorage.

Record LatLon := mkLatLon { lat : Z; lon : Z }.
Definition sizeof_LatLon : Z := 8.

Record LatLonPos := mkLatLonPos { pos : Z; pos_lat : Z; pos_lon : Z }.
Definition sizeof_LatLonPos : Z := 16.

Definition kValueOrder : float := 1e7%float.

(** [numeric_limits<int64_t>::min()]. *)
Definition INT64_MIN : Z := - 2 ^ 63.

(** Conversion of a [double] to [int64_t] truncates toward zero.  Where the
    truncated value is not an [int64_t] (and for infinities and NaN) the
    result is the one the conversion instruction of the generator's target
    gives (x86-64, [cvttsd2si]): the integer indefinite value
    [0x8000000000000000]. *)
Definition double_to_int64 (x : float) : run Z :=
  match Prim2SF x with
  | S754_zero _ => mret 0
  | S754_finite s m e =>
      let mag := Z.shiftl (Z.pos m) e in
      let v := if s then - mag else mag in
      if (- 2 ^ 63 <=? v) && (v <? 2 ^ 63) then mret v else mret INT64_MIN
  | _ => mret INT64_MIN
  end.

(** [static_cast<double>] of an [int32_t]. *)
Definition double_of_int32 (z : Z) : float :=
  if z <? 0 then (- PrimFloat.of_uint63 (Uint63.of_Z (- z)))%float
  else PrimFloat.of_uint63 (Uint63.of_Z z).

(** [x != 0.0] for an [int32_t] [x]: the comparison is made in [double]. *)
Definition ne_zero (x : Z) : bool := negb (PrimFloat.eqb (double_of_int32 x) 0%float).

Definition LatLon_bytes (ll : LatLon) : list byte :=
  le_bytes 4 (lat ll) ++ le_bytes 4 (lon ll).

Definition LatLon_of_bytes (bs : list byte) : LatLon :=
  mkLatLon (le_int32 (take 4 bs)) (le_int32 (take 4 (drop 4 bs))).

Definition LatLonPos_bytes (ll : LatLonPos) : list byte :=
  le_bytes 8 (pos ll) ++ le_bytes 4 (pos_lat ll) ++ le_bytes 4 (pos_lon ll).

Definition LatLonPos_of_bytes (bs : list byte) : LatLonPos :=
  mkLatLonPos (le_value (take 8 bs)) (le_int32 (take 4 (drop 8 bs)))
              (le_int32 (take 4 (drop 12 bs))).

(** [m_processedPoint] is a [size_t]. *)
Definition IncProcessedPoint (n : Z) : Z := wrap64 (n + 1).

End PointStorage.

Import PointStorage.

Module RawFilePointStorage.

Record t (TFile : Type) := mk { m_file : TFile; m_processedPoint : Z }.
Arguments mk {TFile} _ _.
Arguments m_file {TFile} _.
Arguments m_processedPoint {TFile} _.

Definition create (name : string) : t FileWriter := mk (fw_open name) 0.
Definition open (f : File) : t FileReader := mk (fr_open f) 0.

Definition AddPoint (id : Z) (lat lng : float) (st : t FileWriter)
    : run (t FileWriter) :=
  lat64 ← double_to_int64 (lat * kValueOrder)%float;
  lng64 ← double_to_int64 (lng * kValueOrder)%float;
  let ll := mkLatLon (to_int32 lat64) (to_int32 lng64) in
  CHECK_EQUAL (PointStorage.lat ll) lat64 [Txt "Latitude is out of 32bit boundary!"];;
  CHECK_EQUAL (PointStorage.lon ll) lng64 [Txt "Longtitude is out of 32bit boundary!"];;
  let f := fw_Seek (wrap64 (id * sizeof_LatLon)) (m_file st) in
  let f := fw_Write (LatLon_bytes ll) f in
  mret (mk f (IncProcessedPoint (m_processedPoint st))).

Definition GetPoint (id : Z) (st : t FileReader) : run (option (float * float)) :=
  bs ← mm_Read (wrap64 (id * sizeof_LatLon)) sizeof_LatLon (m_file st);
  let ll := LatLon_of_bytes bs in
  if ne_zero (PointStorage.lat ll) || ne_zero (PointStorage.lon ll) then
    mret (Some ((double_of_int32 (PointStorage.lat ll) / kValueOrder)%float,
                (double_of_int32 (PointStorage.lon ll) / kValueOrder)%float))
  else
    LOG LERROR [Txt "Node with id = "; Num id; Txt " not found!"];;
    mret None.

Definition close (st : t FileWriter) : File := fw_close (m_file st).

(** A pass of [AddPoint] calls, in order. *)
Fixpoint add_all (ps : list (Z * float * float)) (st : t FileWriter)
    : run (t FileWriter) :=
  match ps with
  | [] => mret st
  | (id, lat, lng) :: ps' => st' ← AddPoint id lat lng st; add_all ps' st'
  end.

(** [PointStorage::GetProcessedPoint]. *)
Definition GetProcessedPoint {TFile} (st : t TFile) : Z := m_processedPoint st.

End RawFilePointStorage.

Module RawMemPointStorage.

(** [m_data((size_t)0xFFFFFFFF)]: the number of elements of the vector. *)
Definition kDataSize : Z := 0xFFFFFFFF.

(** The vector is kept sparsely: an element that was never assigned holds
    the value it was constructed with, [LatLon{0, 0}]. *)
Record t (TFile : Type) := mk {
  m_file : TFile;
  m_data : gmap Z LatLon;
  m_processedPoint : Z
}.
Arguments mk {TFile} _ _ _.
Arguments m_file {TFile} _.
Arguments m_data {TFile} _.
Arguments m_processedPoint {TFile} _.

Definition element (data : gmap Z LatLon) (i : Z) : LatLon :=
  default (mkLatLon 0 0) (data !! i).

(** [m_data[id]]: an index outside the vector has no meaning. *)
Definition at_index (data : gmap Z LatLon) (id : Z) : run LatLon :=
  if (0 <=? id) && (id <? kDataSize) then mret (element data id) else Undefined.

(** The memory image of the whole vector, [m_data.data()] for
    [m_data.size() * sizeof(LatLon)] bytes. *)
Definition data_bytes (data : gmap Z LatLon) : list byte :=
  flat_map (fun i => LatLon_bytes (element data i)) (seqZ 0 kDataSize).

Definition data_of_bytes (bs : list byte) : gmap Z LatLon :=
  list_to_map
    ((fun i => (i, LatLon_of_bytes (take 8 (drop (Z.to_nat (8 * i)) bs))))
       <$> seqZ 0 kDataSize).

(** Write mode: construction ([InitStorage] does nothing). *)
Definition create (name : string) : t FileWriter := mk (fw_open name) ∅ 0.

(** Read mode: construction, [InitStorage] reads the whole file. *)
Definition open (f : File) : run (t FileReader) :=
  let file := fr_open f in
  bs ← fr_Read 0 (kDataSize * sizeof_LatLon) file;
  mret (mk file (data_of_bytes bs) 0).

(** Write mode: destruction. *)
Definition DoneStorage (st : t FileWriter) : t FileWriter :=
  mk (fw_Write (data_bytes (m_data st)) (m_file st)) (m_data st)
     (m_processedPoint st).

Definition close (st : t FileWriter) : File := fw_close (m_file (DoneStorage st)).

Definition AddPoint (id : Z) (lat lng : float) (st : t FileWriter)
    : run (t FileWriter) :=
  lat64 ← double_to_int64 (lat * kValueOrder)%float;
  lng64 ← double_to_int64 (lng * kValueOrder)%float;
  _ ← at_index (m_data st) id;
  let ll := mkLatLon (to_int32 lat64) (to_int32 lng64) in
  CHECK_EQUAL (PointStorage.lat ll) lat64 [Txt "Latitude is out of 32bit boundary!"];;
  CHECK_EQUAL (PointStorage.lon ll) lng64 [Txt "Longtitude is out of 32bit boundary!"];;
  mret (mk (m_file st) (<[id := ll]> (m_data st))
           (IncProcessedPoint (m_processedPoint st))).

Definition GetPoint (id : Z) (st : t FileReader) : run (option (float * float)) :=
  ll ← at_index (m_data st) id;
  if ne_zero (PointStorage.lat ll) || ne_zero (PointStorage.lon ll) then
    mret (Some ((double_of_int32 (PointStorage.lat ll) / kValueOrder)%float,
                (double_of_int32 (PointStorage.lon ll) / kValueOrder)%float))
  else
    LOG LERROR [Txt "Node with id = "; Num id; Txt " not found!"];;
    mret None.

(** A pass of [AddPoint] calls, in order. *)
Fixpoint add_all (ps : list (Z * float * float)) (st : t FileWriter)
    : run (t FileWriter) :=
  match ps with
  | [] => mret st
  | (id, lat, lng) :: ps' => st' ← AddPoint id lat lng st; add_all ps' st'
  end.

(** [PointStorage::GetProcessedPoint]. *)
Definition GetProcessedPoint {TFile} (st : t TFile) : Z := m_processedPoint st.

End RawMemPointStorage.

Module MapFilePointStorage.

Record t (TFile : Type) := mk {
  m_file : TFile;
  m_map : gmap Z (Z * Z);
  m_processedPoint : Z
}.
Arguments mk {TFile} _ _ _.
Arguments m_file {TFile} _.
Arguments m_map {TFile} _.
Arguments m_processedPoint {TFile} _.

(** [unordered_map::emplace]: nothing is inserted when the key is there. *)
Definition emplace (k : Z) (v : Z * Z) (m : gmap Z (Z * Z)) : gmap Z (Z * Z) :=
  match m !! k with
  | Some _ => m
  | None => <[k := v]> m
  end.

Definition create (name : string) : t FileWriter :=
  mk (fw_open (String.append name ".short")) ∅ 0.

(** The reading loop of [InitStorage]; every turn moves [pos] forward by
    16, so [fuel] above the file length is never used up. *)
Fixpoint read_loop (fuel : nat) (file : FileReader) (count pos : Z)
    (m : gmap Z (Z * Z)) : run (gmap Z (Z * Z)) :=
  match fuel with
  | O => mret m
  | S fuel' =>
      if pos <? count then
        bs ← fr_Read pos sizeof_LatLonPos file;
        let ll := LatLonPos_of_bytes bs in
        read_loop fuel' file count (wrap64 (pos + sizeof_LatLonPos))
                  (emplace (PointStorage.pos ll) (pos_lat ll, pos_lon ll) m)
      else mret m
  end.

Definition open (f : File) : run (t FileReader) :=
  let file := fr_open f in
  LOG LINFO [Txt "Nodes reading is started"];;
  let count := fr_Size file in
  m ← read_loop (S (length (fr_data file))) file count 0 ∅;
  LOG LINFO [Txt "Nodes reading is finished"];;
  mret (mk file m 0).

Definition AddPoint (id : Z) (lat lng : float) (st : t FileWriter)
    : run (t FileWriter) :=
  lat64 ← double_to_int64 (lat * kValueOrder)%float;
  lng64 ← double_to_int64 (lng * kValueOrder)%float;
  let ll := mkLatLonPos id (to_int32 lat64) (to_int32 lng64) in
  CHECK_EQUAL (pos_lat ll) lat64 [Txt "Latitude is out of 32bit boundary!"];;
  CHECK_EQUAL (pos_lon ll) lng64 [Txt "Longtitude is out of 32bit boundary!"];;
  mret (mk (fw_Write (LatLonPos_bytes ll) (m_file st)) (m_map st)
           (IncProcessedPoint (m_processedPoint st))).

Definition GetPoint (id : Z) (st : t FileReader) : option (float * float) :=
  match m_map st !! id with
  | None => None
  | Some i =>
      Some ((double_of_int32 i.1 / kValueOrder)%float,
            (double_of_int32 i.2 / kValueOrder)%float)
  end.

Definition close (st : t FileWriter) : File := fw_close (m_file st).

Fixpoint add_all (ps : list (Z * float * float)) (st : t FileWriter)
    : run (t FileWriter) :=
  match ps with
  | [] => mret st
  | (id, lat, lng) :: ps' => st' ← AddPoint id lat lng st; add_all ps' st'
  end.

(** [PointStorage::GetProcessedPoint]. *)
Definition GetProcessedPoint {TFile} (st : t TFile) : Z := m_processedPoint st.

End MapFilePointStorage.

(** ** Auxiliary notions used to state the properties *)

(** An index entry whose key and value are values of [uint64_t]. *)
Definition u64_element (e : IndexFile.TElement) : Prop := is_u64 e.1 /\ is_u64 e.2.

(** Everything added so far is either in the file or still in the buffer,
    in the order of the calls. *)
Definition written_and_pending (idx : IndexFile.t FileWriter) : list byte :=
  fw_data (IndexFile.m_file idx) ++ IndexFile.elements_bytes (IndexFile.m_elements idx).

Definition at_end (idx : IndexFile.t FileWriter) : Prop :=
  fw_pos (IndexFile.m_file idx) = length (fw_data (IndexFile.m_file idx)).


(** The record [Write] appends to the payload file for a value: its size
    in four bytes, then its encoding. *)
Definition record_bytes {V} `{Payload V} (v : V) : list byte :=
  le_bytes 4 (Z.of_nat (length (value_Write v))) ++ value_Write v.

Definition payload_file {V} `{Payload V} (ws : list (Z * V)) : list byte :=
  flat_map (fun w => record_bytes w.2) ws.

(** The index entries of a pass of writes that starts at byte [pos]. *)
Fixpoint offset_entries {V} `{Payload V} (pos : nat) (ws : list (Z * V))
    : list (Z * Z) :=
  match ws with
  | [] => []
  | (id, v) :: ws' =>
      (id, Z.of_nat pos) :: offset_entries (pos + length (record_bytes v)) ws'
  end.

(** A pass of writes the cache can take: ids are [uint64_t], every encoded
    value is shorter than [UINT32_MAX], and both files stay below 2^64
    bytes. *)
Definition writable {V} `{Payload V} (ws : list (Z * V)) : Prop :=
  Forall (fun w => is_u64 w.1) ws /\
  Forall (fun w => Z.of_nat (length (value_Write w.2)) < 2 ^ 32 - 1) ws /\
  Z.of_nat (length (payload_file ws)) < 2 ^ 64 /\
  16 * Z.of_nat (length ws) < 2 ^ 64.

(** The whole life of a cache: a pass of writes, [SaveOffsets], teardown,
    then a reader over the same files and [LoadOffsets]. *)
Definition written_then_reopened {V} `{Payload V} (name : string)
    (ws : list (Z * V)) (preload : bool) : run (OSMElementCache.t FileReader) :=
  c ← OSMElementCache.write_all ws (OSMElementCache.create name false);
  r ← OSMElementCache.open (OSMElementCache.close (OSMElementCache.SaveOffsets c))
        preload;
  OSMElementCache.LoadOffsets true r.

(** A reader whose scratch buffer [m_data] holds [buf]. *)
Definition with_buffer (buf : list byte) (c : OSMElementCache.t FileReader)
    : OSMElementCache.t FileReader :=
  OSMElementCache.mk (OSMElementCache.m_storage c) (OSMElementCache.m_offsets c)
    (OSMElementCache.m_name c) buf (OSMElementCache.m_preload c).

(** The reader such a life ends with, written out. *)
Definition reader_after {V} `{Payload V} (name : string) (ws : list (Z * V))
    (preload : bool) : OSMElementCache.t FileReader :=
  OSMElementCache.mk
    (fr_open {| f_name := name; f_bytes := payload_file ws |})
    (IndexFile.mk (IndexFile.std_sort (offset_entries 0 ws))
       (fr_open {| f_name := String.append name OSMElementCache.OFFSET_EXT;
                   f_bytes := IndexFile.elements_bytes (offset_entries 0 ws) |})
       (16 * Z.of_nat (length ws)))
    name
    (if preload then payload_file ws else [])
    preload.

(** What [GetPoint] of a dense storage answers for a record: a miss, with
    the error line, when both fields are zero, the decoded point otherwise. *)
Definition dense_answer (id : Z) (ll : LatLon) : run (option (float * float)) :=
  if (PointStorage.lat ll =? 0) && (PointStorage.lon ll =? 0)
  then Ok None [(LERROR, [Txt "Node with id = "; Num id; Txt " not found!"])]
  else Ok (Some ((double_of_int32 (PointStorage.lat ll) / kValueOrder)%float,
                 (double_of_int32 (PointStorage.lon ll) / kValueOrder)%float)) [].

(** Both fields of the record are values of [int32_t]. *)
Definition int32_fields (ll : LatLon) : Prop :=
  fits_int32 (PointStorage.lat ll) = true /\ fits_int32 (PointStorage.lon ll) = true.

(** The record of a dense point file at index [id]. *)
Definition file_record (data : list byte) (id : Z) : LatLon :=
  LatLon_of_bytes (take 8 (drop (Z.to_nat (id * sizeof_LatLon)) data)).

(** The ids a pass of [AddPoint] calls was made under. *)
Definition point_ids (ps : list (Z * float * float)) : list Z := (fun p => p.1.1) <$> ps.

(** Every byte of a dense point file that is not zero lies inside the
    record of one of the given ids. *)
Definition zero_outside (ids : list Z) (data : list byte) : Prop :=
  forall (n : nat) (b : byte),
    data !! n = Some b -> b <> Byte.x00 ->
    exists id, id ∈ ids /\ id * 8 <= Z.of_nat n < id * 8 + 8.

(** The fixed-point value [AddPoint] stores for a coordinate it accepts. *)
Definition scaled (x : float) : Z :=
  match double_to_int64 (x * kValueOrder)%float with
  | Ok v _ => v
  | _ => 0
  end.

(** The record [MapFilePointStorage::AddPoint] appends for a point. *)
Definition point_record (p : Z * float * float) : LatLonPos :=
  mkLatLonPos p.1.1 (scaled p.1.2) (scaled p.2).

(** The first, and the last, point of a pass made under an id. *)
Fixpoint first_point (id : Z) (ps : list (Z * float * float))
    : option (Z * float * float) :=
  match ps with
  | [] => None
  | p :: ps' => if decide (p.1.1 = id) then Some p else first_point id ps'
  end.

Fixpoint last_point (id : Z) (ps : list (Z * float * float))
    : option (Z * float * float) :=
  match ps with
  | [] => None
  | p :: ps' =>
      match last_point id ps' with
      | Some q => Some q
      | None => if decide (p.1.1 = id) then Some p else None
      end
  end.

(** What [GetPoint] decodes from the record stored for a point. *)
Definition decoded (p : Z * float * float) : float * float :=
  ((double_of_int32 (scaled p.1.2) / kValueOrder)%float,
   (double_of_int32 (scaled p.2) / kValueOrder)%float).

(** A record of the sparse file as the reader keeps it. *)
Definition map_step (m : gmap Z (Z * Z)) (r : LatLonPos) : gmap Z (Z * Z) :=
  MapFilePointStorage.emplace (PointStorage.pos r) (pos_lat r, pos_lon r) m.

Definition well_formed_record (r : LatLonPos) : Prop :=
  is_u64 (PointStorage.pos r) /\
  fits_int32 (pos_lat r) = true /\ fits_int32 (pos_lon r) = true.

(** [trunc(x)] in the words of the spec: the integer part of a finite
    [double], toward zero; an infinity and NaN have none. *)
Definition trunc (x : float) : option Z :=
  match Prim2SF x with
  | S754_zero _ => Some 0
  | S754_finite s m e =>
      let mag := Z.shiftl (Z.pos m) e in
      Some (if s then - mag else mag)
  | _ => None
  end.

(** "[trunc(x)] fits in [int32]". *)
Definition trunc_fits_int32 (x : float) : bool :=
  match trunc x with
  | Some v => fits_int32 v
  | None => false
  end.

(** The record of a dense point file at index [id], the file being read
    as zero past its end. *)
Definition padded_record (data : list byte) (id : Z) : LatLon :=
  let inside := take 8 (drop (Z.to_nat (id * sizeof_LatLon)) data) in
  LatLon_of_bytes (inside ++ replicate (8 - length inside) Byte.x00).

(** The index of the record an id is stored at in a dense point file: the
    byte offset [id * 8] is computed in [uint64_t]. *)
Definition record_index (id : Z) : Z := id `mod` 2 ^ 61.

(** "The scaled coordinates both fit in [int32]". *)
Definition both_fit (lat lng : float) : bool :=
  trunc_fits_int32 (lat * kValueOrder)%float && trunc_fits_int32 (lng * kValueOrder)%float.

(** ** Further notions, for the properties beyond the claims *)

(** The reader of a cache whose files are opened and whose offsets are
    loaded, as a pass of its own. *)
Definition opened_and_loaded (files : File * File) (preload : bool)
    : run (OSMElementCache.t FileReader) :=
  r ← OSMElementCache.open files preload;
  OSMElementCache.LoadOffsets true r.

(** The warning [Read] logs when the index has no offset for the id. *)
Definition miss_warning (offsets_file : string) (id : Z) : LogEntry :=
  (LWARNING, [Txt "Can't find offset in file"; Txt offsets_file; Txt "by id"; Num id]).

(** The error a dense storage logs for a record that is all zero. *)
Definition not_found_error (id : Z) : LogEntry :=
  (LERROR, [Txt "Node with id = "; Num id; Txt " not found!"]).

(** One past the highest id of a pass (zero for an empty pass). *)
Definition ids_end (ps : list (Z * float * float)) : Z :=
  foldr (fun p acc => Z.max (p.1.1 + 1) acc) 0 ps.

(** The record a dense storage keeps for a point it accepted. *)
Definition dense_record (p : Z * float * float) : LatLon :=
  mkLatLon (scaled p.1.2) (scaled p.2).

(** * Properties *)

(** ** Bytes and machine integers *)

Lemma Z_of_byte_of_Z (z : Z) : Z_of_byte (byte_of_Z z) = z `mod` 256.
Proof.
  unfold Z_of_byte, byte_of_Z.
  pose proof (Z.mod_pos_bound z 256 ltac:(lia)) as Hb.
  destruct (Byte.of_N (Z.to_N (z `mod` 256))) as [b|] eqn:E; simpl.
  - apply Byte.to_of_N in E. rewrite E. lia.
  - apply Byte.of_N_None_iff in E. lia.
Qed.

Lemma Z_of_byte_range (b : byte) : 0 <= Z_of_byte b < 256.
Proof. unfold Z_of_byte. pose proof (Byte.to_N_bounded b). lia. Qed.

Lemma length_le_bytes (n : nat) (z : Z) : length (le_bytes n z) = n.
Proof. revert z. induction n as [|n IH]; intros z; simpl; [done|]. by rewrite IH. Qed.

Lemma le_value_le_bytes (n : nat) (z : Z) :
  le_value (le_bytes n z) = z `mod` 256 ^ Z.of_nat n.
Proof.
  revert z. induction n as [|n IH]; intros z.
  - simpl. by rewrite Z.mod_1_r.
  - cbn [le_bytes le_value]. rewrite IH, Z_of_byte_of_Z.
    rewrite Nat2Z.inj_succ, Z.pow_succ_r by lia.
    rewrite Z.rem_mul_r by lia. done.
Qed.

Lemma le_value_le_bytes_small (n : nat) (z : Z) :
  0 <= z < 256 ^ Z.of_nat n -> le_value (le_bytes n z) = z.
Proof. intros. rewrite le_value_le_bytes. by apply Z.mod_small. Qed.

Lemma le_value_range (bs : list byte) : 0 <= le_value bs < 256 ^ Z.of_nat (length bs).
Proof.
  induction bs as [|b bs IH]; [simpl; lia|].
  cbn [le_value length]. rewrite Nat2Z.inj_succ, Z.pow_succ_r by lia.
  pose proof (Z_of_byte_range b). lia.
Qed.

Lemma to_int32_fits (z : Z) : fits_int32 z = true -> to_int32 z = z.
Proof.
  unfold fits_int32, to_int32. intros H.
  apply andb_true_iff in H as [H1 H2].
  apply Z.leb_le in H1. apply Z.ltb_lt in H2.
  rewrite Z.mod_small; lia.
Qed.

Lemma to_int32_range (z : Z) : fits_int32 (to_int32 z) = true.
Proof.
  unfold fits_int32, to_int32.
  pose proof (Z.mod_pos_bound (z + 2 ^ 31) (2 ^ 32) ltac:(lia)).
  apply andb_true_iff. split; [apply Z.leb_le | apply Z.ltb_lt]; lia.
Qed.

(** Narrowing to 32 bits loses nothing exactly for the values of [int32_t]:
    the test every [AddPoint] makes. *)
Lemma to_int32_eqb (z : Z) : (to_int32 z =? z) = fits_int32 z.
Proof.
  destruct (fits_int32 z) eqn:E.
  - rewrite to_int32_fits by done. apply Z.eqb_refl.
  - apply Z.eqb_neq. intros Heq.
    pose proof (to_int32_range z) as Hr. rewrite Heq in Hr. congruence.
Qed.

Lemma le_int32_le_bytes (z : Z) : le_int32 (le_bytes 4 z) = to_int32 z.
Proof.
  unfold le_int32. rewrite le_value_le_bytes. unfold to_int32.
  change (256 ^ Z.of_nat 4) with (2 ^ 32).
  f_equal. rewrite <- (Zplus_mod_idemp_l z). reflexivity.
Qed.

(** ** Runs *)

Lemma bind_Ok_inv {A B} (m : run A) (f : A -> run B) (b : B) (log : list LogEntry) :
  m ≫= f = Ok b log ->
  exists a l1 l2, m = Ok a l1 /\ f a = Ok b l2 /\ log = l1 ++ l2.
Proof.
  destruct m as [a l1|d l1|]; cbn [mbind run_mbind run_bind]; [|done..].
  destruct (f a) as [b' l2|d l2|] eqn:E; [|done..].
  intros Heq. injection Heq as <- <-. by exists a, l1, l2.
Qed.

Ltac run_inv H :=
  repeat (let a := fresh "a" in
          let l1 := fresh "l" in
          let l2 := fresh "l" in
          let Hm := fresh "Hm" in
          let Hl := fresh "Hl" in
          apply bind_Ok_inv in H as (a & l1 & l2 & Hm & H & Hl)).

(** ** The sequential writer and the random reader *)

Lemma fw_Write_append (bs : list byte) (w : FileWriter) :
  fw_pos w = length (fw_data w) ->
  fw_data (fw_Write bs w) = fw_data w ++ bs /\
  fw_pos (fw_Write bs w) = length (fw_data (fw_Write bs w)).
Proof.
  intros Hp. unfold fw_Write. cbn [fw_data fw_pos]. rewrite Hp.
  rewrite firstn_all, Nat.sub_diag, drop_ge by lia.
  cbn [replicate]. rewrite app_nil_l, app_nil_r.
  split; [done|]. by rewrite length_app.
Qed.

Lemma fw_Write_name (bs : list byte) (w : FileWriter) :
  fw_name (fw_Write bs w) = fw_name w.
Proof. done. Qed.

Lemma fr_Read_inside (pos size : Z) (r : FileReader) :
  0 <= pos -> 0 <= size -> pos + size <= fr_Size r ->
  fr_Read pos size r =
    Ok (take (Z.to_nat size) (drop (Z.to_nat pos) (fr_data r))) [].
Proof.
  intros H1 H2 H3. unfold fr_Read.
  rewrite (proj2 (Z.leb_le _ _) H1), (proj2 (Z.leb_le _ _) H2),
    (proj2 (Z.leb_le _ _) H3). done.
Qed.

Lemma fr_Read_whole (r : FileReader) :
  fr_Read 0 (fr_Size r) r = Ok (fr_data r) [].
Proof.
  rewrite fr_Read_inside; unfold fr_Size; try lia.
  rewrite Nat2Z.id. change (Z.to_nat 0) with 0%nat. rewrite drop_0, firstn_all. done.
Qed.

Lemma fr_Read_exact (r : FileReader) (size : Z) :
  fr_Size r = size -> fr_Read 0 size r = Ok (fr_data r) [].
Proof. intros <-. apply fr_Read_whole. Qed.

(** ** The index file: what the writer leaves on disk *)

Lemma length_element_bytes (e : IndexFile.TElement) :
  length (IndexFile.element_bytes e) = 16%nat.
Proof. unfold IndexFile.element_bytes. by rewrite length_app, !length_le_bytes. Qed.

Lemma length_elements_bytes (l : list IndexFile.TElement) :
  length (IndexFile.elements_bytes l) = (16 * length l)%nat.
Proof.
  unfold IndexFile.elements_bytes. induction l as [|e l IH]; [done|].
  cbn [flat_map]. rewrite length_app, length_element_bytes, IH. simpl. lia.
Qed.

Lemma elements_bytes_app (l1 l2 : list IndexFile.TElement) :
  IndexFile.elements_bytes (l1 ++ l2)
  = IndexFile.elements_bytes l1 ++ IndexFile.elements_bytes l2.
Proof. unfold IndexFile.elements_bytes. apply flat_map_app. Qed.

Lemma elements_bytes_singleton (e : IndexFile.TElement) :
  IndexFile.elements_bytes [e] = IndexFile.element_bytes e.
Proof. unfold IndexFile.elements_bytes. cbn [flat_map]. apply app_nil_r. Qed.

Lemma element_bytes_head (k v : Z) (rest : list byte) :
  le_value (take 8 (IndexFile.element_bytes (k, v) ++ rest)) = wrap64 k /\
  le_value (take 8 (drop 8 (IndexFile.element_bytes (k, v) ++ rest))) = wrap64 v.
Proof.
  unfold IndexFile.element_bytes. cbn [fst snd]. rewrite <- app_assoc.
  rewrite (take_app_length' (le_bytes 8 k)) by (by rewrite length_le_bytes).
  rewrite (drop_app_length' (le_bytes 8 k)) by (by rewrite length_le_bytes).
  rewrite (take_app_length' (le_bytes 8 v)) by (by rewrite length_le_bytes).
  by rewrite !le_value_le_bytes.
Qed.

Lemma elements_of_bytes_elements_bytes (l : list IndexFile.TElement) :
  Forall u64_element l ->
  IndexFile.elements_of_bytes (length l) (IndexFile.elements_bytes l) = l.
Proof.
  induction 1 as [|[k v] l [Hk Hv] _ IH]; [done|].
  change (IndexFile.elements_bytes ((k, v) :: l))
    with (IndexFile.element_bytes (k, v) ++ IndexFile.elements_bytes l).
  cbn [length IndexFile.elements_of_bytes].
  destruct (element_bytes_head k v (IndexFile.elements_bytes l)) as [-> ->].
  rewrite drop_app_length' by (by rewrite length_element_bytes).
  rewrite IH. unfold wrap64, is_u64 in *. cbn [fst snd] in *.
  rewrite !Z.mod_small by lia. done.
Qed.

Lemma WriteAll_flushes (idx : IndexFile.t FileWriter) :
  at_end idx ->
  fw_data (IndexFile.m_file (IndexFile.WriteAll idx)) = written_and_pending idx /\
  IndexFile.m_elements (IndexFile.WriteAll idx) = [] /\
  at_end (IndexFile.WriteAll idx).
Proof.
  intros He. unfold IndexFile.WriteAll, written_and_pending, at_end.
  destruct (IndexFile.m_elements idx) as [|e l] eqn:E.
  - rewrite E. cbn. by rewrite app_nil_r.
  - cbn [IndexFile.m_file IndexFile.m_elements].
    destruct (fw_Write_append (IndexFile.elements_bytes (e :: l)) _ He) as [-> ->].
    done.
Qed.

Lemma Add_keeps (k v : Z) (idx : IndexFile.t FileWriter) :
  at_end idx ->
  written_and_pending (IndexFile.Add k v idx)
    = written_and_pending idx ++ IndexFile.element_bytes (k, v) /\
  at_end (IndexFile.Add k v idx).
Proof.
  intros He. unfold IndexFile.Add.
  destruct (IndexFile.kFlushCount <? length (IndexFile.m_elements idx))%nat.
  - destruct (WriteAll_flushes idx He) as (Hd & Hm & He').
    unfold written_and_pending at 1, at_end, IndexFile.push_back.
    cbn [IndexFile.m_file IndexFile.m_elements].
    rewrite Hd, Hm, app_nil_l, elements_bytes_singleton.
    split; [done|]. rewrite <- Hd. exact He'.
  - unfold written_and_pending, at_end, IndexFile.push_back.
    cbn [IndexFile.m_file IndexFile.m_elements].
    rewrite elements_bytes_app, app_assoc, elements_bytes_singleton. done.
Qed.

Lemma add_all_keeps (adds : list IndexFile.TElement) (idx : IndexFile.t FileWriter) :
  at_end idx ->
  written_and_pending (IndexFile.add_all adds idx)
    = written_and_pending idx ++ IndexFile.elements_bytes adds /\
  at_end (IndexFile.add_all adds idx).
Proof.
  revert idx. induction adds as [|[k v] adds IH]; intros idx He.
  - cbn. by rewrite app_nil_r.
  - unfold IndexFile.add_all. cbn [foldl fst snd].
    destruct (Add_keeps k v idx He) as [Hw He'].
    destruct (IH _ He') as [Hw' He'']. unfold IndexFile.add_all in Hw', He''.
    rewrite Hw', Hw. split; [|done].
    rewrite <- app_assoc. done.
Qed.

Lemma add_all_name (adds : list IndexFile.TElement) (idx : IndexFile.t FileWriter) :
  fw_name (IndexFile.m_file (IndexFile.WriteAll (IndexFile.add_all adds idx)))
  = fw_name (IndexFile.m_file idx).
Proof.
  assert (Hw : forall i, fw_name (IndexFile.m_file (IndexFile.WriteAll i))
                         = fw_name (IndexFile.m_file i)).
  { intros i. unfold IndexFile.WriteAll. by destruct (IndexFile.m_elements i). }
  rewrite Hw. revert idx. induction adds as [|[k v] adds IH]; intros idx; [done|].
  unfold IndexFile.add_all in *. cbn [foldl]. rewrite IH.
  unfold IndexFile.Add. cbn [fst snd].
  destruct (IndexFile.kFlushCount <? _)%nat; cbn; [apply Hw | done].
Qed.

(** The file a writer leaves after [Add]s and a final [WriteAll] holds the
    records of all the calls, in order. *)
Lemma index_file_contents (name : string) (adds : list IndexFile.TElement) :
  IndexFile.close (IndexFile.WriteAll (IndexFile.add_all adds (IndexFile.create name)))
  = {| f_name := name; f_bytes := IndexFile.elements_bytes adds |}.
Proof.
  assert (He : at_end (IndexFile.create name)) by done.
  destruct (add_all_keeps adds _ He) as [Hw He'].
  destruct (WriteAll_flushes _ He') as (Hd & _ & _).
  unfold IndexFile.close, fw_close. rewrite Hd, Hw, add_all_name. done.
Qed.

(** ** Sorting with [ElementComparator] *)

Lemma sorted_before_iff (r1 r2 : IndexFile.TElement) :
  IndexFile.sorted_before r1 r2 <-> r1.1 < r2.1 \/ (r1.1 = r2.1 /\ r1.2 <= r2.2).
Proof.
  unfold IndexFile.sorted_before, IndexFile.comp_elem.
  destruct (Z.eqb_spec r2.1 r1.1) as [He|Hne].
  - rewrite Z.ltb_ge. lia.
  - rewrite Z.ltb_ge. lia.
Qed.

#[global] Instance sorted_before_total : Total IndexFile.sorted_before.
Proof. intros x y. rewrite !sorted_before_iff. lia. Qed.

#[global] Instance sorted_before_trans : Transitive IndexFile.sorted_before.
Proof. intros x y z. rewrite !sorted_before_iff. lia. Qed.

#[global] Instance sorted_before_antisymm : AntiSymm (=) IndexFile.sorted_before.
Proof.
  intros [k1 v1] [k2 v2]. rewrite !sorted_before_iff. cbn [fst snd].
  intros H1 H2. f_equal; lia.
Qed.

Lemma std_sort_sorted (l : list IndexFile.TElement) :
  StronglySorted IndexFile.sorted_before (IndexFile.std_sort l).
Proof. apply StronglySorted_merge_sort; apply _. Qed.

Lemma std_sort_perm (l : list IndexFile.TElement) : IndexFile.std_sort l ≡ₚ l.
Proof. apply merge_sort_Permutation. Qed.

(** The comparator leaves no freedom to a sorting algorithm: whatever
    arrangement of [l] is in order is the one [std_sort] computes. *)
Lemma std_sort_unique (l l' : list IndexFile.TElement) :
  l' ≡ₚ l -> StronglySorted IndexFile.sorted_before l' -> l' = IndexFile.std_sort l.
Proof.
  intros Hp Hs. apply (StronglySorted_unique IndexFile.sorted_before); [done|..].
  - apply std_sort_sorted.
  - by rewrite std_sort_perm.
Qed.

Lemma sorted_lookup_le (l : list IndexFile.TElement) (i j : nat)
    (x y : IndexFile.TElement) :
  StronglySorted IndexFile.sorted_before l ->
  (i <= j)%nat -> l !! i = Some x -> l !! j = Some y ->
  IndexFile.sorted_before x y.
Proof.
  intros Hs Hij Hi Hj.
  destruct (decide (i = j)) as [->|Hne].
  { assert (x = y) by congruence. subst. apply sorted_before_iff. lia. }
  assert (Hlt : (i < j)%nat) by lia.
  rewrite <- (take_drop (S i) l) in Hs.
  apply (StronglySorted_app_1_elem_of _ _ _ x y) in Hs; [done|..].
  - apply list_elem_of_lookup. exists i. rewrite lookup_take_lt by lia. done.
  - apply list_elem_of_lookup. exists (j - S i)%nat. rewrite lookup_drop.
    replace (S i + (j - S i))%nat with j by lia. done.
Qed.

(** ** The bound loop of [lower_bound] and [upper_bound] *)

Section bound_loop.
Context {A : Type} (go_right : A -> bool) (l : list A).

(** The range is partitioned: once the predicate fails it fails for good. *)
Hypothesis partitioned : forall (i j : nat) (x y : A),
  (i <= j)%nat -> l !! i = Some x -> l !! j = Some y ->
  go_right y = true -> go_right x = true.

Lemma bound_loop_spec (fuel first count : nat) :
  (count <= fuel)%nat ->
  (first + count <= length l)%nat ->
  (forall i x, (i < first)%nat -> l !! i = Some x -> go_right x = true) ->
  (forall i x, (first + count <= i)%nat -> l !! i = Some x -> go_right x = false) ->
  let r := IndexFile.bound_loop go_right fuel l first count in
  (first <= r <= first + count)%nat /\
  (forall i x, (i < r)%nat -> l !! i = Some x -> go_right x = true) /\
  (forall i x, (r <= i)%nat -> l !! i = Some x -> go_right x = false).
Proof.
  revert first count. induction fuel as [|fuel IH]; intros first count Hf Hl Hlo Hhi.
  - assert (count = 0%nat) by lia. subst. cbn.
    split; [lia|]. split; [done|]. intros i x Hi. apply Hhi. lia.
  - cbn [IndexFile.bound_loop]. destruct count as [|c].
    { split; [lia|]. split; [done|]. intros i x Hi. apply Hhi. lia. }
    set (step := (S c / 2)%nat).
    assert (Hstep : (step < S c)%nat).
    { unfold step. apply Nat.Div0.div_lt_upper_bound. lia. }
    clearbody step.
    assert (Hin : (first + step < length l)%nat) by lia.
    destruct (lookup_lt_is_Some_2 l _ Hin) as [x Hx].
    rewrite Hx. destruct (go_right x) eqn:Hgo.
    + destruct (IH (first + step + 1)%nat (S c - (step + 1))%nat) as (Hr & Ht & Hf');
        try lia.
      * intros i y Hi Hy. apply (partitioned i (first + step)%nat y x); [lia|done..].
      * intros i y Hi. apply Hhi. lia.
      * split; [lia|]. done.
    + destruct (IH first step) as (Hr & Ht & Hf'); try lia; [done| |].
      * intros i y Hi Hy. destruct (go_right y) eqn:Hy'; [|done].
        rewrite <- Hgo. symmetry.
        apply (partitioned (first + step)%nat i x y); [lia|done..].
      * split; [lia|]. done.
Qed.

(** Run over the whole list, the loop finds the partition point. *)
Lemma bound_loop_partition :
  let r := IndexFile.bound_loop go_right (length l) l 0 (length l) in
  (r <= length l)%nat /\
  Forall (fun x => go_right x = true) (take r l) /\
  Forall (fun x => go_right x = false) (drop r l).
Proof.
  assert (Hlo : forall i x, (i < 0)%nat -> l !! i = Some x -> go_right x = true)
    by (intros; lia).
  assert (Hhi : forall i x, (0 + length l <= i)%nat -> l !! i = Some x ->
                            go_right x = false).
  { intros i x Hi Hx. apply lookup_lt_Some in Hx. lia. }
  destruct (bound_loop_spec (length l) 0 (length l) (le_n _) (le_n _) Hlo Hhi)
    as (Hr & Ht & Hf).
  cbn zeta. split; [lia|]. split.
    + apply Forall_lookup. intros i x Hx.
      apply lookup_take_Some in Hx as [Hx Hi]. by apply (Ht i).
    + apply Forall_lookup. intros i x Hx. rewrite lookup_drop in Hx.
      eapply Hf; [|exact Hx]. lia.
Qed.
End bound_loop.

(** ** Lookups in a sorted index *)

Lemma filter_all {A} (P : A -> Prop) `{forall x, Decision (P x)} (l : list A) :
  Forall P l -> filter P l = l.
Proof.
  induction 1 as [|x l Hx _ IH]; [done|].
  rewrite filter_cons_True by done. by rewrite IH.
Qed.

Lemma filter_none {A} (P : A -> Prop) `{forall x, Decision (P x)} (l : list A) :
  Forall (fun x => ~ P x) l -> filter P l = [].
Proof.
  induction 1 as [|x l Hx _ IH]; [done|].
  by rewrite filter_cons_False.
Qed.

Section sorted_index.
Context (l : list IndexFile.TElement) (k : Z).
Hypothesis l_sorted : StronglySorted IndexFile.sorted_before l.

Lemma lower_bound_partition :
  let lo := IndexFile.lower_bound l k in
  (lo <= length l)%nat /\
  Forall (fun e => e.1 < k) (take lo l) /\
  Forall (fun e => k <= e.1) (drop lo l).
Proof.
  unfold IndexFile.lower_bound.
  destruct (bound_loop_partition (fun e => IndexFile.comp_elem_key e k) l)
    as (Hr & Ht & Hd).
  { intros i j x y Hij Hx Hy. unfold IndexFile.comp_elem_key.
    rewrite !Z.ltb_lt.
    pose proof (sorted_lookup_le l i j x y l_sorted Hij Hx Hy) as Hxy.
    apply sorted_before_iff in Hxy. lia. }
  cbn zeta. split; [done|]. split.
  - eapply Forall_impl; [exact Ht|]. intros e. unfold IndexFile.comp_elem_key.
    by rewrite Z.ltb_lt.
  - eapply Forall_impl; [exact Hd|]. intros e. unfold IndexFile.comp_elem_key.
    by rewrite Z.ltb_ge.
Qed.

Lemma upper_bound_partition :
  let hi := IndexFile.upper_bound l k in
  (hi <= length l)%nat /\
  Forall (fun e => e.1 <= k) (take hi l) /\
  Forall (fun e => k < e.1) (drop hi l).
Proof.
  unfold IndexFile.upper_bound.
  destruct (bound_loop_partition (fun e => negb (IndexFile.comp_key_elem k e)) l)
    as (Hr & Ht & Hd).
  { intros i j x y Hij Hx Hy. unfold IndexFile.comp_key_elem.
    rewrite !negb_true_iff, !Z.ltb_ge.
    pose proof (sorted_lookup_le l i j x y l_sorted Hij Hx Hy) as Hxy.
    apply sorted_before_iff in Hxy. lia. }
  cbn zeta. split; [done|]. split.
  - eapply Forall_impl; [exact Ht|]. intros e. unfold IndexFile.comp_key_elem.
    by rewrite negb_true_iff, Z.ltb_ge.
  - eapply Forall_impl; [exact Hd|]. intros e. unfold IndexFile.comp_key_elem.
    by rewrite negb_false_iff, Z.ltb_lt.
Qed.

(** [equal_range] delimits exactly the entries filed under the key. *)
Lemma equal_range_filter :
  let lo := IndexFile.lower_bound l k in
  let hi := IndexFile.upper_bound l k in
  (lo <= hi)%nat /\
  take (hi - lo) (drop lo l) = filter (fun e => e.1 = k) l.
Proof.
  destruct lower_bound_partition as (Hlo & Hlt & Hge).
  destruct upper_bound_partition as (Hhi & Hle & Hgt).
  cbn zeta in *.
  set (lo := IndexFile.lower_bound l k) in *.
  set (hi := IndexFile.upper_bound l k) in *.
  assert (Hlohi : (lo <= hi)%nat).
  { destruct (decide (lo <= hi)%nat) as [|Hn]; [done|]. exfalso.
    destruct (lookup_lt_is_Some_2 l hi) as [e He]; [lia|].
    assert (H1 : e.1 < k).
    { assert (Hx : take lo l !! hi = Some e)
        by (rewrite lookup_take_lt by lia; done).
      exact (Forall_lookup_1 (fun e => e.1 < k) _ _ _ Hlt Hx). }
    assert (H2 : k < e.1).
    { assert (Hx : drop hi l !! 0%nat = Some e)
        by (rewrite lookup_drop, Nat.add_0_r; done).
      exact (Forall_lookup_1 (fun e => k < e.1) _ _ _ Hgt Hx). }
    lia. }
  split; [done|].
  assert (Hdec : l = take lo l ++ take (hi - lo) (drop lo l)
                      ++ drop (hi - lo) (drop lo l))
    by (by rewrite !take_drop).
  rewrite (f_equal (filter (fun e => e.1 = k)) Hdec).
  rewrite !filter_app.
  rewrite (filter_none _ (take lo l)).
  2:{ eapply Forall_impl; [exact Hlt|]. intros e ?. cbn beta in *. lia. }
  rewrite (filter_none _ (drop (hi - lo) (drop lo l))).
  2:{ rewrite drop_drop. replace (lo + (hi - lo))%nat with hi by lia.
      eapply Forall_impl; [exact Hgt|]. intros e ?. cbn beta in *. lia. }
  rewrite (filter_all _ (take (hi - lo) (drop lo l))).
  2:{ assert (H1 : Forall (fun e => k <= e.1) (take (hi - lo) (drop lo l)))
        by (by apply Forall_take).
      assert (H2 : Forall (fun e => e.1 <= k) (take (hi - lo) (drop lo l))).
      { rewrite take_drop_commute. replace (lo + (hi - lo))%nat with hi by lia.
        by apply Forall_drop. }
      pose proof (proj2 (Forall_and (fun e : Z * Z => k <= e.1)
                                    (Q := fun e : Z * Z => e.1 <= k) _)
                        (conj H1 H2)) as H12.
      eapply Forall_impl; [exact H12|]. intros e ?. cbn beta in *. lia. }
  by rewrite app_nil_l, app_nil_r.
Qed.

(** [GetValueByKey] answers with the first entry filed under the key. *)
Lemma GetValueByKey_sorted {TFile} (file : TFile) (size : Z) :
  IndexFile.GetValueByKey (IndexFile.mk l file size) k
  = head (filter (fun e => e.1 = k) l).*2.
Proof.
  unfold IndexFile.GetValueByKey. cbn [IndexFile.m_elements].
  destruct lower_bound_partition as (Hlo & Hlt & Hge). cbn zeta in *.
  set (lo := IndexFile.lower_bound l k) in *.
  assert (Hdec : l = take lo l ++ drop lo l) by (by rewrite take_drop).
  rewrite (f_equal (filter (fun e => e.1 = k)) Hdec). rewrite filter_app.
  rewrite (filter_none _ (take lo l)).
  2:{ eapply Forall_impl; [exact Hlt|]. intros e ?. cbn beta in *. lia. }
  rewrite app_nil_l.
  destruct (l !! lo) as [e|] eqn:He.
  - rewrite (drop_S _ _ _ He) in Hge |- *.
    apply Forall_cons in Hge as [Hek Hge].
    destruct (Z.eqb_spec e.1 k) as [Heq|Hne].
    + rewrite filter_cons_True by done. done.
    + rewrite filter_cons_False by done.
      rewrite filter_none; [done|].
      assert (Hs : StronglySorted IndexFile.sorted_before (drop lo l)).
      { rewrite <- (take_drop lo l) in l_sorted.
        by apply StronglySorted_app_1_r in l_sorted. }
      rewrite (drop_S _ _ _ He) in Hs. apply StronglySorted_cons in Hs as [Hs _].
      eapply Forall_impl; [exact Hs|]. intros e' He'. cbn beta in *.
      apply sorted_before_iff in He'. lia.
  - apply lookup_ge_None in He. rewrite drop_ge by done. done.
Qed.
End sorted_index.

Lemma visit_range_visit_until {S} (toDo : Z -> S -> bool * S)
    (l : list IndexFile.TElement) (first n : nat) (st : S) :
  IndexFile.visit_range toDo l first n st
  = IndexFile.visit_until toDo (take n (drop first l)).*2 st.
Proof.
  revert first st. induction n as [|n IH]; intros first st; [done|].
  cbn [IndexFile.visit_range]. destruct (l !! first) as [e|] eqn:He.
  - rewrite (drop_S _ _ _ He). cbn [take fmap list_fmap IndexFile.visit_until].
    destruct (toDo e.2 st) as [[] st']; [done|].
    rewrite IH. by rewrite Nat.add_1_r.
  - apply lookup_ge_None in He. rewrite drop_ge by done. by rewrite take_nil.
Qed.

Lemma ForEachByKey_sorted {TFile S} (l : list IndexFile.TElement) (file : TFile)
    (size : Z) (k : Z) (toDo : Z -> S -> bool * S) (st : S) :
  StronglySorted IndexFile.sorted_before l ->
  IndexFile.ForEachByKey (IndexFile.mk l file size) k toDo st
  = IndexFile.visit_until toDo (filter (fun e => e.1 = k) l).*2 st.
Proof.
  intros Hs. unfold IndexFile.ForEachByKey, IndexFile.equal_range.
  cbn [IndexFile.m_elements fst snd].
  rewrite visit_range_visit_until.
  destruct (equal_range_filter l k Hs) as [_ ->]. done.
Qed.

Lemma sorted_values (k : Z) (l : list IndexFile.TElement) :
  StronglySorted IndexFile.sorted_before l ->
  StronglySorted Z.le (filter (fun e => e.1 = k) l).*2.
Proof.
  induction 1 as [|e l Hs IH Hall]; [constructor|].
  destruct (decide (e.1 = k)) as [He|He].
  - rewrite filter_cons_True by done. cbn [fmap list_fmap].
    constructor; [exact IH|].
    apply Forall_fmap, Forall_forall. intros e' He'.
    apply list_elem_of_filter in He' as [Hk Hin].
    rewrite Forall_forall in Hall. specialize (Hall _ Hin).
    apply sorted_before_iff in Hall. cbn in *. lia.
  - by rewrite filter_cons_False.
Qed.

(** ** Loading the index *)

Lemma ReadAll_empty (mem : bool) (idx : IndexFile.t FileReader) :
  fr_Size (IndexFile.m_file idx) = 0 ->
  IndexFile.ReadAll mem idx = Ok (IndexFile.mk [] (IndexFile.m_file idx) 0) [].
Proof. intros Hs. unfold IndexFile.ReadAll. rewrite Hs. done. Qed.

Lemma ReadAll_damaged (mem : bool) (idx : IndexFile.t FileReader) :
  fr_Size (IndexFile.m_file idx) `mod` 16 <> 0 ->
  IndexFile.ReadAll mem idx
  = Fatal [Txt "Damaged file."]
      [(LINFO, [Txt "Offsets reading is started for file ";
                Txt (IndexFile.GetFileName idx)])].
Proof.
  intros Hm. unfold IndexFile.ReadAll.
  destruct (Z.eqb_spec (fr_Size (IndexFile.m_file idx)) 0) as [E|E].
  { rewrite E in Hm. done. }
  unfold CHECK_EQUAL, IndexFile.sizeof_TElement.
  destruct (Z.eqb_spec 0 (fr_Size (IndexFile.m_file idx) `mod` 16)) as [E'|E'].
  { by rewrite <- E' in Hm. }
  done.
Qed.

Lemma ReadAll_loads (idx : IndexFile.t FileReader) :
  let size := fr_Size (IndexFile.m_file idx) in
  size <> 0 -> size `mod` 16 = 0 -> size < 2 ^ 64 ->
  IndexFile.ReadAll true idx
  = Ok (IndexFile.mk
          (IndexFile.std_sort
             (IndexFile.elements_of_bytes (Z.to_nat (size `div` 16))
                (fr_data (IndexFile.m_file idx))))
          (IndexFile.m_file idx) size)
       [(LINFO, [Txt "Offsets reading is started for file ";
                 Txt (IndexFile.GetFileName idx)]);
        (LINFO, [Txt "Offsets reading is finished"])].
Proof.
  intros size H0 Hm Hlt. unfold IndexFile.ReadAll. fold size.
  rewrite (proj2 (Z.eqb_neq _ _) H0).
  unfold CHECK_EQUAL, IndexFile.sizeof_TElement, IndexFile.CheckedCast, ASSERT_LESS.
  rewrite Hm. cbn [Z.eqb].
  assert (Hpos : 0 <= size) by (unfold size, fr_Size; lia).
  assert (Hd : (size `div` 16 <? 2 ^ 64 - 1) = true).
  { apply Z.ltb_lt. apply Z.div_lt_upper_bound; lia. }
  assert (Hs : (size <? 2 ^ 64 - 1) = true).
  { apply Z.ltb_lt. destruct (decide (size = 2 ^ 64 - 1)) as [E|]; [|lia].
    rewrite E in Hm. vm_compute in Hm. done. }
  rewrite Hd, Hs. cbn [mbind run_mbind run_bind mret run_mret LOG app].
  pose proof (fr_Read_whole (IndexFile.m_file idx)) as Hr. fold size in Hr.
  rewrite Hr. done.
Qed.

(** A file is read back as the records of its bytes, and nothing else:
    re-encoding what was loaded gives the file. *)
Lemma byte_of_Z_of_byte (b : byte) : byte_of_Z (Z_of_byte b) = b.
Proof.
  unfold byte_of_Z, Z_of_byte.
  pose proof (Byte.to_N_bounded b).
  rewrite Z.mod_small by lia. rewrite N2Z.id, Byte.of_to_N. done.
Qed.

Lemma le_bytes_le_value (bs : list byte) : le_bytes (length bs) (le_value bs) = bs.
Proof.
  induction bs as [|b bs IH]; [done|].
  cbn [length le_bytes le_value]. pose proof (Z_of_byte_range b) as Hb.
  f_equal.
  - unfold byte_of_Z. rewrite (Z.mul_comm 256), Z_mod_plus_full.
    fold (byte_of_Z (Z_of_byte b)). apply byte_of_Z_of_byte.
  - replace ((Z_of_byte b + 256 * le_value bs) `div` 256) with (le_value bs); [done|].
    rewrite (Z.mul_comm 256), Z.div_add by lia.
    rewrite Z.div_small by lia. lia.
Qed.

Lemma elements_bytes_elements_of_bytes (n : nat) (bs : list byte) :
  length bs = (16 * n)%nat ->
  IndexFile.elements_bytes (IndexFile.elements_of_bytes n bs) = bs.
Proof.
  revert bs. induction n as [|n IH]; intros bs Hl.
  - destruct bs; [done|]. cbn in Hl. lia.
  - cbn [IndexFile.elements_of_bytes].
    change (IndexFile.elements_bytes (?e :: ?l))
      with (IndexFile.element_bytes e ++ IndexFile.elements_bytes l).
    rewrite IH by (rewrite length_drop; lia).
    unfold IndexFile.element_bytes. cbn [fst snd].
    assert (H8 : length (take 8 bs) = 8%nat) by (rewrite length_take; lia).
    assert (H8' : length (take 8 (drop 8 bs)) = 8%nat)
      by (rewrite length_take, length_drop; lia).
    pose proof (le_bytes_le_value (take 8 bs)) as E1. rewrite H8 in E1.
    pose proof (le_bytes_le_value (take 8 (drop 8 bs))) as E2. rewrite H8' in E2.
    rewrite E1, E2.
    rewrite <- app_assoc.
    replace (drop 16 bs) with (drop 8 (drop 8 bs)) by (by rewrite drop_drop).
    by rewrite !take_drop.
Qed.

(** ** The index file: flushing, loading, round trip *)

(** C10. [WriteAll] is idempotent: it appends the buffered entries to the file
    and empties the buffer, so a second [WriteAll] right after it changes
    nothing (no byte is written), and with an empty buffer [WriteAll]
    does nothing at all. *)
Theorem WriteAll_idempotent (idx : IndexFile.t FileWriter) :
  IndexFile.m_elements (IndexFile.WriteAll idx) = [] /\
  IndexFile.WriteAll (IndexFile.WriteAll idx) = IndexFile.WriteAll idx /\
  (IndexFile.m_elements idx = [] -> IndexFile.WriteAll idx = idx) /\
  (at_end idx ->
   fw_data (IndexFile.m_file (IndexFile.WriteAll idx))
   = fw_data (IndexFile.m_file idx)
     ++ IndexFile.elements_bytes (IndexFile.m_elements idx)).
Proof.
  assert (Hnil : forall i, IndexFile.m_elements i = [] -> IndexFile.WriteAll i = i).
  { intros i Hi. unfold IndexFile.WriteAll. by rewrite Hi. }
  assert (Hclr : IndexFile.m_elements (IndexFile.WriteAll idx) = []).
  { unfold IndexFile.WriteAll. by destruct (IndexFile.m_elements idx) eqn:E. }
  split; [exact Hclr|]. split; [by apply Hnil|]. split; [apply Hnil|].
  intros He. by destruct (WriteAll_flushes idx He) as (-> & _ & _).
Qed.

Lemma WriteAll_idempotent_witness :
  let idx := IndexFile.add_all [(10, 100); (20, 200)] (IndexFile.create "n.offsets") in
  IndexFile.WriteAll (IndexFile.WriteAll idx) = IndexFile.WriteAll idx /\
  IndexFile.WriteAll (IndexFile.create "n.offsets") = IndexFile.create "n.offsets" /\
  length (fw_data (IndexFile.m_file (IndexFile.WriteAll idx))) = 32%nat.
Proof.
  intros idx.
  destruct (WriteAll_idempotent idx) as (_ & H2 & _ & H4).
  destruct (WriteAll_idempotent (IndexFile.create "n.offsets")) as (_ & _ & H3 & _).
  split; [exact H2|]. split; [apply H3; reflexivity|].
  rewrite H4 by reflexivity. reflexivity.
Defined.

(** C5. [ReadAll] aborts with the diagnostic "Damaged file." whenever the
    length of the index file is not a multiple of the record size; when it
    is a multiple there is no such abort, and (memory permitting) the whole
    file is loaded, record by record, and the records are sorted. *)
Theorem ReadAll_damaged_file (enough_memory : bool) (idx : IndexFile.t FileReader) :
  let size := fr_Size (IndexFile.m_file idx) in
  (size `mod` IndexFile.sizeof_TElement <> 0 ->
   exists log, IndexFile.ReadAll enough_memory idx = Fatal [Txt "Damaged file."] log) /\
  (size `mod` IndexFile.sizeof_TElement = 0 ->
   (forall diag log, IndexFile.ReadAll enough_memory idx = Fatal diag log ->
                     diag <> [Txt "Damaged file."]) /\
   (size < 2 ^ 64 ->
    exists idx' log,
      IndexFile.ReadAll true idx = Ok idx' log /\
      IndexFile.elements_bytes
        (IndexFile.elements_of_bytes (Z.to_nat (size `div` IndexFile.sizeof_TElement))
           (fr_data (IndexFile.m_file idx)))
      = fr_data (IndexFile.m_file idx) /\
      IndexFile.m_elements idx'
      ≡ₚ IndexFile.elements_of_bytes
           (Z.to_nat (size `div` IndexFile.sizeof_TElement))
           (fr_data (IndexFile.m_file idx)) /\
      StronglySorted IndexFile.sorted_before (IndexFile.m_elements idx'))).
Proof.
  intros size. unfold IndexFile.sizeof_TElement. split.
  - intros Hm. eexists. by apply ReadAll_damaged.
  - intros Hm. split.
    + intros diag log Hr ->. revert Hr. unfold IndexFile.ReadAll. fold size.
      destruct (size =? 0); [done|].
      unfold CHECK_EQUAL, IndexFile.sizeof_TElement, IndexFile.CheckedCast, ASSERT_LESS.
      rewrite Hm. cbn [Z.eqb].
      destruct (size `div` 16 <? 2 ^ 64 - 1); [|done].
      destruct enough_memory; [|done].
      destruct (size <? 2 ^ 64 - 1); [|done].
      cbn [mbind run_mbind run_bind mret run_mret LOG app].
      unfold fr_Read.
      destruct ((0 <=? 0) && (0 <=? size) && (0 + size <=? fr_Size (IndexFile.m_file idx)));
        done.
    + intros Hlt.
      assert (Hbytes : length (fr_data (IndexFile.m_file idx))
                       = (16 * Z.to_nat (size `div` 16))%nat).
      { unfold size, fr_Size in *.
        pose proof (Z.div_mod (Z.of_nat (length (fr_data (IndexFile.m_file idx)))) 16).
        lia. }
      destruct (decide (size = 0)) as [H0|H0].
      * exists (IndexFile.mk [] (IndexFile.m_file idx) 0), [].
        split; [by apply ReadAll_empty|].
        rewrite H0. cbn [Z.div Z.to_nat IndexFile.elements_of_bytes].
        change (Z.to_nat (0 `div` 16)) with 0%nat.
        cbn [IndexFile.elements_of_bytes IndexFile.m_elements].
        split; [|split; [done|constructor]].
        rewrite H0 in Hbytes. change (Z.to_nat (0 `div` 16)) with 0%nat in Hbytes.
        destruct (fr_data (IndexFile.m_file idx)); [done|]. cbn in Hbytes. lia.
      * eexists _, _. split; [by apply ReadAll_loads|].
        cbn [IndexFile.m_elements]. split; [|split].
        -- by apply elements_bytes_elements_of_bytes.
        -- apply std_sort_perm.
        -- apply std_sort_sorted.
Qed.

Lemma ReadAll_damaged_file_witness :
  (exists log,
     IndexFile.ReadAll true
       (IndexFile.open {| f_name := "n.offsets"; f_bytes := replicate 24 Byte.x01 |})
     = Fatal [Txt "Damaged file."] log) /\
  (exists idx' log,
     IndexFile.ReadAll true
       (IndexFile.open {| f_name := "n.offsets"; f_bytes := replicate 32 Byte.x01 |})
     = Ok idx' log /\
     length (IndexFile.m_elements idx') = 2%nat).
Proof.
  split.
  - apply (ReadAll_damaged_file true
             (IndexFile.open {| f_name := "n.offsets"; f_bytes := replicate 24 Byte.x01 |})).
    vm_compute. discriminate.
  - destruct (ReadAll_damaged_file true
             (IndexFile.open {| f_name := "n.offsets"; f_bytes := replicate 32 Byte.x01 |}))
      as [_ H].
    destruct (H eq_refl) as [_ H'].
    destruct (H' eq_refl) as (idx' & log & Hr & _ & Hp & _).
    exists idx', log. split; [exact Hr|].
    apply Permutation_length in Hp. exact Hp.
Defined.

(** A file made of the records of [entries] loads as [entries], sorted. *)
Lemma ReadAll_of_elements (name : string) (entries : list IndexFile.TElement) :
  Forall u64_element entries ->
  16 * Z.of_nat (length entries) < 2 ^ 64 ->
  exists log,
    IndexFile.ReadAll true
      (IndexFile.open {| f_name := name; f_bytes := IndexFile.elements_bytes entries |})
    = Ok (IndexFile.mk (IndexFile.std_sort entries)
            (fr_open {| f_name := name; f_bytes := IndexFile.elements_bytes entries |})
            (16 * Z.of_nat (length entries)))
         log.
Proof.
  intros Hu Hfit.
  set (f := {| f_name := name; f_bytes := IndexFile.elements_bytes entries |}).
  assert (Hsize : fr_Size (IndexFile.m_file (IndexFile.open f))
                  = 16 * Z.of_nat (length entries)).
  { unfold fr_Size. cbn. rewrite length_elements_bytes. lia. }
  destruct entries as [|e entries].
  - exists []. by rewrite ReadAll_empty.
  - eexists. rewrite ReadAll_loads; rewrite ?Hsize.
    + cbn [IndexFile.open IndexFile.m_file fr_open fr_data f f_bytes].
      replace (Z.to_nat ((16 * Z.of_nat (length (e :: entries))) `div` 16))
        with (length (e :: entries)).
      2:{ rewrite Z.mul_comm, Z.div_mul by lia. lia. }
      rewrite elements_of_bytes_elements_bytes by done. reflexivity.
    + cbn [length]. lia.
    + rewrite Z.mul_comm. apply Z.mod_mul. lia.
    + done.
Qed.

(** The index a reader holds after the writer's pass: the added entries,
    sorted. *)
Lemma reload_after_adds (name : string) (adds : list IndexFile.TElement) :
  Forall u64_element adds ->
  16 * Z.of_nat (length adds) < 2 ^ 64 ->
  exists log,
    IndexFile.ReadAll true
      (IndexFile.open
         (IndexFile.close
            (IndexFile.WriteAll (IndexFile.add_all adds (IndexFile.create name)))))
    = Ok (IndexFile.mk (IndexFile.std_sort adds)
            (fr_open {| f_name := name; f_bytes := IndexFile.elements_bytes adds |})
            (16 * Z.of_nat (length adds)))
         log.
Proof. intros Hu Hfit. rewrite index_file_contents. by apply ReadAll_of_elements. Qed.

(** C1. After any sequence of [Add(k_i, v_i)], a final [WriteAll], a reopen and
    [ReadAll]: [GetValueByKey(k)] answers with the smallest value added under
    [k] (nothing when none was), and [ForEachByKey(k)] runs its visitor over
    exactly the values added under [k], in ascending order, stopping as soon
    as the visitor answers true. *)
Theorem index_round_trip {S : Type} (name : string) (adds : list IndexFile.TElement)
    (k : Z) (toDo : Z -> S -> bool * S) (st : S) :
  Forall u64_element adds ->
  16 * Z.of_nat (length adds) < 2 ^ 64 ->
  exists idx log,
    IndexFile.ReadAll true
      (IndexFile.open
         (IndexFile.close
            (IndexFile.WriteAll (IndexFile.add_all adds (IndexFile.create name)))))
    = Ok idx log /\
    match IndexFile.GetValueByKey idx k with
    | Some v =>
        v ∈ IndexFile.values_of k adds /\ Forall (Z.le v) (IndexFile.values_of k adds)
    | None => IndexFile.values_of k adds = []
    end /\
    exists vs,
      vs ≡ₚ IndexFile.values_of k adds /\
      StronglySorted Z.le vs /\
      IndexFile.ForEachByKey idx k toDo st = IndexFile.visit_until toDo vs st.
Proof.
  intros Hu Hfit. destruct (reload_after_adds name adds Hu Hfit) as [log Hr].
  eexists _, log. split; [exact Hr|].
  pose proof (std_sort_sorted adds) as Hs.
  set (vs := (filter (fun e => e.1 = k) (IndexFile.std_sort adds)).*2).
  assert (Hp : vs ≡ₚ IndexFile.values_of k adds).
  { unfold vs, IndexFile.values_of. by rewrite std_sort_perm. }
  assert (Hvs : StronglySorted Z.le vs) by (by apply sorted_values).
  split.
  - rewrite GetValueByKey_sorted by done. fold vs.
    destruct vs as [|v vs'] eqn:E; cbn [head].
    + symmetry in Hp. by apply Permutation_nil_r in Hp.
    + split.
      * rewrite <- Hp. apply list_elem_of_here.
      * rewrite <- Hp. apply StronglySorted_cons in Hvs as [Hv _].
        constructor; [lia|done].
  - exists vs. split; [done|]. split; [done|].
    by apply ForEachByKey_sorted.
Qed.

Lemma index_round_trip_witness :
  exists idx log,
    IndexFile.ReadAll true
      (IndexFile.open
         (IndexFile.close
            (IndexFile.WriteAll
               (IndexFile.add_all [(10, 100); (20, 200); (10, 50)]
                  (IndexFile.create "n.offsets")))))
    = Ok idx log /\
    IndexFile.GetValueByKey idx 10 = Some 50 /\
    IndexFile.GetValueByKey idx 30 = None /\
    IndexFile.ForEachByKey idx 10 (fun v seen => (false, seen ++ [v])) [] = [50; 100].
Proof.
  destruct (index_round_trip "n.offsets" [(10, 100); (20, 200); (10, 50)] 10
              (fun v (seen : list Z) => (false, seen ++ [v])) [])
    as (idx & log & Hr & _ & _).
  - repeat (apply Forall_cons; split; [unfold u64_element, is_u64; cbn; lia|]).
    constructor.
  - cbn. lia.
  - exists idx, log. split; [exact Hr|].
    vm_compute in Hr. injection Hr as <- _. vm_compute. done.
Defined.

(** ** The element cache: what a pass of writes leaves on disk *)

Lemma GetValueByKey_min {TFile} (entries : list IndexFile.TElement) (file : TFile)
    (size : Z) (k : Z) :
  match IndexFile.GetValueByKey (IndexFile.mk (IndexFile.std_sort entries) file size) k with
  | Some v =>
      v ∈ IndexFile.values_of k entries /\ Forall (Z.le v) (IndexFile.values_of k entries)
  | None => IndexFile.values_of k entries = []
  end.
Proof.
  pose proof (std_sort_sorted entries) as Hs.
  set (vs := (filter (fun e => e.1 = k) (IndexFile.std_sort entries)).*2).
  assert (Hp : vs ≡ₚ IndexFile.values_of k entries).
  { unfold vs, IndexFile.values_of. by rewrite std_sort_perm. }
  assert (Hvs : StronglySorted Z.le vs) by (by apply sorted_values).
  rewrite GetValueByKey_sorted by done. fold vs.
  destruct vs as [|v vs'] eqn:E; cbn [head].
  - symmetry in Hp. by apply Permutation_nil_r in Hp.
  - split.
    + rewrite <- Hp. apply list_elem_of_here.
    + rewrite <- Hp. apply StronglySorted_cons in Hvs as [Hv _].
      constructor; [lia|done].
Qed.

Lemma Add_name (k v : Z) (idx : IndexFile.t FileWriter) :
  fw_name (IndexFile.m_file (IndexFile.Add k v idx)) = fw_name (IndexFile.m_file idx).
Proof.
  unfold IndexFile.Add, IndexFile.WriteAll.
  destruct (IndexFile.kFlushCount <? _)%nat; [|done].
  by destruct (IndexFile.m_elements idx).
Qed.

Lemma WriteAll_name (idx : IndexFile.t FileWriter) :
  fw_name (IndexFile.m_file (IndexFile.WriteAll idx)) = fw_name (IndexFile.m_file idx).
Proof. unfold IndexFile.WriteAll. by destruct (IndexFile.m_elements idx). Qed.

Section cache_writes.
Context {V : Type} `{Payload V}.

Lemma length_record_bytes (v : V) :
  length (record_bytes v) = (4 + length (value_Write v))%nat.
Proof. unfold record_bytes. by rewrite length_app, length_le_bytes. Qed.

Lemma payload_file_app (ws1 ws2 : list (Z * V)) :
  payload_file (ws1 ++ ws2) = payload_file ws1 ++ payload_file ws2.
Proof. unfold payload_file. apply flat_map_app. Qed.

Lemma payload_file_cons (w : Z * V) (ws : list (Z * V)) :
  payload_file (w :: ws) = record_bytes w.2 ++ payload_file ws.
Proof. done. Qed.

Lemma offset_entries_app (pos : nat) (ws1 ws2 : list (Z * V)) :
  offset_entries pos (ws1 ++ ws2)
  = offset_entries pos ws1 ++ offset_entries (pos + length (payload_file ws1)) ws2.
Proof.
  revert pos. induction ws1 as [|[id v] ws1 IH]; intros pos.
  - cbn. by rewrite Nat.add_0_r.
  - cbn [app offset_entries]. rewrite IH, payload_file_cons, length_app.
    cbn [snd]. by rewrite Nat.add_assoc.
Qed.

Lemma length_offset_entries (pos : nat) (ws : list (Z * V)) :
  length (offset_entries pos ws) = length ws.
Proof.
  revert pos. induction ws as [|[id v] ws IH]; intros pos; [done|].
  cbn [offset_entries length]. by rewrite IH.
Qed.

(** One [Write]: the record goes to the end of the payload file and its
    position into the index. *)
Lemma Write_spec (id : Z) (v : V) (c : OSMElementCache.t FileWriter) :
  fw_pos (OSMElementCache.m_storage c) = length (fw_data (OSMElementCache.m_storage c)) ->
  at_end (OSMElementCache.m_offsets c) ->
  Z.of_nat (length (value_Write v)) < 2 ^ 32 - 1 ->
  Z.of_nat (length (fw_data (OSMElementCache.m_storage c))) < 2 ^ 64 ->
  exists c',
    OSMElementCache.Write id v c = Ok c' [] /\
    fw_data (OSMElementCache.m_storage c')
      = fw_data (OSMElementCache.m_storage c) ++ record_bytes v /\
    fw_pos (OSMElementCache.m_storage c') = length (fw_data (OSMElementCache.m_storage c')) /\
    fw_name (OSMElementCache.m_storage c') = fw_name (OSMElementCache.m_storage c) /\
    written_and_pending (OSMElementCache.m_offsets c')
      = written_and_pending (OSMElementCache.m_offsets c)
        ++ IndexFile.element_bytes
             (id, Z.of_nat (length (fw_data (OSMElementCache.m_storage c)))) /\
    at_end (OSMElementCache.m_offsets c') /\
    fw_name (IndexFile.m_file (OSMElementCache.m_offsets c'))
      = fw_name (IndexFile.m_file (OSMElementCache.m_offsets c)).
Proof.
  intros Hpos Hend Hlen Hfile. unfold OSMElementCache.Write, ASSERT_LESS.
  rewrite (proj2 (Z.ltb_lt _ _) Hlen).
  cbn [mbind run_mbind run_bind mret run_mret app].
  eexists. split; [reflexivity|].
  cbn [OSMElementCache.m_storage OSMElementCache.m_offsets].
  rewrite Z.mod_small by lia. rewrite Nat2Z.id, firstn_all.
  destruct (fw_Write_append (le_bytes 4 (Z.of_nat (length (value_Write v))))
              (OSMElementCache.m_storage c) Hpos) as [Hd1 Hp1].
  destruct (fw_Write_append (value_Write v) _ Hp1) as [Hd2 Hp2].
  rewrite Hd2, Hd1, <- app_assoc.
  split; [done|]. split; [by rewrite Hp2, Hd2, Hd1, <- app_assoc|]. split; [done|].
  destruct (Add_keeps id (fw_Pos (OSMElementCache.m_storage c))
              (OSMElementCache.m_offsets c) Hend) as [Hw He].
  rewrite Hw, Add_name. unfold fw_Pos, wrap64. rewrite Hpos.
  rewrite Z.mod_small by lia. done.
Qed.

Lemma write_all_spec (ws : list (Z * V)) (c : OSMElementCache.t FileWriter) :
  fw_pos (OSMElementCache.m_storage c) = length (fw_data (OSMElementCache.m_storage c)) ->
  at_end (OSMElementCache.m_offsets c) ->
  Forall (fun w => Z.of_nat (length (value_Write w.2)) < 2 ^ 32 - 1) ws ->
  Z.of_nat (length (fw_data (OSMElementCache.m_storage c)) + length (payload_file ws))
    < 2 ^ 64 ->
  exists c',
    OSMElementCache.write_all ws c = Ok c' [] /\
    fw_data (OSMElementCache.m_storage c')
      = fw_data (OSMElementCache.m_storage c) ++ payload_file ws /\
    fw_name (OSMElementCache.m_storage c') = fw_name (OSMElementCache.m_storage c) /\
    written_and_pending (OSMElementCache.m_offsets c')
      = written_and_pending (OSMElementCache.m_offsets c)
        ++ IndexFile.elements_bytes
             (offset_entries (length (fw_data (OSMElementCache.m_storage c))) ws) /\
    at_end (OSMElementCache.m_offsets c') /\
    fw_name (IndexFile.m_file (OSMElementCache.m_offsets c'))
      = fw_name (IndexFile.m_file (OSMElementCache.m_offsets c)).
Proof.
  revert c. induction ws as [|[id v] ws IH]; intros c Hpos Hend Hsmall Hfit.
  - exists c. cbn. by rewrite !app_nil_r.
  - apply Forall_cons in Hsmall as [Hv Hsmall]. cbn [snd] in Hv.
    rewrite payload_file_cons, length_app in Hfit. cbn [snd] in Hfit.
    destruct (Write_spec id v c Hpos Hend Hv ltac:(lia))
      as (c1 & Hw & Hd & Hp & Hn & Hwp & He & Hon).
    destruct (IH c1 Hp He Hsmall) as (c' & Hw' & Hd' & Hn' & Hwp' & He' & Hon').
    { rewrite Hd, length_app. lia. }
    exists c'. cbn [OSMElementCache.write_all]. rewrite Hw.
    cbn [mbind run_mbind run_bind]. rewrite Hw'. cbn [app].
    split; [done|]. rewrite Hd', Hd, Hn', Hn, Hon', Hon, Hwp', Hwp.
    rewrite payload_file_cons, <- !app_assoc. cbn [snd offset_entries].
    rewrite Hd, length_app. split; [done|]. split; [done|]. split; [|done].
    done.
Qed.
End cache_writes.

(** ** The element cache: reading back *)

Lemma slice_middle {A} (l1 l2 l3 : list A) :
  take (length l2) (drop (length l1) (l1 ++ l2 ++ l3)) = l2.
Proof. by rewrite drop_app_length, take_app_length. Qed.

Lemma values_of_app (k : Z) (l1 l2 : list IndexFile.TElement) :
  IndexFile.values_of k (l1 ++ l2) = IndexFile.values_of k l1 ++ IndexFile.values_of k l2.
Proof. unfold IndexFile.values_of. by rewrite filter_app, fmap_app. Qed.

Lemma values_of_cons_eq (k v : Z) (l : list IndexFile.TElement) :
  IndexFile.values_of k ((k, v) :: l) = v :: IndexFile.values_of k l.
Proof. unfold IndexFile.values_of. by rewrite filter_cons_True. Qed.

Lemma values_of_cons_ne (k k' v : Z) (l : list IndexFile.TElement) :
  k' <> k -> IndexFile.values_of k ((k', v) :: l) = IndexFile.values_of k l.
Proof. intros. unfold IndexFile.values_of. by rewrite filter_cons_False. Qed.

Section cache_reads.
Context {V : Type} `{Payload V}.

Lemma offset_entries_u64 (pos : nat) (ws : list (Z * V)) :
  Forall (fun w => is_u64 w.1) ws ->
  Z.of_nat (pos + length (payload_file ws)) < 2 ^ 64 ->
  Forall u64_element (offset_entries pos ws).
Proof.
  revert pos. induction ws as [|[id v] ws IH]; intros pos Hid Hfit; [constructor|].
  apply Forall_cons in Hid as [Hi Hid].
  rewrite payload_file_cons, length_app in Hfit. cbn [snd fst] in *.
  cbn [offset_entries]. constructor.
  - split; [done|]. unfold is_u64. cbn [snd]. lia.
  - apply IH; [done|lia].
Qed.

Lemma values_of_offset_entries_none (id : Z) (pos : nat) (ws : list (Z * V)) :
  id ∉ ws.*1 -> IndexFile.values_of id (offset_entries pos ws) = [].
Proof.
  revert pos. induction ws as [|[id' v] ws IH]; intros pos Hn; [done|].
  cbn [fmap list_fmap fst] in Hn. apply not_elem_of_cons in Hn as [Hne Hn].
  cbn [offset_entries]. rewrite values_of_cons_ne by congruence.
  by apply IH.
Qed.

Lemma values_of_offset_entries_ge (id : Z) (pos : nat) (ws : list (Z * V)) :
  Forall (Z.le (Z.of_nat pos)) (IndexFile.values_of id (offset_entries pos ws)).
Proof.
  revert pos. induction ws as [|[id' v] ws IH]; intros pos; [constructor|].
  cbn [offset_entries].
  assert (Hrest : Forall (Z.le (Z.of_nat pos))
            (IndexFile.values_of id (offset_entries (pos + length (record_bytes v)) ws))).
  { eapply Forall_impl; [apply IH|]. intros z Hz. cbn beta in Hz. lia. }
  destruct (decide (id' = id)) as [->|Hne].
  - rewrite values_of_cons_eq. constructor; [lia|exact Hrest].
  - rewrite values_of_cons_ne by done. exact Hrest.
Qed.

(** The index answers with the position of the first record written under
    the id. *)
Lemma offset_of_first_write (file : FileReader) (size : Z) (id : Z) (a : V)
    (pre post : list (Z * V)) :
  id ∉ pre.*1 ->
  IndexFile.GetValueByKey
    (IndexFile.mk (IndexFile.std_sort (offset_entries 0 (pre ++ (id, a) :: post)))
       file size) id
  = Some (Z.of_nat (length (payload_file pre))).
Proof.
  intros Hpre.
  pose proof (GetValueByKey_min (offset_entries 0 (pre ++ (id, a) :: post))
                file size id) as Hmin.
  destruct (IndexFile.GetValueByKey _ id) as [v|].
  - destruct Hmin as [Hin Hall].
    rewrite offset_entries_app, values_of_app in Hin, Hall.
    rewrite values_of_offset_entries_none in Hin, Hall by done.
    cbn [offset_entries app] in Hin, Hall.
    rewrite values_of_cons_eq in Hin, Hall.
    pose proof (values_of_offset_entries_ge id
                  (0 + length (payload_file pre) + length (record_bytes a)) post) as Hge.
    pose proof (length_record_bytes a) as Hrec.
    apply Forall_cons in Hall as [Hle _].
    apply elem_of_cons in Hin as [->|Hin]; [f_equal; lia|].
    rewrite Forall_forall in Hge. specialize (Hge _ Hin). lia.
  - rewrite offset_entries_app, values_of_app in Hmin.
    cbn [offset_entries] in Hmin. rewrite values_of_cons_eq in Hmin.
    by destruct (IndexFile.values_of id (offset_entries 0 pre)).
Qed.

Lemma offset_of_unknown_id (file : FileReader) (size : Z) (id : Z)
    (ws : list (Z * V)) :
  id ∉ ws.*1 ->
  IndexFile.GetValueByKey
    (IndexFile.mk (IndexFile.std_sort (offset_entries 0 ws)) file size) id = None.
Proof.
  intros Hn.
  pose proof (GetValueByKey_min (offset_entries 0 ws) file size id) as Hmin.
  rewrite values_of_offset_entries_none in Hmin by done.
  destruct (IndexFile.GetValueByKey _ id) as [v|]; [|done].
  destruct Hmin as [Hin _]. by apply elem_of_nil in Hin.
Qed.

Lemma first_write_split (id : Z) (ws : list (Z * V)) :
  id ∈ ws.*1 ->
  exists pre a post, ws = pre ++ (id, a) :: post /\ id ∉ pre.*1.
Proof.
  induction ws as [|[id' v] ws IH]; intros Hin.
  - by apply elem_of_nil in Hin.
  - destruct (decide (id' = id)) as [->|Hne].
    + exists [], v, ws. split; [done|]. apply not_elem_of_nil.
    + cbn [fmap list_fmap fst] in Hin. apply elem_of_cons in Hin as [Heq|Hin]; [congruence|].
      destruct (IH Hin) as (pre & a & post & -> & Hpre).
      exists ((id', v) :: pre), a, post. split; [done|].
      cbn [fmap list_fmap fst]. apply not_elem_of_cons. split; [congruence|done].
Qed.

(** The life of a cache ends with the reader written out above. *)
Lemma reopened (name : string) (ws : list (Z * V)) (preload : bool) :
  writable ws ->
  exists log,
    written_then_reopened name ws preload = Ok (reader_after name ws preload) log.
Proof.
  intros (Hid & Hsmall & Hfit & Hidx). unfold written_then_reopened.
  destruct (write_all_spec ws (OSMElementCache.create name false))
    as (c & Hw & Hd & Hn & Hwp & He & Hon); [done..|].
  rewrite Hw. cbn [mbind run_mbind run_bind].
  destruct (WriteAll_flushes _ He) as (Hflush & _ & _).
  assert (Hfiles :
    OSMElementCache.close (OSMElementCache.SaveOffsets c)
    = ({| f_name := name; f_bytes := payload_file ws |},
       {| f_name := String.append name OSMElementCache.OFFSET_EXT;
          f_bytes := IndexFile.elements_bytes (offset_entries 0 ws) |})).
  { unfold OSMElementCache.close, OSMElementCache.SaveOffsets, IndexFile.close, fw_close.
    cbn [OSMElementCache.m_storage OSMElementCache.m_offsets].
    rewrite Hflush, WriteAll_name, Hd, Hn, Hwp, Hon. done. }
  rewrite Hfiles.
  destruct (ReadAll_of_elements (String.append name OSMElementCache.OFFSET_EXT)
              (offset_entries 0 ws)) as [log Hr].
  { apply offset_entries_u64; [done|]. cbn. lia. }
  { by rewrite length_offset_entries. }
  rewrite length_offset_entries in Hr.
  unfold OSMElementCache.open, OSMElementCache.InitStorage_Read.
  cbn [fst snd OSMElementCache.m_preload OSMElementCache.m_storage
       OSMElementCache.m_offsets OSMElementCache.m_name OSMElementCache.m_data f_name].
  destruct preload; cbn [negb].
  - rewrite fr_Read_whole. cbn [mbind run_mbind run_bind mret run_mret app].
    unfold OSMElementCache.LoadOffsets. cbn [OSMElementCache.m_offsets].
    rewrite Hr. cbn [mbind run_mbind run_bind mret run_mret app].
    eexists. reflexivity.
  - cbn [mbind run_mbind run_bind mret run_mret app].
    unfold OSMElementCache.LoadOffsets. cbn [OSMElementCache.m_offsets].
    rewrite Hr. cbn [mbind run_mbind run_bind mret run_mret app].
    eexists. reflexivity.
Qed.
End cache_reads.

Section cache_read_results.
Context {V : Type} `{Payload V}.

(** Where the first record of an id sits in the payload file. *)
Lemma record_in_file (id : Z) (a : V) (pre post : list (Z * V)) :
  let ws := pre ++ (id, a) :: post in
  let P := length (payload_file pre) in
  let n := length (value_Write a) in
  writable ws ->
  Z.of_nat P + 4 + Z.of_nat n <= Z.of_nat (length (payload_file ws)) /\
  Z.of_nat n < 2 ^ 32 - 1 /\
  Z.of_nat (length (payload_file ws)) < 2 ^ 64 /\
  take 4 (drop P (payload_file ws)) = le_bytes 4 (Z.of_nat n) /\
  take n (drop (P + 4) (payload_file ws)) = value_Write a.
Proof.
  intros ws P n (Hid & Hsmall & Hfit & Hidx).
  assert (Hpf : payload_file ws
                = payload_file pre
                  ++ le_bytes 4 (Z.of_nat n) ++ value_Write a ++ payload_file post).
  { unfold ws. rewrite payload_file_app, payload_file_cons. cbn [snd].
    unfold record_bytes. by rewrite <- app_assoc. }
  assert (Hn : Z.of_nat n < 2 ^ 32 - 1).
  { unfold ws in Hsmall. apply Forall_app in Hsmall as [_ Hsmall].
    by apply Forall_cons in Hsmall as [Hsmall _]. }
  split.
  { rewrite Hpf, !length_app, length_le_bytes. fold P n. lia. }
  split; [done|]. split; [done|]. rewrite Hpf. split.
  - pose proof (slice_middle (payload_file pre) (le_bytes 4 (Z.of_nat n))
                  (value_Write a ++ payload_file post)) as Hs.
    by rewrite length_le_bytes in Hs.
  - pose proof (slice_middle (payload_file pre ++ le_bytes 4 (Z.of_nat n))
                  (value_Write a) (payload_file post)) as Hs.
    rewrite length_app, length_le_bytes, <- app_assoc in Hs. exact Hs.
Qed.

(** Without preload, a read of an id that was written fetches the first
    record written under it, whatever the scratch buffer held before. *)
Lemma Read_hit_disk (name : string) (id : Z) (a : V) (pre post : list (Z * V))
    (buf : list byte) :
  let ws := pre ++ (id, a) :: post in
  writable ws -> id ∉ pre.*1 ->
  OSMElementCache.Read id (with_buffer buf (reader_after name ws false))
  = Ok (with_buffer (value_Write a) (reader_after name ws false),
        Some (value_Read (value_Write a))) [].
Proof.
  intros ws Hw Hpre.
  destruct (record_in_file id a pre post Hw) as (Hin & Hn & Hfit & Hsz & Hbody).
  fold ws in Hin, Hfit, Hsz, Hbody.
  unfold OSMElementCache.Read, with_buffer, reader_after.
  cbn [OSMElementCache.m_offsets OSMElementCache.m_preload OSMElementCache.m_storage
       OSMElementCache.m_data OSMElementCache.m_name].
  unfold ws at 1. rewrite offset_of_first_write by done.
  set (P := length (payload_file pre)) in *.
  set (n := length (value_Write a)) in *.
  rewrite fr_Read_inside; [|lia|lia|unfold fr_Size; cbn [fr_open fr_data f_bytes]; lia].
  cbn [mbind run_mbind run_bind mret run_mret app fr_open fr_data f_bytes].
  rewrite Nat2Z.id. change (Z.to_nat 4) with 4%nat. rewrite Hsz.
  rewrite le_value_le_bytes_small by (change (256 ^ Z.of_nat 4) with (2 ^ 32); lia).
  unfold wrap64. rewrite Z.mod_small by lia.
  rewrite fr_Read_inside; [|lia|lia|unfold fr_Size; cbn [fr_open fr_data f_bytes]; lia].
  cbn [mbind run_mbind run_bind mret run_mret app fr_open fr_data f_bytes].
  replace (Z.to_nat (Z.of_nat P + 4)) with (P + 4)%nat by lia.
  rewrite Nat2Z.id, Hbody. done.
Qed.

(** With preload, the same record is taken from the copy of the file in
    memory, which the read leaves as it was. *)
Lemma Read_hit_memory (name : string) (id : Z) (a : V) (pre post : list (Z * V)) :
  let ws := pre ++ (id, a) :: post in
  writable ws -> id ∉ pre.*1 ->
  OSMElementCache.Read id (reader_after name ws true)
  = Ok (reader_after name ws true, Some (value_Read (value_Write a))) [].
Proof.
  intros ws Hw Hpre.
  destruct (record_in_file id a pre post Hw) as (Hin & Hn & Hfit & Hsz & Hbody).
  fold ws in Hin, Hfit, Hsz, Hbody.
  unfold OSMElementCache.Read, reader_after.
  cbn [OSMElementCache.m_offsets OSMElementCache.m_preload OSMElementCache.m_storage
       OSMElementCache.m_data OSMElementCache.m_name].
  unfold ws at 1. rewrite offset_of_first_write by done.
  set (P := length (payload_file pre)) in *.
  set (n := length (value_Write a)) in *.
  unfold mem_read.
  assert (Hb1 : (0 <=? Z.of_nat P) && (0 <=? 4)
                && (Z.of_nat P + 4 <=? Z.of_nat (length (payload_file ws))) = true).
  { rewrite !andb_true_iff, !Z.leb_le. lia. }
  rewrite Hb1. cbn [mbind run_mbind run_bind mret run_mret app].
  rewrite Nat2Z.id. change (Z.to_nat 4) with 4%nat. rewrite Hsz.
  rewrite le_value_le_bytes_small by (change (256 ^ Z.of_nat 4) with (2 ^ 32); lia).
  unfold wrap64. rewrite Z.mod_small by lia.
  assert (Hb2 : (0 <=? Z.of_nat P + 4) && (0 <=? Z.of_nat n)
                && (Z.of_nat P + 4 + Z.of_nat n
                    <=? Z.of_nat (length (payload_file ws))) = true).
  { rewrite !andb_true_iff, !Z.leb_le. lia. }
  rewrite Hb2. cbn [mbind run_mbind run_bind mret run_mret app].
  replace (Z.to_nat (Z.of_nat P + 4)) with (P + 4)%nat by lia.
  rewrite Nat2Z.id, Hbody. done.
Qed.

(** A read of an id that was never written finds no offset: it logs a
    warning and leaves the reader as it was. *)
Lemma Read_miss (name : string) (id : Z) (ws : list (Z * V)) (preload : bool)
    (buf : list byte) :
  id ∉ ws.*1 ->
  OSMElementCache.Read (V := V) id (with_buffer buf (reader_after name ws preload))
  = Ok (with_buffer buf (reader_after name ws preload), None)
       [(LWARNING, [Txt "Can't find offset in file";
                    Txt (String.append name OSMElementCache.OFFSET_EXT);
                    Txt "by id"; Num id])].
Proof.
  intros Hn. unfold OSMElementCache.Read, with_buffer, reader_after.
  cbn [OSMElementCache.m_offsets].
  rewrite offset_of_unknown_id by done. done.
Qed.
End cache_read_results.

(** ** The element cache: round trip, duplicate ids, preload *)

Ltac solve_writable :=
  cbv zeta; cbn [app]; unfold writable;
  repeat match goal with
         | |- _ /\ _ => split
         | |- Forall _ [] => constructor
         | |- Forall _ (_ :: _) => apply Forall_cons_2
         end;
  unfold is_u64; cbn; lia.

(** C2. After a pass of [Write(id_i, payload_i)] with pairwise distinct ids,
    [SaveOffsets], a reopen of the same files in read mode without preload
    and [LoadOffsets], every [Read(id_i)] succeeds and hands the decoder
    exactly the bytes the encoder of [payload_i] produced. *)
Theorem payload_round_trip {V : Type} `{Payload V} (name : string)
    (ws : list (Z * V)) :
  writable ws ->
  NoDup ws.*1 ->
  exists r log,
    written_then_reopened name ws false = Ok r log /\
    forall id v, (id, v) ∈ ws ->
      exists r',
        OSMElementCache.Read id r = Ok (r', Some (value_Read (value_Write v))) [] /\
        OSMElementCache.m_data r' = value_Write v.
Proof.
  intros Hw Hnd. destruct (reopened name ws false Hw) as [log Hr].
  exists (reader_after name ws false), log. split; [exact Hr|].
  intros id v Hin.
  apply list_elem_of_split in Hin as (pre & post & ->).
  assert (Hpre : id ∉ pre.*1).
  { rewrite fmap_app in Hnd. apply NoDup_app in Hnd as (_ & Hd & _).
    intros Hi. apply (Hd _ Hi). cbn [fmap list_fmap fst]. apply list_elem_of_here. }
  eexists. split.
  - apply (Read_hit_disk name id v pre post [] Hw Hpre).
  - done.
Qed.

Lemma payload_round_trip_witness :
  exists r log,
    written_then_reopened "nodes"
      [(1, list_byte_of_string "alpha"); (1000000, list_byte_of_string "beta");
       (42, list_byte_of_string "gamma delta")] false
    = Ok r log /\
    exists r',
      OSMElementCache.Read 42 r = Ok (r', Some (list_byte_of_string "gamma delta")) [].
Proof.
  destruct (payload_round_trip "nodes"
              [(1, list_byte_of_string "alpha"); (1000000, list_byte_of_string "beta");
               (42, list_byte_of_string "gamma delta")])
    as (r & log & Hr & Hread).
  - solve_writable.
  - cbn. compute_done.
  - exists r, log. split; [exact Hr|].
    destruct (Hread 42 (list_byte_of_string "gamma delta")) as (r' & Hr' & _).
    + do 2 apply list_elem_of_further. apply list_elem_of_here.
    + exists r'. exact Hr'.
Defined.

(** C3. When [Write(id, A)] is the first write under [id] and [Write(id, B)]
    comes later in the same pass, then after the flush and the reopen
    [Read(id)] succeeds with [A]: the index answers with the smallest
    offset recorded for [id], the one of [A], which lies before the one
    of [B]. *)
Theorem first_write_wins {V : Type} `{Payload V} (name : string) (id : Z) (A B : V)
    (pre mid post : list (Z * V)) (preload : bool) :
  let ws := pre ++ (id, A) :: mid ++ (id, B) :: post in
  writable ws ->
  id ∉ pre.*1 ->
  exists r log,
    written_then_reopened name ws preload = Ok r log /\
    IndexFile.GetValueByKey (OSMElementCache.m_offsets r) id
      = Some (Z.of_nat (length (payload_file pre))) /\
    (id, Z.of_nat (length (payload_file (pre ++ (id, A) :: mid))))
      ∈ offset_entries 0 ws /\
    (length (payload_file pre) < length (payload_file (pre ++ (id, A) :: mid)))%nat /\
    exists r',
      OSMElementCache.Read id r = Ok (r', Some (value_Read (value_Write A))) [].
Proof.
  intros ws Hw Hpre. destruct (reopened name ws preload Hw) as [log Hr].
  exists (reader_after name ws preload), log. split; [exact Hr|].
  split; [|split; [|split]].
  - unfold reader_after. cbn [OSMElementCache.m_offsets].
    unfold ws. by apply offset_of_first_write.
  - unfold ws.
    change (pre ++ (id, A) :: mid ++ (id, B) :: post)
      with (pre ++ ((id, A) :: mid) ++ (id, B) :: post).
    rewrite (app_assoc pre ((id, A) :: mid)).
    rewrite offset_entries_app. apply elem_of_app. right.
    cbn [offset_entries Nat.add]. apply list_elem_of_here.
  - rewrite payload_file_app, payload_file_cons, !length_app, length_record_bytes.
    lia.
  - destruct preload.
    + eexists. apply (Read_hit_memory name id A pre (mid ++ (id, B) :: post) Hw Hpre).
    + eexists. apply (Read_hit_disk name id A pre (mid ++ (id, B) :: post) [] Hw Hpre).
Qed.

Lemma first_write_wins_witness :
  exists r log,
    written_then_reopened "nodes"
      [(7, list_byte_of_string "first"); (9, list_byte_of_string "other");
       (7, list_byte_of_string "second")] false
    = Ok r log /\
    exists r',
      OSMElementCache.Read 7 r = Ok (r', Some (list_byte_of_string "first")) [].
Proof.
  destruct (first_write_wins "nodes" 7 (list_byte_of_string "first")
              (list_byte_of_string "second") []
              [(9, list_byte_of_string "other")] [] false)
    as (r & log & Hr & _ & _ & _ & Hread).
  - solve_writable.
  - cbn. compute_done.
  - exists r, log. split; [exact Hr|exact Hread].
Defined.

(** C4. For every written cache and every queried id, [Read] on a reader with
    preload and [Read] on a reader without it, over the same files, end
    the same way: the same success flag, the same bytes given to the
    decoder, the same log; the preloaded reader is left as it was and the
    other one changes only its scratch buffer, whose earlier contents do
    not matter. *)
Theorem preload_equivalence {V : Type} `{Payload V} (name : string)
    (ws : list (Z * V)) (id : Z) (buf : list byte) :
  writable ws ->
  exists rp rn logp logn,
    written_then_reopened name ws true = Ok rp logp /\
    written_then_reopened name ws false = Ok rn logn /\
    OSMElementCache.m_data rp = payload_file ws /\
    exists res log buf',
      OSMElementCache.Read id rp = Ok (rp, res) log /\
      OSMElementCache.Read id (with_buffer buf rn) = Ok (with_buffer buf' rn, res) log.
Proof.
  intros Hw.
  destruct (reopened name ws true Hw) as [logp Hrp].
  destruct (reopened name ws false Hw) as [logn Hrn].
  exists (reader_after name ws true), (reader_after name ws false), logp, logn.
  split; [exact Hrp|]. split; [exact Hrn|]. split; [done|].
  destruct (decide (id ∈ ws.*1)) as [Hin|Hnin].
  - destruct (first_write_split id ws Hin) as (pre & a & post & -> & Hpre).
    exists (Some (value_Read (value_Write a))), [], (value_Write a). split.
    + by apply Read_hit_memory.
    + by apply Read_hit_disk.
  - eexists None, _, buf. split.
    + apply (Read_miss name id ws true (payload_file ws) Hnin).
    + apply (Read_miss name id ws false buf Hnin).
Qed.

Lemma preload_equivalence_witness :
  exists rp rn logp logn,
    written_then_reopened "nodes"
      [(1, list_byte_of_string "alpha"); (1000000, list_byte_of_string "beta");
       (42, list_byte_of_string "gamma delta")] true = Ok rp logp /\
    written_then_reopened "nodes"
      [(1, list_byte_of_string "alpha"); (1000000, list_byte_of_string "beta");
       (42, list_byte_of_string "gamma delta")] false = Ok rn logn /\
    exists res log buf',
      OSMElementCache.Read 1000000 rp = Ok (rp, res) log /\
      OSMElementCache.Read 1000000 (with_buffer [] rn) = Ok (with_buffer buf' rn, res) log.
Proof.
  destruct (preload_equivalence "nodes"
              [(1, list_byte_of_string "alpha"); (1000000, list_byte_of_string "beta");
               (42, list_byte_of_string "gamma delta")] 1000000 [])
    as (rp & rn & logp & logn & Hp & Hn & _ & Hread).
  - solve_writable.
  - exists rp, rn, logp, logn. split; [exact Hp|]. split; [exact Hn|exact Hread].
Defined.

(** ** Converting between [int32_t] and [double] *)

Lemma digits2_pos_iter (k m : positive) :
  digits2_pos (Pos.iter xO m k) = (digits2_pos m + k)%positive.
Proof.
  induction k as [|k IH] using Pos.peano_ind.
  - cbn. by rewrite Pos.add_1_r.
  - rewrite Pos.iter_succ. cbn [digits2_pos]. rewrite IH. lia.
Qed.

Lemma digits2_pos_lower (m : positive) :
  2 ^ (Z.pos (digits2_pos m) - 1) <= Z.pos m.
Proof.
  induction m as [m IH|m IH|]; cbn [digits2_pos].
  - rewrite Pos2Z.inj_succ. replace (Z.succ (Z.pos (digits2_pos m)) - 1)
      with (Z.succ (Z.pos (digits2_pos m) - 1)) by lia.
    rewrite Z.pow_succ_r by lia. lia.
  - rewrite Pos2Z.inj_succ. replace (Z.succ (Z.pos (digits2_pos m)) - 1)
      with (Z.succ (Z.pos (digits2_pos m) - 1)) by lia.
    rewrite Z.pow_succ_r by lia. lia.
  - done.
Qed.

(** A positive integer of at most 53 bits is a [double], exactly: rounding
    only shifts it into place. *)
Lemma binary_normalize_exact (m : positive) :
  Z.pos (digits2_pos m) <= 53 ->
  exists mz ez, binary_normalize prec emax (Z.pos m) 0 false = S754_finite false mz ez.
Proof.
  intros Hd. cbn [binary_normalize]. unfold binary_round.
  assert (Hfexp : forall d : positive, Z.pos d <= 53 ->
                    fexp prec emax (Z.pos d) = Z.pos d - 53).
  { intros d Hle. unfold fexp, emin, prec, emax. lia. }
  assert (Haux : forall (mz : positive) (ez : Z),
            Z.pos (digits2_pos mz) + ez <= 53 -> 0 < Z.pos (digits2_pos mz) + ez ->
            ez = Z.pos (digits2_pos mz) + ez - 53 ->
            binary_round_aux prec emax false (Z.pos mz) ez loc_Exact
            = S754_finite false mz ez).
  { intros mz ez Hle Hpos Hez. unfold binary_round_aux, shr_fexp.
    cbn [Zdigits2 shr_record_of_loc].
    assert (Hf : fexp prec emax (Z.pos (digits2_pos mz) + ez) - ez = 0).
    { unfold fexp, emin, prec, emax. lia. }
    rewrite Hf. cbn [shr shr_m loc_of_shr_record round_nearest_even Zdigits2
                     shr_record_of_loc].
    rewrite Hf. cbn [shr shr_m].
    assert (Hemax : (ez <=? emax - prec) = true)
      by (apply Z.leb_le; unfold emax, prec; lia).
    by rewrite Hemax. }
  unfold shl_align. rewrite Z.add_0_r, Hfexp by done.
  destruct (Z.pos (digits2_pos m) - 53 - 0) as [|p|p] eqn:E; [|lia|].
  - exists m, 0. apply Haux; lia.
  - eexists _, _. apply Haux; rewrite digits2_pos_iter; lia.
Qed.

Lemma double_of_positive_nonzero (z : Z) :
  0 < z < 2 ^ 31 ->
  exists mz ez,
    Prim2SF (PrimFloat.of_uint63 (Uint63.of_Z z)) = S754_finite false mz ez.
Proof.
  intros Hz. rewrite of_uint63_spec, Uint63.of_Z_spec.
  assert (HwB : Uint63.wB = 2 ^ 63) by (by vm_compute).
  rewrite Z.mod_small by lia.
  destruct z as [|m|m]; [lia| |lia].
  apply binary_normalize_exact.
  pose proof (digits2_pos_lower m) as Hl.
  assert (Hlt : 2 ^ (Z.pos (digits2_pos m) - 1) < 2 ^ 31) by lia.
  apply Z.pow_lt_mono_r_iff in Hlt; lia.
Qed.

(** [x != 0.0], computed in [double], tells whether the [int32_t] [x] is
    not zero. *)
Lemma ne_zero_int32 (x : Z) :
  fits_int32 x = true -> ne_zero x = negb (x =? 0).
Proof.
  unfold fits_int32. rewrite andb_true_iff, Z.leb_le, Z.ltb_lt. intros [Hlo Hhi].
  unfold ne_zero, double_of_int32. rewrite FloatAxioms.eqb_spec.
  destruct (Z.ltb_spec x 0) as [Hneg|Hnn].
  - rewrite opp_spec.
    destruct (decide (x = - 2 ^ 31)) as [->|Hne]; [by vm_compute|].
    destruct (double_of_positive_nonzero (- x)) as (mz & ez & ->); [lia|].
    destruct (Z.eqb_spec x 0); [lia|]. done.
  - destruct (Z.eqb_spec x 0) as [->|Hne]; [by vm_compute|].
    destruct (double_of_positive_nonzero x) as (mz & ez & ->); [lia|]. done.
Qed.

(** ** Point storages: the fixed-point encoding and its overflow check *)

Lemma double_to_int64_cases (x : float) :
  exists v, double_to_int64 x = Ok v [] /\ - 2 ^ 63 <= v < 2 ^ 63.
Proof.
  unfold double_to_int64, INT64_MIN.
  destruct (Prim2SF x) as [s|s| |s m e].
  - exists 0. split; [done|lia].
  - eexists. split; [done|lia].
  - eexists. split; [done|lia].
  - destruct (_ && _) eqn:E.
    + eexists. split; [done|].
      apply andb_true_iff in E as [E1 E2]. apply Z.leb_le in E1. apply Z.ltb_lt in E2. lia.
    + eexists. split; [done|lia].
Qed.

Lemma double_to_int64_value (x : float) :
  double_to_int64 (x * kValueOrder)%float = Ok (scaled x) [].
Proof.
  unfold scaled.
  by destruct (double_to_int64_cases (x * kValueOrder)%float) as (v & -> & _).
Qed.

(** The check made on the converted value decides whether the integer
    part of the product fits: a product without an [int64_t] integer part
    is converted to [INT64_MIN], which does not fit either. *)
Lemma fits_int32_scaled (x : float) :
  fits_int32 (scaled x) = trunc_fits_int32 (x * kValueOrder)%float.
Proof.
  unfold scaled, trunc_fits_int32, trunc, double_to_int64, INT64_MIN.
  destruct (Prim2SF (x * kValueOrder)%float) as [s|s| |s m e]; try done.
  cbv zeta.
  destruct (_ && _) eqn:E; [done|].
  cbn [mret run_mret]. apply andb_false_iff in E.
  unfold fits_int32 at 2. symmetry. apply andb_false_iff.
  rewrite Z.leb_gt, Z.ltb_ge in *. lia.
Qed.

Lemma trunc_scaled (x : float) :
  trunc_fits_int32 (x * kValueOrder)%float = true ->
  trunc (x * kValueOrder)%float = Some (scaled x).
Proof.
  unfold scaled, trunc_fits_int32, trunc, double_to_int64.
  destruct (Prim2SF (x * kValueOrder)%float) as [s|s| |s m e]; try done.
  cbv zeta. intros Hfit.
  destruct (_ && _) eqn:E; [done|]. exfalso.
  apply andb_false_iff in E. unfold fits_int32 in Hfit.
  apply andb_true_iff in Hfit as [H1 H2]. apply Z.leb_le in H1. apply Z.ltb_lt in H2.
  rewrite Z.leb_gt, Z.ltb_ge in E. lia.
Qed.

(** The two checks of [AddPoint], once both conversions have a value. *)
Lemma overflow_checks {A} (a b : Z) (k : run A) :
  (CHECK_EQUAL (to_int32 a) a [Txt "Latitude is out of 32bit boundary!"];;
   CHECK_EQUAL (to_int32 b) b [Txt "Longtitude is out of 32bit boundary!"];;
   k)
  = if fits_int32 a
    then if fits_int32 b then k
         else Fatal [Txt "Longtitude is out of 32bit boundary!"] []
    else Fatal [Txt "Latitude is out of 32bit boundary!"] [].
Proof.
  unfold CHECK_EQUAL. rewrite !to_int32_eqb.
  destruct (fits_int32 a); [|done]. destruct (fits_int32 b); [|done].
  cbn [mbind run_mbind run_bind app]. by destruct k.
Qed.

Lemma fw_Write_at (bs : list byte) (p : Z) (w : FileWriter) :
  take (length bs) (drop (Z.to_nat p) (fw_data (fw_Write bs (fw_Seek p w)))) = bs.
Proof.
  unfold fw_Write, fw_Seek. cbn [fw_data fw_pos].
  set (n := Z.to_nat p). set (d := fw_data w).
  rewrite app_assoc.
  rewrite drop_app_length'.
  2:{ rewrite length_app, length_take, length_replicate. lia. }
  by rewrite take_app_length.
Qed.

Lemma RawFile_AddPoint_spec (id : Z) (lat lng : float) (a b : Z)
    (st : RawFilePointStorage.t FileWriter) :
  double_to_int64 (lat * kValueOrder)%float = Ok a [] ->
  double_to_int64 (lng * kValueOrder)%float = Ok b [] ->
  RawFilePointStorage.AddPoint id lat lng st
  = if fits_int32 a
    then if fits_int32 b
         then Ok (RawFilePointStorage.mk
                    (fw_Write (LatLon_bytes (mkLatLon a b))
                       (fw_Seek (wrap64 (id * sizeof_LatLon))
                          (RawFilePointStorage.m_file st)))
                    (IncProcessedPoint (RawFilePointStorage.m_processedPoint st))) []
         else Fatal [Txt "Longtitude is out of 32bit boundary!"] []
    else Fatal [Txt "Latitude is out of 32bit boundary!"] [].
Proof.
  intros Ha Hb. unfold RawFilePointStorage.AddPoint. rewrite Ha, Hb.
  cbn [mbind run_mbind run_bind app PointStorage.lat PointStorage.lon].
  rewrite overflow_checks.
  destruct (fits_int32 a) eqn:Ea; [|done]. destruct (fits_int32 b) eqn:Eb; [|done].
  by rewrite !to_int32_fits.
Qed.

Lemma RawMem_AddPoint_spec (id : Z) (lat lng : float) (a b : Z)
    (st : RawMemPointStorage.t FileWriter) :
  double_to_int64 (lat * kValueOrder)%float = Ok a [] ->
  double_to_int64 (lng * kValueOrder)%float = Ok b [] ->
  0 <= id < RawMemPointStorage.kDataSize ->
  RawMemPointStorage.AddPoint id lat lng st
  = if fits_int32 a
    then if fits_int32 b
         then Ok (RawMemPointStorage.mk (RawMemPointStorage.m_file st)
                    (<[id := mkLatLon a b]> (RawMemPointStorage.m_data st))
                    (IncProcessedPoint (RawMemPointStorage.m_processedPoint st))) []
         else Fatal [Txt "Longtitude is out of 32bit boundary!"] []
    else Fatal [Txt "Latitude is out of 32bit boundary!"] [].
Proof.
  intros Ha Hb Hid. unfold RawMemPointStorage.AddPoint, RawMemPointStorage.at_index.
  rewrite Ha, Hb.
  rewrite (proj2 (Z.leb_le _ _) (proj1 Hid)), (proj2 (Z.ltb_lt _ _) (proj2 Hid)).
  cbn [mbind run_mbind run_bind mret run_mret app andb
       PointStorage.lat PointStorage.lon].
  rewrite overflow_checks.
  destruct (fits_int32 a) eqn:Ea; [|done]. destruct (fits_int32 b) eqn:Eb; [|done].
  by rewrite !to_int32_fits.
Qed.

Lemma RawMem_AddPoint_outside (id : Z) (lat lng : float)
    (st : RawMemPointStorage.t FileWriter) :
  ~ (0 <= id < RawMemPointStorage.kDataSize) ->
  aborted (RawMemPointStorage.AddPoint id lat lng st) = false /\
  forall st' log, RawMemPointStorage.AddPoint id lat lng st <> Ok st' log.
Proof.
  intros Hid. unfold RawMemPointStorage.AddPoint, RawMemPointStorage.at_index.
  assert (Hb : (0 <=? id) && (id <? RawMemPointStorage.kDataSize) = false).
  { apply andb_false_iff. rewrite Z.leb_gt, Z.ltb_ge. lia. }
  rewrite Hb.
  destruct (double_to_int64_cases (lat * kValueOrder)%float) as (a & -> & _).
  destruct (double_to_int64_cases (lng * kValueOrder)%float) as (b & -> & _).
  done.
Qed.

Lemma MapFile_AddPoint_spec (id : Z) (lat lng : float) (a b : Z)
    (st : MapFilePointStorage.t FileWriter) :
  double_to_int64 (lat * kValueOrder)%float = Ok a [] ->
  double_to_int64 (lng * kValueOrder)%float = Ok b [] ->
  MapFilePointStorage.AddPoint id lat lng st
  = if fits_int32 a
    then if fits_int32 b
         then Ok (MapFilePointStorage.mk
                    (fw_Write (LatLonPos_bytes (mkLatLonPos id a b))
                       (MapFilePointStorage.m_file st))
                    (MapFilePointStorage.m_map st)
                    (IncProcessedPoint (MapFilePointStorage.m_processedPoint st))) []
         else Fatal [Txt "Longtitude is out of 32bit boundary!"] []
    else Fatal [Txt "Latitude is out of 32bit boundary!"] [].
Proof.
  intros Ha Hb. unfold MapFilePointStorage.AddPoint. rewrite Ha, Hb.
  cbn [mbind run_mbind run_bind app pos_lat pos_lon].
  rewrite overflow_checks.
  destruct (fits_int32 a) eqn:Ea; [|done]. destruct (fits_int32 b) eqn:Eb; [|done].
  by rewrite !to_int32_fits.
Qed.

Lemma both_fit_scaled (lat lng : float) :
  fits_int32 (scaled lat) && fits_int32 (scaled lng) = both_fit lat lng.
Proof. unfold both_fit. by rewrite !fits_int32_scaled. Qed.

Lemma fw_Write_here (bs : list byte) (w : FileWriter) :
  take (length bs) (drop (fw_pos w) (fw_data (fw_Write bs w))) = bs.
Proof.
  unfold fw_Write. cbn [fw_data fw_pos].
  set (n := fw_pos w). set (d := fw_data w).
  rewrite app_assoc.
  rewrite drop_app_length'.
  2:{ rewrite length_app, length_take, length_replicate. lia. }
  by rewrite take_app_length.
Qed.

(** C6 (as amended). [AddPoint(id, lat, lng)] aborts fatally exactly when
    [trunc(lat * 1e7)] or [trunc(lng * 1e7)] does not fit in [int32_t] (a
    product that is infinite or NaN has no integer part and does not fit),
    and otherwise stores the point without abort: in
    [RawFilePointStorage] and [MapFilePointStorage] under every id, in
    [RawMemPointStorage] under every id below the size of its array,
    [2^32 - 1]; under the other ids [RawMemPointStorage] aborts only when
    a coordinate does not fit.  In particular [AddPoint(0, 300.0, 0.0)]
    aborts fatally in all three. *)
Theorem AddPoint_overflow_check :
  (forall (id : Z) (lat lng : float),
     (forall st : RawFilePointStorage.t FileWriter,
        aborted (RawFilePointStorage.AddPoint id lat lng st) = negb (both_fit lat lng) /\
        (both_fit lat lng = true ->
         exists st' a b,
           trunc (lat * kValueOrder)%float = Some a /\
           trunc (lng * kValueOrder)%float = Some b /\
           RawFilePointStorage.AddPoint id lat lng st = Ok st' [] /\
           take 8 (drop (Z.to_nat (wrap64 (id * sizeof_LatLon)))
                     (fw_data (RawFilePointStorage.m_file st')))
             = LatLon_bytes (mkLatLon a b))) /\
     (forall st : RawMemPointStorage.t FileWriter,
        (aborted (RawMemPointStorage.AddPoint id lat lng st) = true ->
         both_fit lat lng = false) /\
        (0 <= id < 2 ^ 32 - 1 ->
         aborted (RawMemPointStorage.AddPoint id lat lng st) = negb (both_fit lat lng) /\
         (both_fit lat lng = true ->
          exists st' a b,
            trunc (lat * kValueOrder)%float = Some a /\
            trunc (lng * kValueOrder)%float = Some b /\
            RawMemPointStorage.AddPoint id lat lng st = Ok st' [] /\
            RawMemPointStorage.element (RawMemPointStorage.m_data st') id
              = mkLatLon a b))) /\
     (forall st : MapFilePointStorage.t FileWriter,
        aborted (MapFilePointStorage.AddPoint id lat lng st) = negb (both_fit lat lng) /\
        (both_fit lat lng = true ->
         exists st' a b,
           trunc (lat * kValueOrder)%float = Some a /\
           trunc (lng * kValueOrder)%float = Some b /\
           MapFilePointStorage.AddPoint id lat lng st = Ok st' [] /\
           take 16 (drop (fw_pos (MapFilePointStorage.m_file st))
                      (fw_data (MapFilePointStorage.m_file st')))
             = LatLonPos_bytes (mkLatLonPos id a b)))) /\
  (forall st : RawFilePointStorage.t FileWriter,
     aborted (RawFilePointStorage.AddPoint 0 300 0 st) = true) /\
  (forall st : RawMemPointStorage.t FileWriter,
     aborted (RawMemPointStorage.AddPoint 0 300 0 st) = true) /\
  (forall st : MapFilePointStorage.t FileWriter,
     aborted (MapFilePointStorage.AddPoint 0 300 0 st) = true).
Proof.
  split; [|split; [|split]].
  - intros id lat lng.
    pose proof (double_to_int64_value lat) as Ha.
    pose proof (double_to_int64_value lng) as Hb.
    pose proof (both_fit_scaled lat lng) as Hfit.
    assert (Htr : both_fit lat lng = true ->
                  trunc (lat * kValueOrder)%float = Some (scaled lat) /\
                  trunc (lng * kValueOrder)%float = Some (scaled lng)).
    { unfold both_fit. intros [H1 H2]%andb_true_iff.
      split; by apply trunc_scaled. }
    assert (Hfile : forall st : RawFilePointStorage.t FileWriter,
              aborted (RawFilePointStorage.AddPoint id lat lng st)
                = negb (both_fit lat lng) /\
              (both_fit lat lng = true ->
               exists st' a b,
                 trunc (lat * kValueOrder)%float = Some a /\
                 trunc (lng * kValueOrder)%float = Some b /\
                 RawFilePointStorage.AddPoint id lat lng st = Ok st' [] /\
                 take 8 (drop (Z.to_nat (wrap64 (id * sizeof_LatLon)))
                           (fw_data (RawFilePointStorage.m_file st')))
                   = LatLon_bytes (mkLatLon a b))).
    { intros st. rewrite <- Hfit.
      rewrite (RawFile_AddPoint_spec id lat lng _ _ st Ha Hb).
      destruct (fits_int32 (scaled lat)); [|by split].
      destruct (fits_int32 (scaled lng)); [|by split].
      split; [done|]. intros _. destruct (Htr (eq_sym Hfit)) as [H1 H2].
      eexists _, _, _. split; [exact H1|]. split; [exact H2|]. split; [done|].
      cbn [RawFilePointStorage.m_file].
      apply (fw_Write_at (LatLon_bytes (mkLatLon (scaled lat) (scaled lng)))). }
    assert (Hmem : forall st : RawMemPointStorage.t FileWriter,
              0 <= id < 2 ^ 32 - 1 ->
              aborted (RawMemPointStorage.AddPoint id lat lng st)
                = negb (both_fit lat lng) /\
              (both_fit lat lng = true ->
               exists st' a b,
                 trunc (lat * kValueOrder)%float = Some a /\
                 trunc (lng * kValueOrder)%float = Some b /\
                 RawMemPointStorage.AddPoint id lat lng st = Ok st' [] /\
                 RawMemPointStorage.element (RawMemPointStorage.m_data st') id
                   = mkLatLon a b)).
    { intros st Hid. rewrite <- Hfit.
      rewrite (RawMem_AddPoint_spec id lat lng _ _ st Ha Hb)
        by (unfold RawMemPointStorage.kDataSize; lia).
      destruct (fits_int32 (scaled lat)); [|by split].
      destruct (fits_int32 (scaled lng)); [|by split].
      split; [done|]. intros _. destruct (Htr (eq_sym Hfit)) as [H1 H2].
      eexists _, _, _. split; [exact H1|]. split; [exact H2|]. split; [done|].
      cbn [RawMemPointStorage.m_data]. unfold RawMemPointStorage.element.
      by rewrite lookup_insert_eq. }
    split; [exact Hfile|]. split.
    + intros st. split; [|exact (Hmem st)].
      intros Hab.
      destruct (decide (0 <= id < RawMemPointStorage.kDataSize)) as [Hid|Hid].
      * destruct (Hmem st) as [Heq _];
          [unfold RawMemPointStorage.kDataSize in Hid; lia|].
        rewrite Hab in Heq. by destruct (both_fit lat lng).
      * destruct (RawMem_AddPoint_outside id lat lng st Hid) as [Hno _].
        congruence.
    + intros st. rewrite <- Hfit.
      rewrite (MapFile_AddPoint_spec id lat lng _ _ st Ha Hb).
      destruct (fits_int32 (scaled lat)); [|by split].
      destruct (fits_int32 (scaled lng)); [|by split].
      split; [done|]. intros _. destruct (Htr (eq_sym Hfit)) as [H1 H2].
      eexists _, _, _. split; [exact H1|]. split; [exact H2|]. split; [done|].
      cbn [MapFilePointStorage.m_file].
      replace 16%nat
        with (length (LatLonPos_bytes (mkLatLonPos id (scaled lat) (scaled lng))))
        by (unfold LatLonPos_bytes; by rewrite !length_app, !length_le_bytes).
      apply fw_Write_here.
  - intros st. by vm_compute.
  - intros st. by vm_compute.
  - intros st. by vm_compute.
Qed.

Lemma AddPoint_overflow_check_witness :
  (exists st',
     RawFilePointStorage.AddPoint 5 55.75 37.625 (RawFilePointStorage.create "nodes")
     = Ok st' [] /\
     take 8 (drop 40 (fw_data (RawFilePointStorage.m_file st')))
     = LatLon_bytes (mkLatLon 557500000 376250000)) /\
  aborted (RawMemPointStorage.AddPoint 5 55.75 300 (RawMemPointStorage.create "nodes"))
  = true /\
  aborted (MapFilePointStorage.AddPoint 5 1e22 0 (MapFilePointStorage.create "nodes"))
  = true.
Proof.
  destruct AddPoint_overflow_check as [Hall _].
  split; [|split].
  - destruct (Hall 5 55.75%float 37.625%float) as [Hfile _].
    destruct (Hfile (RawFilePointStorage.create "nodes")) as [_ Hst].
    destruct (Hst eq_refl) as (st' & a & b & Ha & Hb & Hrun & Hrec).
    exists st'. split; [exact Hrun|].
    injection Ha as <-. injection Hb as <-. exact Hrec.
  - destruct (Hall 5 55.75%float 300%float) as (_ & Hmem & _).
    destruct (Hmem (RawMemPointStorage.create "nodes")) as [_ Hin].
    destruct Hin as [Hab _]; [lia|]. exact Hab.
  - destruct (Hall 5 1e22%float 0%float) as (_ & _ & Hmap).
    destruct (Hmap (MapFilePointStorage.create "nodes")) as [Hab _]. exact Hab.
Defined.

(** The claim as first stated fails for [RawMemPointStorage]: a point whose
    scaled coordinates fit, added under the id [2^32 - 1], is bound to the
    element one past the end of the array, so the call neither stores it
    nor aborts. *)
Lemma AddPoint_overflow_check_counterexample :
  both_fit 1 1 = true /\
  RawMemPointStorage.AddPoint (2 ^ 32 - 1) 1 1 (RawMemPointStorage.create "nodes")
  = Undefined.
Proof. by vm_compute. Qed.

(** ** RawMemPointStorage: the snapshot written at destruction *)

Lemma length_flat_map_const {A B} (f : A -> list B) (c : nat) (l : list A) :
  (forall x, length (f x) = c) -> length (flat_map f l) = (c * length l)%nat.
Proof.
  intros Hf. induction l as [|x l IH]; cbn [flat_map length]; [lia|].
  rewrite length_app, Hf, IH. lia.
Qed.

Lemma length_LatLon_bytes (ll : LatLon) : length (LatLon_bytes ll) = 8%nat.
Proof. unfold LatLon_bytes. by rewrite length_app, !length_le_bytes. Qed.

Lemma length_data_bytes (data : gmap Z LatLon) :
  Z.of_nat (length (RawMemPointStorage.data_bytes data))
  = RawMemPointStorage.kDataSize * sizeof_LatLon.
Proof.
  unfold RawMemPointStorage.data_bytes.
  rewrite (length_flat_map_const _ 8) by (intros; apply length_LatLon_bytes).
  rewrite length_seqZ. unfold RawMemPointStorage.kDataSize, sizeof_LatLon. lia.
Qed.

Lemma RawMem_AddPoint_file (id : Z) (lat lng : float)
    (st st' : RawMemPointStorage.t FileWriter) (log : list LogEntry) :
  RawMemPointStorage.AddPoint id lat lng st = Ok st' log ->
  RawMemPointStorage.m_file st' = RawMemPointStorage.m_file st.
Proof.
  unfold RawMemPointStorage.AddPoint. intros Heq. run_inv Heq.
  injection Heq as <- _. done.
Qed.

Lemma RawMem_add_all_file (ps : list (Z * float * float))
    (st st' : RawMemPointStorage.t FileWriter) (log : list LogEntry) :
  RawMemPointStorage.add_all ps st = Ok st' log ->
  RawMemPointStorage.m_file st' = RawMemPointStorage.m_file st.
Proof.
  revert st log. induction ps as [|[[id lat] lng] ps IH]; intros st log.
  - intros Heq. injection Heq as <- _. done.
  - cbn [RawMemPointStorage.add_all]. intros Heq.
    apply bind_Ok_inv in Heq as (st1 & l1 & l2 & E1 & E2 & _).
    rewrite (IH _ _ E2). by apply (RawMem_AddPoint_file _ _ _ _ _ _ E1).
Qed.

(** C7 (as amended). Whatever [AddPoint] calls a write-mode [RawMemPointStorage]
    has taken, the point file it writes at destruction is the memory image
    of the whole array, one contiguous blob of [(2^32 - 1) * 8] bytes: the
    array has [0xFFFFFFFF] elements. *)
Theorem RawMem_snapshot_size (name : string) (ps : list (Z * float * float))
    (st : RawMemPointStorage.t FileWriter) (log : list LogEntry) :
  RawMemPointStorage.add_all ps (RawMemPointStorage.create name) = Ok st log ->
  f_bytes (RawMemPointStorage.close st)
    = RawMemPointStorage.data_bytes (RawMemPointStorage.m_data st) /\
  Z.of_nat (length (f_bytes (RawMemPointStorage.close st))) = (2 ^ 32 - 1) * 8.
Proof.
  intros Hrun. apply RawMem_add_all_file in Hrun.
  assert (Hbytes : f_bytes (RawMemPointStorage.close st)
                   = RawMemPointStorage.data_bytes (RawMemPointStorage.m_data st)).
  { unfold RawMemPointStorage.close, RawMemPointStorage.DoneStorage, fw_close.
    cbn [f_bytes RawMemPointStorage.m_file]. rewrite Hrun.
    cbn [RawMemPointStorage.m_file RawMemPointStorage.create].
    destruct (fw_Write_append
                (RawMemPointStorage.data_bytes (RawMemPointStorage.m_data st))
                (fw_open name) eq_refl) as [Hd _].
    rewrite Hd. cbn [fw_open fw_data]. apply app_nil_l. }
  split; [exact Hbytes|]. rewrite Hbytes, length_data_bytes. done.
Qed.

Lemma RawMem_snapshot_size_witness :
  let st := RawMemPointStorage.mk (fw_open "nodes")
              (<[5 := mkLatLon 557500000 376250000]> ∅) 1 in
  RawMemPointStorage.add_all [(5, 55.75%float, 37.625%float)]
    (RawMemPointStorage.create "nodes") = Ok st [] /\
  Z.of_nat (length (f_bytes (RawMemPointStorage.close st))) = (2 ^ 32 - 1) * 8.
Proof.
  intros st.
  assert (Hrun : RawMemPointStorage.add_all [(5, 55.75%float, 37.625%float)]
                   (RawMemPointStorage.create "nodes") = Ok st [])
    by (by vm_compute).
  split; [exact Hrun|].
  exact (proj2 (RawMem_snapshot_size "nodes" [(5, 55.75%float, 37.625%float)] st []
                  Hrun)).
Defined.

(** The file is eight bytes short of [2^32 * 8], already for a storage
    that took no point at all. *)
Lemma RawMem_snapshot_size_counterexample :
  Z.of_nat (length (f_bytes (RawMemPointStorage.close (RawMemPointStorage.create "nodes"))))
  <> 2 ^ 32 * 8.
Proof.
  unfold RawMemPointStorage.close, RawMemPointStorage.DoneStorage, fw_close.
  cbn [f_bytes RawMemPointStorage.m_file RawMemPointStorage.create
       RawMemPointStorage.m_data].
  destruct (fw_Write_append (RawMemPointStorage.data_bytes ∅) (fw_open "nodes") eq_refl)
    as [Hd _].
  rewrite Hd. cbn [fw_open fw_data]. rewrite app_nil_l, length_data_bytes.
  unfold RawMemPointStorage.kDataSize, sizeof_LatLon. lia.
Qed.

(** ** Dense point storages: lookups *)

Lemma LatLon_of_bytes_fields (bs : list byte) : int32_fields (LatLon_of_bytes bs).
Proof. split; apply to_int32_range. Qed.

Lemma LatLon_of_bytes_LatLon_bytes (ll : LatLon) :
  int32_fields ll -> LatLon_of_bytes (LatLon_bytes ll) = ll.
Proof.
  destruct ll as [a b]. intros [Ha Hb]. cbn [PointStorage.lat PointStorage.lon] in *.
  unfold LatLon_of_bytes, LatLon_bytes. cbn [PointStorage.lat PointStorage.lon].
  rewrite take_app_length' by (by rewrite length_le_bytes).
  rewrite drop_app_length' by (by rewrite length_le_bytes).
  rewrite firstn_all2 by (by rewrite length_le_bytes).
  by rewrite !le_int32_le_bytes, !to_int32_fits.
Qed.

Lemma dense_decode (id : Z) (ll : LatLon) :
  int32_fields ll ->
  (if ne_zero (PointStorage.lat ll) || ne_zero (PointStorage.lon ll)
   then mret (Some ((double_of_int32 (PointStorage.lat ll) / kValueOrder)%float,
                    (double_of_int32 (PointStorage.lon ll) / kValueOrder)%float))
   else LOG LERROR [Txt "Node with id = "; Num id; Txt " not found!"];; mret None)
  = dense_answer id ll.
Proof.
  intros [Ha Hb]. rewrite !ne_zero_int32 by done. unfold dense_answer.
  destruct (PointStorage.lat ll =? 0); destruct (PointStorage.lon ll =? 0); done.
Qed.

Lemma wrap64_record (id : Z) : wrap64 (id * sizeof_LatLon) = record_index id * 8.
Proof.
  unfold wrap64, record_index, sizeof_LatLon.
  change (2 ^ 64) with (2 ^ 61 * 8). by rewrite Z.mul_mod_distr_r.
Qed.

Lemma record_index_range (id : Z) : 0 <= record_index id < 2 ^ 61.
Proof. unfold record_index. apply Z.mod_pos_bound. lia. Qed.

Lemma record_index_small (id : Z) : 0 <= id < 2 ^ 61 -> record_index id = id.
Proof. intros Hid. unfold record_index. by apply Z.mod_small. Qed.

Lemma padded_record_inside (data : list byte) (id : Z) :
  0 <= id -> id * 8 + 8 <= Z.of_nat (length data) ->
  padded_record data id = file_record data id.
Proof.
  intros Hid Hin. unfold padded_record, file_record, sizeof_LatLon. cbv zeta.
  rewrite length_take, length_drop.
  replace (8 - _)%nat with 0%nat by lia.
  by rewrite app_nil_r.
Qed.

(** [GetPoint] reads the record at the index its offset [id * 8] falls on. *)
Lemma RawFile_GetPoint_padded (id : Z) (st : RawFilePointStorage.t FileReader) :
  RawFilePointStorage.GetPoint id st
  = dense_answer id
      (padded_record (fr_data (RawFilePointStorage.m_file st)) (record_index id)).
Proof.
  unfold RawFilePointStorage.GetPoint, mm_Read. rewrite wrap64_record.
  cbn [mbind run_mbind run_bind].
  unfold sizeof_LatLon at 1 2. change (Z.to_nat 8) with 8%nat.
  fold (padded_record (fr_data (RawFilePointStorage.m_file st)) (record_index id)).
  unfold padded_record. cbv zeta.
  rewrite dense_decode by apply LatLon_of_bytes_fields.
  by destruct (dense_answer _ _).
Qed.

Lemma RawFile_GetPoint_spec (id : Z) (st : RawFilePointStorage.t FileReader) :
  0 <= id ->
  id * sizeof_LatLon + sizeof_LatLon <= fr_Size (RawFilePointStorage.m_file st) ->
  fr_Size (RawFilePointStorage.m_file st) < 2 ^ 64 ->
  RawFilePointStorage.GetPoint id st
  = dense_answer id (file_record (fr_data (RawFilePointStorage.m_file st)) id).
Proof.
  intros Hid Hin Hsz. unfold sizeof_LatLon, fr_Size in *.
  rewrite RawFile_GetPoint_padded, record_index_small by lia.
  by rewrite padded_record_inside by lia.
Qed.

Lemma RawMem_GetPoint_spec (id : Z) (st : RawMemPointStorage.t FileReader) :
  0 <= id < RawMemPointStorage.kDataSize ->
  int32_fields (RawMemPointStorage.element (RawMemPointStorage.m_data st) id) ->
  RawMemPointStorage.GetPoint id st
  = dense_answer id (RawMemPointStorage.element (RawMemPointStorage.m_data st) id).
Proof.
  intros Hid Hf. unfold RawMemPointStorage.GetPoint, RawMemPointStorage.at_index.
  rewrite (proj2 (Z.leb_le _ _) (proj1 Hid)), (proj2 (Z.ltb_lt _ _) (proj2 Hid)).
  cbn [andb mbind run_mbind run_bind mret run_mret].
  fold (@mret run _ _ (option (float * float))).
  rewrite dense_decode by done.
  by destruct (dense_answer _ _).
Qed.

Lemma RawMem_GetPoint_outside (id : Z) (st : RawMemPointStorage.t FileReader) :
  ~ (0 <= id < RawMemPointStorage.kDataSize) ->
  RawMemPointStorage.GetPoint id st = Undefined.
Proof.
  intros Hid. unfold RawMemPointStorage.GetPoint, RawMemPointStorage.at_index.
  assert (Hb : (0 <=? id) && (id <? RawMemPointStorage.kDataSize) = false).
  { apply andb_false_iff. rewrite Z.leb_gt, Z.ltb_ge. lia. }
  by rewrite Hb.
Qed.

(** ** Dense point storages: what a pass of writes leaves *)

Lemma chunk_of_flat_map {A B} (f : A -> list B) (c : nat) (l : list A) (i : nat)
    (x : A) :
  (forall y, length (f y) = c) -> l !! i = Some x ->
  take c (drop (c * i) (flat_map f l)) = f x.
Proof.
  intros Hf. revert i. induction l as [|y l IH]; intros i Hi; [done|].
  cbn [flat_map]. destruct i as [|i].
  - injection Hi as ->. rewrite Nat.mul_0_r, drop_0.
    by rewrite take_app_length'.
  - cbn [lookup list_lookup] in Hi.
    replace (c * S i)%nat with (length (f y) + c * i)%nat by (rewrite Hf; lia).
    rewrite drop_app_add. by apply IH.
Qed.

Lemma lookup_indexed_map {V} (g : Z -> V) (N i : Z) :
  0 <= i < N ->
  (list_to_map ((fun j => (j, g j)) <$> seqZ 0 N) : gmap Z V) !! i = Some (g i).
Proof.
  intros Hi. apply elem_of_list_to_map_1.
  - rewrite <- list_fmap_compose.
    rewrite (list_fmap_ext _ id (seqZ 0 N)) by done.
    rewrite list_fmap_id. apply NoDup_seqZ.
  - apply (list_elem_of_fmap_2' _ _ i); [|done]. apply elem_of_seqZ. lia.
Qed.

(** The array survives the snapshot and its restoration. *)
Lemma element_data_of_bytes (data : gmap Z LatLon) (i : Z) :
  0 <= i < RawMemPointStorage.kDataSize ->
  int32_fields (RawMemPointStorage.element data i) ->
  RawMemPointStorage.element
    (RawMemPointStorage.data_of_bytes (RawMemPointStorage.data_bytes data)) i
  = RawMemPointStorage.element data i.
Proof.
  intros Hi Hf. unfold RawMemPointStorage.element at 1.
  unfold RawMemPointStorage.data_of_bytes.
  rewrite (lookup_indexed_map
             (fun j => LatLon_of_bytes
                         (take 8 (drop (Z.to_nat (8 * j))
                                    (RawMemPointStorage.data_bytes data))))
             _ i Hi).
  cbn [default]. unfold RawMemPointStorage.data_bytes.
  replace (Z.to_nat (8 * i)) with (8 * Z.to_nat i)%nat by lia.
  rewrite (chunk_of_flat_map _ 8 _ (Z.to_nat i) i).
  - by apply LatLon_of_bytes_LatLon_bytes.
  - intros y. apply length_LatLon_bytes.
  - rewrite lookup_seqZ_lt by lia. f_equal. lia.
Qed.

Lemma RawMem_reopen (st : RawMemPointStorage.t FileWriter) :
  fw_pos (RawMemPointStorage.m_file st) = 0%nat ->
  fw_data (RawMemPointStorage.m_file st) = [] ->
  exists rd,
    RawMemPointStorage.open (RawMemPointStorage.close st) = Ok rd [] /\
    RawMemPointStorage.m_data rd
    = RawMemPointStorage.data_of_bytes
        (RawMemPointStorage.data_bytes (RawMemPointStorage.m_data st)).
Proof.
  intros Hp Hd.
  destruct (fw_Write_append
              (RawMemPointStorage.data_bytes (RawMemPointStorage.m_data st))
              (RawMemPointStorage.m_file st)) as [Hw _].
  { by rewrite Hp, Hd. }
  rewrite Hd, app_nil_l in Hw.
  assert (Hsize : fr_Size (fr_open (RawMemPointStorage.close st))
                  = RawMemPointStorage.kDataSize * sizeof_LatLon).
  { unfold fr_Size, RawMemPointStorage.close, RawMemPointStorage.DoneStorage.
    cbn [RawMemPointStorage.m_file fr_open fw_close fr_data f_bytes].
    rewrite Hw. apply length_data_bytes. }
  unfold RawMemPointStorage.open. rewrite (fr_Read_exact _ _ Hsize).
  cbn [mbind run_mbind run_bind mret run_mret app].
  eexists. split; [reflexivity|].
  cbn [RawMemPointStorage.m_data].
  unfold RawMemPointStorage.close, RawMemPointStorage.DoneStorage.
  cbn [RawMemPointStorage.m_file fr_open fw_close fr_data f_bytes].
  rewrite Hw. reflexivity.
Qed.

Lemma RawMem_AddPoint_data (id : Z) (lat lng : float)
    (st st' : RawMemPointStorage.t FileWriter) (log : list LogEntry) :
  RawMemPointStorage.AddPoint id lat lng st = Ok st' log ->
  exists ll,
    int32_fields ll /\
    RawMemPointStorage.m_data st' = <[id := ll]> (RawMemPointStorage.m_data st).
Proof.
  unfold RawMemPointStorage.AddPoint. intros Heq. run_inv Heq.
  injection Heq as <- _. eexists. split; [|done].
  split; apply to_int32_range.
Qed.

Lemma RawMem_add_all_data (ps : list (Z * float * float))
    (st st' : RawMemPointStorage.t FileWriter) (log : list LogEntry) :
  RawMemPointStorage.add_all ps st = Ok st' log ->
  (forall i, int32_fields (RawMemPointStorage.element (RawMemPointStorage.m_data st) i)) ->
  (forall i, int32_fields (RawMemPointStorage.element (RawMemPointStorage.m_data st') i)) /\
  (forall id, id ∉ point_ids ps ->
     RawMemPointStorage.element (RawMemPointStorage.m_data st') id
     = RawMemPointStorage.element (RawMemPointStorage.m_data st) id).
Proof.
  revert st log. induction ps as [|[[id lat] lng] ps IH]; intros st log Hrun Hinv.
  - injection Hrun as <- _. done.
  - cbn [RawMemPointStorage.add_all] in Hrun.
    apply bind_Ok_inv in Hrun as (st1 & l1 & l2 & E1 & E2 & _).
    destruct (RawMem_AddPoint_data _ _ _ _ _ _ E1) as (ll & Hll & Hd).
    assert (Hinv1 : forall i,
              int32_fields (RawMemPointStorage.element (RawMemPointStorage.m_data st1) i)).
    { intros i. rewrite Hd. unfold RawMemPointStorage.element.
      destruct (decide (id = i)) as [->|Hne].
      - by rewrite lookup_insert_eq.
      - rewrite lookup_insert_ne by done. apply Hinv. }
    destruct (IH _ _ E2 Hinv1) as [Hinv' Hkeep]. split; [done|].
    intros id' Hnot. unfold point_ids in Hnot. cbn [fmap list_fmap fst] in Hnot.
    apply not_elem_of_cons in Hnot as [Hne Hnot].
    rewrite Hkeep by done. rewrite Hd. unfold RawMemPointStorage.element.
    by rewrite lookup_insert_ne.
Qed.

Lemma fw_Write_lookup (bs : list byte) (p : Z) (w : FileWriter) (n : nat) :
  fw_data (fw_Write bs (fw_Seek p w)) !! n
  = if decide (n < Z.to_nat p)%nat
    then if decide (n < length (fw_data w))%nat then fw_data w !! n else Some Byte.x00
    else if decide (n < Z.to_nat p + length bs)%nat then bs !! (n - Z.to_nat p)%nat
         else fw_data w !! n.
Proof.
  unfold fw_Write, fw_Seek. cbn [fw_data fw_pos].
  set (q := Z.to_nat p). set (d := fw_data w).
  assert (Hlt : length (take q d) = Nat.min q (length d)) by apply length_take.
  destruct (decide (n < q)%nat) as [Hn|Hn].
  - destruct (decide (n < length d)%nat) as [Hd|Hd].
    + rewrite lookup_app_l by lia. by rewrite lookup_take_lt.
    + rewrite lookup_app_r by lia. rewrite lookup_app_l by (rewrite length_replicate; lia).
      apply lookup_replicate_2. lia.
  - rewrite lookup_app_r by lia.
    rewrite lookup_app_r by (rewrite length_replicate; lia).
    rewrite length_replicate.
    destruct (decide (n < q + length bs)%nat) as [Hb|Hb].
    + rewrite lookup_app_l by lia. f_equal. lia.
    + rewrite lookup_app_r by lia. rewrite lookup_drop. f_equal. lia.
Qed.

Lemma RawFile_AddPoint_file (id : Z) (lat lng : float)
    (st st' : RawFilePointStorage.t FileWriter) (log : list LogEntry) :
  RawFilePointStorage.AddPoint id lat lng st = Ok st' log ->
  exists ll,
    RawFilePointStorage.m_file st'
    = fw_Write (LatLon_bytes ll)
        (fw_Seek (wrap64 (id * sizeof_LatLon)) (RawFilePointStorage.m_file st)).
Proof.
  unfold RawFilePointStorage.AddPoint. intros Heq. run_inv Heq.
  injection Heq as <- _. by eexists.
Qed.

Lemma zero_outside_write (ids : list Z) (id : Z) (ll : LatLon) (w : FileWriter) :
  0 <= id < 2 ^ 61 ->
  zero_outside ids (fw_data w) ->
  zero_outside (id :: ids)
    (fw_data (fw_Write (LatLon_bytes ll) (fw_Seek (wrap64 (id * sizeof_LatLon)) w))).
Proof.
  intros Hid Hz n b Hn Hb. rewrite fw_Write_lookup in Hn.
  unfold wrap64, sizeof_LatLon in Hn. rewrite Z.mod_small in Hn by lia.
  rewrite length_LatLon_bytes in Hn.
  destruct (decide (n < Z.to_nat (id * 8))%nat) as [H1|H1].
  - destruct (decide (n < length (fw_data w))%nat) as [H2|H2].
    + destruct (Hz n b Hn Hb) as (id' & Hin & Hr).
      exists id'. split; [by apply list_elem_of_further|done].
    + congruence.
  - destruct (decide (n < Z.to_nat (id * 8) + 8)%nat) as [H2|H2].
    + exists id. split; [apply list_elem_of_here|lia].
    + destruct (Hz n b Hn Hb) as (id' & Hin & Hr).
      exists id'. split; [by apply list_elem_of_further|done].
Qed.

(** The same for ids of any size: the record written is the one at the
    index the 64-bit offset falls on. *)
Lemma zero_outside_write_any (ids : list Z) (id : Z) (ll : LatLon) (w : FileWriter) :
  zero_outside ids (fw_data w) ->
  zero_outside (record_index id :: ids)
    (fw_data (fw_Write (LatLon_bytes ll) (fw_Seek (wrap64 (id * sizeof_LatLon)) w))).
Proof.
  intros Hz.
  pose proof (zero_outside_write ids (record_index id) ll w (record_index_range id) Hz)
    as Hw.
  assert (Heq : wrap64 (record_index id * sizeof_LatLon) = wrap64 (id * sizeof_LatLon)).
  { rewrite (wrap64_record id). unfold wrap64, sizeof_LatLon.
    pose proof (record_index_range id). apply Z.mod_small. lia. }
  by rewrite Heq in Hw.
Qed.

Lemma RawFile_add_all_zero_outside_any (ps : list (Z * float * float)) (ids : list Z)
    (st st' : RawFilePointStorage.t FileWriter) (log : list LogEntry) :
  RawFilePointStorage.add_all ps st = Ok st' log ->
  zero_outside ids (fw_data (RawFilePointStorage.m_file st)) ->
  zero_outside ((record_index <$> point_ids ps) ++ ids)
    (fw_data (RawFilePointStorage.m_file st')).
Proof.
  revert ids st log. induction ps as [|[[id lat] lng] ps IH]; intros ids st log Hrun Hz.
  - injection Hrun as <- _. done.
  - cbn [RawFilePointStorage.add_all] in Hrun.
    apply bind_Ok_inv in Hrun as (st1 & l1 & l2 & E1 & E2 & _).
    destruct (RawFile_AddPoint_file _ _ _ _ _ _ E1) as (ll & Hf).
    pose proof (zero_outside_write_any ids id ll _ Hz) as Hz1. rewrite <- Hf in Hz1.
    pose proof (IH (record_index id :: ids) st1 l2 E2 Hz1) as Hz2.
    intros n b Hn Hb. destruct (Hz2 n b Hn Hb) as (id' & Hin & Hr).
    exists id'. split; [|done].
    unfold point_ids. cbn [fmap list_fmap fst].
    apply elem_of_app in Hin as [Hin|Hin].
    + apply list_elem_of_further, elem_of_app. by left.
    + apply elem_of_cons in Hin as [->|Hin]; [apply list_elem_of_here|].
      apply list_elem_of_further, elem_of_app. by right.
Qed.

(** The record of an id that nothing was written at is zero, inside the
    file and past its end. *)
Lemma padded_record_unwritten (ids : list Z) (data : list byte) (id : Z) :
  zero_outside ids data -> 0 <= id -> id ∉ ids ->
  padded_record data id = mkLatLon 0 0.
Proof.
  intros Hz Hid Hnot. unfold padded_record, sizeof_LatLon. cbv zeta.
  set (inside := take 8 (drop (Z.to_nat (id * 8)) data)).
  assert (Hzero : inside ++ replicate (8 - length inside) Byte.x00
                  = replicate 8 Byte.x00).
  { assert (Hlen : (length inside <= 8)%nat)
      by (unfold inside; rewrite length_take; lia).
    apply list_eq. intros i.
    destruct (decide (i < length inside)%nat) as [Hi|Hi].
    - rewrite lookup_app_l, lookup_replicate_2 by lia.
      destruct (lookup_lt_is_Some_2 inside i Hi) as [b Hb]. rewrite Hb. f_equal.
      destruct (Byte.byte_eq_dec b Byte.x00) as [|Hne]; [done|]. exfalso.
      unfold inside in Hb. rewrite lookup_take_lt, lookup_drop in Hb by lia.
      destruct (Hz _ _ Hb Hne) as (id' & Hin' & Hr).
      assert (id' = id) by lia. by subst.
    - rewrite lookup_app_r by lia.
      destruct (decide (i < 8)%nat) as [Hi8|Hi8].
      + transitivity (Some Byte.x00);
          [apply lookup_replicate_2; lia|symmetry; apply lookup_replicate_2; lia].
      + transitivity (@None byte);
          [apply lookup_replicate_None; lia|symmetry; apply lookup_replicate_None; lia]. }
  rewrite Hzero. by vm_compute.
Qed.

Lemma fr_Read_start_Ok_inv (size : Z) (r : FileReader) (bs : list byte)
    (log : list LogEntry) :
  fr_Read 0 size r = Ok bs log ->
  0 <= size <= fr_Size r /\ bs = take (Z.to_nat size) (fr_data r).
Proof.
  unfold fr_Read. destruct (0 <=? size) eqn:E1; [|discriminate].
  destruct (0 + size <=? fr_Size r) eqn:E2; [|discriminate].
  cbn [andb Z.leb Z.compare]. intros [= <- _].
  apply Z.leb_le in E1, E2. split; [lia|]. reflexivity.
Qed.

Lemma chunk_of_prefix {A} (l : list A) (n k c : nat) :
  (k + c <= n)%nat -> take c (drop k (take n l)) = take c (drop k l).
Proof.
  intros Hle. rewrite !take_drop_commute, take_take. f_equal. f_equal. lia.
Qed.

(** The array of a reader holds the records of the file it was loaded
    from. *)
Lemma RawMem_open_element (f : File) (rd : RawMemPointStorage.t FileReader)
    (log : list LogEntry) (i : Z) :
  RawMemPointStorage.open f = Ok rd log ->
  0 <= i < RawMemPointStorage.kDataSize ->
  RawMemPointStorage.element (RawMemPointStorage.m_data rd) i
  = file_record (f_bytes f) i.
Proof.
  unfold RawMemPointStorage.open. intros Hopen Hi.
  apply bind_Ok_inv in Hopen as (bs & l1 & l2 & Hread & Hret & _).
  apply fr_Read_start_Ok_inv in Hread as [Hsize ->].
  injection Hret as <- _. cbn [RawMemPointStorage.m_data fr_open fr_data].
  unfold RawMemPointStorage.element, RawMemPointStorage.data_of_bytes.
  rewrite (lookup_indexed_map
             (fun j => LatLon_of_bytes
                         (take 8 (drop (Z.to_nat (8 * j))
                                    (take (Z.to_nat (RawMemPointStorage.kDataSize
                                                     * sizeof_LatLon))
                                       (f_bytes f)))))
             _ i Hi).
  cbv [default from_option Datatypes.id]. unfold file_record.
  replace (Z.to_nat (8 * i)) with (Z.to_nat (i * sizeof_LatLon))
    by (unfold sizeof_LatLon; lia).
  rewrite chunk_of_prefix; [reflexivity|].
  unfold sizeof_LatLon, RawMemPointStorage.kDataSize in *. lia.
Qed.

Lemma RawMem_GetPoint_no_abort (id : Z) (st : RawMemPointStorage.t FileReader) :
  aborted (RawMemPointStorage.GetPoint id st) = false.
Proof.
  unfold RawMemPointStorage.GetPoint, RawMemPointStorage.at_index.
  destruct (_ && _); [|reflexivity].
  cbn [mbind run_mbind run_bind mret run_mret].
  destruct (_ || _); reflexivity.
Qed.

(** C8 (as amended). [GetPoint(id)] on a read-mode dense point storage returns
    false exactly when the 8-byte record it reads is [(lat = 0, lon = 0)],
    logging an error and never aborting, and otherwise returns true with
    [lat = stored_lat / 1e7] and [lng = stored_lon / 1e7].  In
    [RawFilePointStorage] the record read is the one at index [id] for
    every id below [2^61] (at [id mod 2^61] in general: the offset [id * 8]
    is computed in [uint64_t]), the file reading as zero past its end; in
    [RawMemPointStorage] it is the record at index [id] of the loaded file
    for every id below the array size [2^32 - 1].  Such a record is zero
    for every id that no [AddPoint] was made under. *)
Theorem dense_GetPoint :
  (forall (id : Z) (st : RawFilePointStorage.t FileReader),
     RawFilePointStorage.GetPoint id st
     = dense_answer id
         (padded_record (fr_data (RawFilePointStorage.m_file st)) (record_index id))) /\
  (forall (id : Z) (st : RawFilePointStorage.t FileReader),
     0 <= id < 2 ^ 61 ->
     RawFilePointStorage.GetPoint id st
     = dense_answer id (padded_record (fr_data (RawFilePointStorage.m_file st)) id)) /\
  (forall (f : File) (rd : RawMemPointStorage.t FileReader) (log : list LogEntry)
          (id : Z),
     RawMemPointStorage.open f = Ok rd log ->
     0 <= id < 2 ^ 32 - 1 ->
     RawMemPointStorage.GetPoint id rd = dense_answer id (file_record (f_bytes f) id)) /\
  (forall (id : Z) (st : RawFilePointStorage.t FileReader),
     aborted (RawFilePointStorage.GetPoint id st) = false) /\
  (forall (id : Z) (st : RawMemPointStorage.t FileReader),
     aborted (RawMemPointStorage.GetPoint id st) = false) /\
  (forall (name : string) (ps : list (Z * float * float))
          (st : RawFilePointStorage.t FileWriter) (log : list LogEntry) (id : Z),
     RawFilePointStorage.add_all ps (RawFilePointStorage.create name) = Ok st log ->
     0 <= id < 2 ^ 61 ->
     id ∉ record_index <$> point_ids ps ->
     RawFilePointStorage.GetPoint id
       (RawFilePointStorage.open (RawFilePointStorage.close st))
     = Ok None [(LERROR, [Txt "Node with id = "; Num id; Txt " not found!"])]) /\
  (forall (name : string) (ps : list (Z * float * float))
          (st : RawMemPointStorage.t FileWriter) (log : list LogEntry),
     RawMemPointStorage.add_all ps (RawMemPointStorage.create name) = Ok st log ->
     exists rd,
       RawMemPointStorage.open (RawMemPointStorage.close st) = Ok rd [] /\
       forall id, 0 <= id < 2 ^ 32 - 1 -> id ∉ point_ids ps ->
         RawMemPointStorage.GetPoint id rd
         = Ok None [(LERROR, [Txt "Node with id = "; Num id; Txt " not found!"])]).
Proof.
  split; [|split; [|split; [|split; [|split; [|split]]]]].
  - intros id st. apply RawFile_GetPoint_padded.
  - intros id st Hid. by rewrite RawFile_GetPoint_padded, record_index_small.
  - intros f rd log id Hopen Hid.
    assert (Hid' : 0 <= id < RawMemPointStorage.kDataSize)
      by (unfold RawMemPointStorage.kDataSize; lia).
    pose proof (RawMem_open_element f rd log id Hopen Hid') as Hel.
    rewrite (RawMem_GetPoint_spec id rd Hid').
    + rewrite Hel. reflexivity.
    + rewrite Hel. apply LatLon_of_bytes_fields.
  - intros id st. rewrite RawFile_GetPoint_padded. unfold dense_answer.
    by destruct (_ && _).
  - intros id st. apply RawMem_GetPoint_no_abort.
  - intros name ps st log id Hrun Hid Hnot.
    assert (Hz0 : zero_outside [] (fw_data (RawFilePointStorage.m_file
                                              (RawFilePointStorage.create name)))).
    { intros n b Hn. done. }
    pose proof (RawFile_add_all_zero_outside_any ps [] _ _ _ Hrun Hz0) as Hz.
    rewrite app_nil_r in Hz.
    rewrite RawFile_GetPoint_padded, record_index_small by done.
    unfold RawFilePointStorage.open, RawFilePointStorage.close, fr_open, fw_close.
    cbn [RawFilePointStorage.m_file fr_data f_bytes].
    rewrite (padded_record_unwritten _ _ id Hz) by (done || lia).
    reflexivity.
  - intros name ps st log Hrun.
    pose proof (RawMem_add_all_file _ _ _ _ Hrun) as Hfile.
    assert (Hzero : forall i,
              RawMemPointStorage.element
                (RawMemPointStorage.m_data (RawMemPointStorage.create name)) i
              = mkLatLon 0 0).
    { intros i. unfold RawMemPointStorage.element.
      cbn [RawMemPointStorage.create RawMemPointStorage.m_data].
      rewrite lookup_empty. reflexivity. }
    destruct (RawMem_add_all_data _ _ _ _ Hrun) as [Hinv Hkeep].
    { intros i. rewrite Hzero. split; reflexivity. }
    destruct (RawMem_reopen st) as (rd & Hopen & Hdata).
    { rewrite Hfile. reflexivity. }
    { rewrite Hfile. reflexivity. }
    exists rd. split; [exact Hopen|]. clear Hopen. intros id Hid Hnot.
    assert (Hid' : 0 <= id < RawMemPointStorage.kDataSize)
      by (unfold RawMemPointStorage.kDataSize; lia).
    assert (Hel : RawMemPointStorage.element (RawMemPointStorage.m_data rd) id
                  = mkLatLon 0 0).
    { rewrite Hdata, (element_data_of_bytes _ _ Hid' (Hinv id)).
      rewrite (Hkeep id Hnot). apply Hzero. }
    rewrite (RawMem_GetPoint_spec id rd Hid').
    + rewrite Hel. reflexivity.
    + rewrite Hel. split; reflexivity.
Qed.

Lemma dense_GetPoint_witness :
  exists st,
    RawFilePointStorage.add_all [(5, 55.75%float, 37.625%float)]
      (RawFilePointStorage.create "nodes") = Ok st [] /\
    RawFilePointStorage.GetPoint 5
      (RawFilePointStorage.open (RawFilePointStorage.close st))
    = Ok (Some (55.75%float, 37.625%float)) [] /\
    RawFilePointStorage.GetPoint 6
      (RawFilePointStorage.open (RawFilePointStorage.close st))
    = Ok None [(LERROR, [Txt "Node with id = "; Num 6; Txt " not found!"])].
Proof.
  set (st := RawFilePointStorage.mk
               (fw_Write (LatLon_bytes (mkLatLon 557500000 376250000))
                  (fw_Seek 40 (fw_open "nodes"))) 1).
  assert (Hrun : RawFilePointStorage.add_all [(5, 55.75%float, 37.625%float)]
                   (RawFilePointStorage.create "nodes") = Ok st [])
    by (by vm_compute).
  destruct dense_GetPoint as (_ & Hrec & _ & _ & _ & Hmiss & _).
  exists st. split; [exact Hrun|]. split.
  - rewrite (Hrec 5) by lia. by vm_compute.
  - apply (Hmiss "nodes"%string [(5, 55.75%float, 37.625%float)] st [] 6 Hrun); [lia|].
    unfold point_ids. cbn [fmap list_fmap fst].
    apply not_elem_of_cons. split; [by vm_compute|apply not_elem_of_nil].
Defined.

(** The claim as first stated fails for ids the storages cannot address.
    After a pass that wrote the id 5 alone, the id [2^61 + 5] was never
    written, yet the [RawFilePointStorage] reader answers it with the point
    of id 5 (its offset [id * 8] wraps to 40), and [RawMemPointStorage]
    indexes its array far outside its [2^32 - 1] elements. *)
Lemma dense_GetPoint_counterexample :
  (2 ^ 61 + 5 ∉ point_ids [(5, 55.75%float, 37.625%float)]) /\
  (exists st,
     RawFilePointStorage.add_all [(5, 55.75%float, 37.625%float)]
       (RawFilePointStorage.create "nodes") = Ok st [] /\
     RawFilePointStorage.GetPoint (2 ^ 61 + 5)
       (RawFilePointStorage.open (RawFilePointStorage.close st))
     = Ok (Some (55.75%float, 37.625%float)) []) /\
  (exists st rd,
     RawMemPointStorage.add_all [(5, 55.75%float, 37.625%float)]
       (RawMemPointStorage.create "nodes") = Ok st [] /\
     RawMemPointStorage.open (RawMemPointStorage.close st) = Ok rd [] /\
     RawMemPointStorage.GetPoint (2 ^ 61 + 5) rd = Undefined).
Proof.
  split; [|split].
  - unfold point_ids. cbn [fmap list_fmap fst].
    apply not_elem_of_cons. split; [by vm_compute|apply not_elem_of_nil].
  - eexists (RawFilePointStorage.mk
               (fw_Write (LatLon_bytes (mkLatLon 557500000 376250000))
                  (fw_Seek 40 (fw_open "nodes"))) 1).
    split; by vm_compute.
  - set (st := RawMemPointStorage.mk (fw_open "nodes")
                 (<[5 := mkLatLon 557500000 376250000]> ∅) 1).
    destruct (RawMem_reopen st eq_refl eq_refl) as (rd & Hopen & _).
    exists st, rd. split; [by vm_compute|]. split; [exact Hopen|].
    apply RawMem_GetPoint_outside. unfold RawMemPointStorage.kDataSize. lia.
Qed.

(** ** MapFilePointStorage: the first record of an id is the one kept *)

Lemma CHECK_EQUAL_Ok_inv (a b : Z) (msg : list LogPart) (u : unit) (log : list LogEntry) :
  CHECK_EQUAL a b msg = Ok u log -> a = b.
Proof. unfold CHECK_EQUAL. destruct (Z.eqb_spec a b); [done|discriminate]. Qed.

Lemma double_to_int64_scaled (x : float) (a : Z) (l : list LogEntry) :
  double_to_int64 (x * kValueOrder)%float = Ok a l -> scaled x = a.
Proof. unfold scaled. by intros ->. Qed.

Lemma length_LatLonPos_bytes (r : LatLonPos) : length (LatLonPos_bytes r) = 16%nat.
Proof. unfold LatLonPos_bytes. by rewrite !length_app, !length_le_bytes. Qed.

Lemma LatLonPos_of_bytes_LatLonPos_bytes (r : LatLonPos) :
  well_formed_record r -> LatLonPos_of_bytes (LatLonPos_bytes r) = r.
Proof.
  destruct r as [p a b]. intros (Hp & Ha & Hb).
  cbn [PointStorage.pos pos_lat pos_lon] in *.
  unfold LatLonPos_of_bytes, LatLonPos_bytes. cbn [PointStorage.pos pos_lat pos_lon].
  rewrite take_app_length' by (by rewrite length_le_bytes).
  rewrite drop_app_length' by (by rewrite length_le_bytes).
  rewrite take_app_length' by (by rewrite length_le_bytes).
  replace (drop 12 (le_bytes 8 p ++ le_bytes 4 a ++ le_bytes 4 b)) with (le_bytes 4 b).
  2:{ rewrite app_assoc, drop_app_length'; [done|].
      by rewrite length_app, !length_le_bytes. }
  rewrite firstn_all2 by (by rewrite length_le_bytes).
  rewrite le_value_le_bytes_small by (unfold is_u64 in Hp; cbn; lia).
  by rewrite !le_int32_le_bytes, !to_int32_fits.
Qed.

Lemma MapFile_AddPoint_inv (id : Z) (lat lng : float)
    (st st' : MapFilePointStorage.t FileWriter) (log : list LogEntry) :
  MapFilePointStorage.AddPoint id lat lng st = Ok st' log ->
  fits_int32 (scaled lat) = true /\ fits_int32 (scaled lng) = true /\
  MapFilePointStorage.m_file st'
  = fw_Write (LatLonPos_bytes (point_record (id, lat, lng)))
      (MapFilePointStorage.m_file st).
Proof.
  unfold MapFilePointStorage.AddPoint. intros Heq. run_inv Heq.
  injection Heq as <- _.
  cbn [pos_lat pos_lon] in *.
  apply CHECK_EQUAL_Ok_inv in Hm1, Hm2.
  apply double_to_int64_scaled in Hm, Hm0. subst.
  pose proof (to_int32_range (scaled lat)) as H1. rewrite Hm1 in H1.
  pose proof (to_int32_range (scaled lng)) as H2. rewrite Hm2 in H2.
  split; [done|]. split; [done|].
  cbn [MapFilePointStorage.m_file]. unfold point_record. cbn [fst snd].
  by rewrite Hm1, Hm2.
Qed.

Lemma MapFile_add_all_file (ps : list (Z * float * float))
    (st st' : MapFilePointStorage.t FileWriter) (log : list LogEntry) :
  fw_pos (MapFilePointStorage.m_file st) = length (fw_data (MapFilePointStorage.m_file st)) ->
  MapFilePointStorage.add_all ps st = Ok st' log ->
  fw_data (MapFilePointStorage.m_file st')
  = fw_data (MapFilePointStorage.m_file st)
    ++ flat_map LatLonPos_bytes (point_record <$> ps) /\
  fw_name (MapFilePointStorage.m_file st') = fw_name (MapFilePointStorage.m_file st) /\
  Forall (fun p => fits_int32 (scaled p.1.2) = true /\ fits_int32 (scaled p.2) = true) ps.
Proof.
  revert st log. induction ps as [|[[id lat] lng] ps IH]; intros st log Hend Hrun.
  - injection Hrun as <- _. cbn. by rewrite app_nil_r.
  - cbn [MapFilePointStorage.add_all] in Hrun.
    apply bind_Ok_inv in Hrun as (st1 & l1 & l2 & E1 & E2 & _).
    destruct (MapFile_AddPoint_inv _ _ _ _ _ _ E1) as (Ha & Hb & Hf).
    destruct (fw_Write_append (LatLonPos_bytes (point_record (id, lat, lng)))
                _ Hend) as [Hd Hp].
    rewrite <- Hf in Hd, Hp.
    destruct (IH st1 l2 Hp E2) as (Hd' & Hn' & Hall).
    rewrite Hd', Hd, Hn', Hf, <- app_assoc. cbn [fmap list_fmap flat_map].
    split; [done|]. split; [done|]. by constructor.
Qed.

Lemma read_loop_spec (file : FileReader) (done left : list LatLonPos) (fuel : nat)
    (m : gmap Z (Z * Z)) :
  fr_data file = flat_map LatLonPos_bytes (done ++ left) ->
  Forall well_formed_record left ->
  fr_Size file < 2 ^ 64 ->
  (length left < fuel)%nat ->
  MapFilePointStorage.read_loop fuel file (fr_Size file)
    (16 * Z.of_nat (length done)) m
  = Ok (foldl map_step m left) [].
Proof.
  revert done fuel m. induction left as [|r left IH]; intros done fuel m Hdata Hwf Hsz Hfuel.
  - destruct fuel as [|fuel]; [lia|]. cbn [MapFilePointStorage.read_loop].
    assert (Hlen : fr_Size file = 16 * Z.of_nat (length done)).
    { unfold fr_Size. rewrite Hdata, app_nil_r.
      rewrite (length_flat_map_const _ 16) by apply length_LatLonPos_bytes. lia. }
    rewrite Hlen, Z.ltb_irrefl. done.
  - destruct fuel as [|fuel]; [cbn in Hfuel; lia|]. cbn [MapFilePointStorage.read_loop].
    apply Forall_cons in Hwf as [Hr Hwf].
    assert (Hsplit : fr_data file
                     = flat_map LatLonPos_bytes done ++ LatLonPos_bytes r
                       ++ flat_map LatLonPos_bytes left).
    { rewrite Hdata, flat_map_app. done. }
    assert (Hdone : length (flat_map LatLonPos_bytes done) = (16 * length done)%nat)
      by (apply length_flat_map_const, length_LatLonPos_bytes).
    assert (Hlen : fr_Size file
                   = 16 * Z.of_nat (length done) + 16
                     + 16 * Z.of_nat (length left)).
    { unfold fr_Size. rewrite Hsplit, !length_app, Hdone, length_LatLonPos_bytes.
      rewrite (length_flat_map_const _ 16) by apply length_LatLonPos_bytes. lia. }
    rewrite (proj2 (Z.ltb_lt _ _)) by lia.
    unfold sizeof_LatLonPos. rewrite fr_Read_inside by lia.
    cbn [mbind run_mbind run_bind app].
    assert (Hrec : take 16 (drop (Z.to_nat (16 * Z.of_nat (length done))) (fr_data file))
                   = LatLonPos_bytes r).
    { replace (Z.to_nat (16 * Z.of_nat (length done)))
        with (length (flat_map LatLonPos_bytes done)) by lia.
      rewrite Hsplit.
      pose proof (slice_middle (flat_map LatLonPos_bytes done) (LatLonPos_bytes r)
                    (flat_map LatLonPos_bytes left)) as Hs.
      rewrite length_LatLonPos_bytes in Hs. exact Hs. }
    change (Z.to_nat 16) with 16%nat.
    rewrite Hrec, LatLonPos_of_bytes_LatLonPos_bytes by done.
    unfold wrap64. rewrite Z.mod_small by lia.
    replace (16 * Z.of_nat (length done) + 16)
      with (16 * Z.of_nat (length (done ++ [r])))
      by (rewrite length_app; cbn [length]; lia).
    rewrite (IH (done ++ [r]) fuel).
    + done.
    + by rewrite <- app_assoc.
    + done.
    + done.
    + cbn [length] in Hfuel. lia.
Qed.

Lemma foldl_map_step_lookup (recs : list LatLonPos) (m : gmap Z (Z * Z)) (id : Z) :
  foldl map_step m recs !! id
  = match m !! id with
    | Some v => Some v
    | None =>
        (fun r => (pos_lat r, pos_lon r))
          <$> head (filter (fun r => PointStorage.pos r = id) recs)
    end.
Proof.
  revert m. induction recs as [|r recs IH]; intros m.
  - cbn. by destruct (m !! id).
  - cbn [foldl]. rewrite IH. unfold map_step, MapFilePointStorage.emplace.
    destruct (decide (PointStorage.pos r = id)) as [He|Hne].
    + rewrite filter_cons_True by done. subst id.
      destruct (m !! PointStorage.pos r) as [v|] eqn:E.
      * by rewrite E.
      * by rewrite lookup_insert_eq.
    + rewrite filter_cons_False by done.
      destruct (m !! PointStorage.pos r) as [v|] eqn:E; [done|].
      by rewrite lookup_insert_ne.
Qed.

Lemma first_point_record (id : Z) (ps : list (Z * float * float)) :
  head (filter (fun r => PointStorage.pos r = id) (point_record <$> ps))
  = point_record <$> first_point id ps.
Proof.
  induction ps as [|p ps IH]; [done|].
  cbn [fmap list_fmap first_point].
  destruct (decide (p.1.1 = id)) as [He|Hne].
  - by rewrite filter_cons_True.
  - by rewrite filter_cons_False.
Qed.

Lemma RawMem_AddPoint_stored (id : Z) (lat lng : float)
    (st st' : RawMemPointStorage.t FileWriter) (log : list LogEntry) :
  RawMemPointStorage.AddPoint id lat lng st = Ok st' log ->
  RawMemPointStorage.m_data st'
  = <[id := mkLatLon (scaled lat) (scaled lng)]> (RawMemPointStorage.m_data st).
Proof.
  unfold RawMemPointStorage.AddPoint. intros Heq. run_inv Heq.
  injection Heq as <- _.
  cbn [PointStorage.lat PointStorage.lon] in *.
  apply CHECK_EQUAL_Ok_inv in Hm2, Hm3.
  apply double_to_int64_scaled in Hm, Hm0. subst.
  cbn [RawMemPointStorage.m_data]. by rewrite Hm2, Hm3.
Qed.

Lemma RawMem_add_all_last (ps : list (Z * float * float))
    (st st' : RawMemPointStorage.t FileWriter) (log : list LogEntry) (id : Z) :
  RawMemPointStorage.add_all ps st = Ok st' log ->
  RawMemPointStorage.element (RawMemPointStorage.m_data st') id
  = match last_point id ps with
    | Some p => mkLatLon (scaled p.1.2) (scaled p.2)
    | None => RawMemPointStorage.element (RawMemPointStorage.m_data st) id
    end.
Proof.
  revert st log. induction ps as [|[[id' lat] lng] ps IH]; intros st log Hrun.
  - injection Hrun as <- _. done.
  - cbn [RawMemPointStorage.add_all] in Hrun.
    apply bind_Ok_inv in Hrun as (st1 & l1 & l2 & E1 & E2 & _).
    rewrite (IH _ _ E2). cbn [last_point fst snd].
    destruct (last_point id ps) as [q|]; [done|].
    rewrite (RawMem_AddPoint_stored _ _ _ _ _ _ E1).
    unfold RawMemPointStorage.element.
    destruct (decide (id' = id)) as [->|Hne].
    + by rewrite lookup_insert_eq.
    + by rewrite lookup_insert_ne.
Qed.

Lemma records_well_formed (ps : list (Z * float * float)) :
  Forall is_u64 (point_ids ps) ->
  Forall (fun p => fits_int32 (scaled p.1.2) = true /\ fits_int32 (scaled p.2) = true) ps ->
  Forall well_formed_record (point_record <$> ps).
Proof.
  induction ps as [|p ps IH]; intros Hids Hall; [constructor|].
  unfold point_ids in Hids. cbn [fmap list_fmap] in Hids.
  apply Forall_cons in Hids as [Hid Hids]. apply Forall_cons in Hall as [[Ha Hb] Hall].
  cbn [fmap list_fmap]. constructor; [by split|by apply IH].
Qed.

(** C9. When [AddPoint] was called several times under one id during the write
    pass of a [MapFilePointStorage], the reader built from the [.short]
    file answers [GetPoint(id)] with the coordinates of the earliest call
    (the hash map keeps the first record of an id and ignores the later
    ones), and with false for an id no call was made under; in the dense
    [RawMemPointStorage] it is the last call that stays. *)
Theorem MapFile_first_record_wins (name : string) (ps : list (Z * float * float)) :
  (forall (st : MapFilePointStorage.t FileWriter) (log : list LogEntry),
     Forall is_u64 (point_ids ps) ->
     16 * Z.of_nat (length ps) < 2 ^ 64 ->
     MapFilePointStorage.add_all ps (MapFilePointStorage.create name) = Ok st log ->
     exists rd log',
       MapFilePointStorage.open (MapFilePointStorage.close st) = Ok rd log' /\
       forall id,
         MapFilePointStorage.GetPoint id rd = decoded <$> first_point id ps) /\
  (forall (st : RawMemPointStorage.t FileWriter) (log : list LogEntry) (id : Z),
     RawMemPointStorage.add_all ps (RawMemPointStorage.create name) = Ok st log ->
     RawMemPointStorage.element (RawMemPointStorage.m_data st) id
     = match last_point id ps with
       | Some p => mkLatLon (scaled p.1.2) (scaled p.2)
       | None => mkLatLon 0 0
       end).
Proof.
  split.
  - intros st log Hids Hfit Hrun.
    destruct (MapFile_add_all_file ps (MapFilePointStorage.create name) st log eq_refl Hrun)
      as (Hd & Hn & Hall).
    cbn [MapFilePointStorage.create MapFilePointStorage.m_file fw_open fw_data app] in Hd.
    set (recs := point_record <$> ps) in *.
    assert (Hwf : Forall well_formed_record recs)
      by (by apply records_well_formed).
    unfold MapFilePointStorage.open, MapFilePointStorage.close.
    cbn [mbind run_mbind run_bind LOG app].
    set (file := fr_open (fw_close (MapFilePointStorage.m_file st))).
    assert (Hfile : fr_data file = flat_map LatLonPos_bytes ([] ++ recs)) by exact Hd.
    assert (Hlen : length (fr_data file) = (16 * length ps)%nat).
    { rewrite Hfile, app_nil_l.
      rewrite (length_flat_map_const _ 16) by apply length_LatLonPos_bytes.
      unfold recs. by rewrite length_fmap. }
    rewrite (read_loop_spec file [] recs (S (length (fr_data file))) ∅ Hfile Hwf).
    + cbn [mbind run_mbind run_bind mret run_mret app].
      eexists _, _. split; [reflexivity|]. intros id.
      unfold MapFilePointStorage.GetPoint. cbn [MapFilePointStorage.m_map].
      rewrite foldl_map_step_lookup, lookup_empty.
      unfold recs. rewrite first_point_record.
      by destruct (first_point id ps) as [[[id' lat] lng]|].
    + unfold fr_Size. lia.
    + unfold recs. rewrite length_fmap. lia.
  - intros st log id Hrun. rewrite (RawMem_add_all_last _ _ _ _ id Hrun).
    destruct (last_point id ps); [done|].
    unfold RawMemPointStorage.element.
    cbn [RawMemPointStorage.create RawMemPointStorage.m_data].
    by rewrite lookup_empty.
Qed.

Lemma MapFile_first_record_wins_witness :
  exists st log rd log',
    MapFilePointStorage.add_all
      [(10000000000, 1.5%float, 2.5%float); (10000000001, 3%float, 4%float);
       (10000000000, 7%float, 8%float)]
      (MapFilePointStorage.create "nodes") = Ok st log /\
    MapFilePointStorage.open (MapFilePointStorage.close st) = Ok rd log' /\
    MapFilePointStorage.GetPoint 10000000000 rd = Some (1.5%float, 2.5%float) /\
    MapFilePointStorage.GetPoint 10000000002 rd = None.
Proof.
  destruct (MapFilePointStorage.add_all
              [(10000000000, 1.5%float, 2.5%float); (10000000001, 3%float, 4%float);
               (10000000000, 7%float, 8%float)]
              (MapFilePointStorage.create "nodes")) as [st log| |] eqn:Hrun;
    [|by vm_compute in Hrun..].
  destruct (MapFile_first_record_wins "nodes"
              [(10000000000, 1.5%float, 2.5%float); (10000000001, 3%float, 4%float);
               (10000000000, 7%float, 8%float)]) as [Hmap _].
  destruct (Hmap st log) as (rd & log' & Hopen & Hget).
  - unfold point_ids. cbn [fmap list_fmap fst].
    repeat (apply Forall_cons_2; [unfold is_u64; lia|]). constructor.
  - cbn [length]. lia.
  - exact Hrun.
  - exists st, log, rd, log'. split; [done|]. split; [exact Hopen|].
    rewrite !Hget. by vm_compute.
Defined.

(** * Further properties of the code *)

(** ** The comparator of the index *)

(** X1. [ElementComparator] on entries is a strict total order (never true
    of an entry and itself, transitive, and two entries neither of which
    comes before the other are the same entry), and its two mixed
    operators agree with it: an entry that comes before a key comes before
    every entry of that key, and a key that comes before an entry puts
    every entry of that key before it. *)
Theorem ElementComparator_strict_order :
  (forall r, IndexFile.comp_elem r r = false) /\
  (forall r1 r2 r3,
     IndexFile.comp_elem r1 r2 = true -> IndexFile.comp_elem r2 r3 = true ->
     IndexFile.comp_elem r1 r3 = true) /\
  (forall r1 r2,
     IndexFile.comp_elem r1 r2 = false -> IndexFile.comp_elem r2 r1 = false ->
     r1 = r2) /\
  (forall r k v,
     IndexFile.comp_elem_key r k = true -> IndexFile.comp_elem r (k, v) = true) /\
  (forall r k v,
     IndexFile.comp_key_elem k r = true -> IndexFile.comp_elem (k, v) r = true).
Proof.
  unfold IndexFile.comp_elem, IndexFile.comp_elem_key, IndexFile.comp_key_elem.
  repeat split.
  - intros [k v]. cbn [fst snd]. rewrite Z.eqb_refl. apply Z.ltb_irrefl.
  - intros [k1 v1] [k2 v2] [k3 v3]. cbn [fst snd].
    destruct (Z.eqb_spec k1 k2), (Z.eqb_spec k2 k3), (Z.eqb_spec k1 k3);
      rewrite ?Z.ltb_lt; lia.
  - intros [k1 v1] [k2 v2]. cbn [fst snd].
    destruct (Z.eqb_spec k1 k2), (Z.eqb_spec k2 k1);
      rewrite ?Z.ltb_ge; intros; f_equal; lia.
  - intros [k1 v1] k v. cbn [fst snd].
    destruct (Z.eqb_spec k1 k); rewrite ?Z.ltb_lt; lia.
  - intros [k1 v1] k v. cbn [fst snd].
    destruct (Z.eqb_spec k k1); rewrite ?Z.ltb_lt; lia.
Qed.

Lemma ElementComparator_strict_order_witness :
  IndexFile.comp_elem (10, 50) (20, 200) = true /\
  IndexFile.comp_elem (5, 50) (10, 7) = true.
Proof.
  destruct ElementComparator_strict_order as (_ & Htrans & _ & Hkey & _).
  split.
  - apply (Htrans (10, 50) (10, 100) (20, 200)); reflexivity.
  - apply (Hkey (5, 50) 10 7). reflexivity.
Defined.

(** ** Buffering in the index writer *)

Lemma Add_buffer_bound (k v : Z) (idx : IndexFile.t FileWriter) :
  (length (IndexFile.m_elements (IndexFile.Add k v idx)) <= IndexFile.kFlushCount + 1)%nat.
Proof.
  unfold IndexFile.Add.
  destruct (IndexFile.kFlushCount <? length (IndexFile.m_elements idx))%nat eqn:E.
  - unfold IndexFile.push_back, IndexFile.WriteAll.
    destruct (IndexFile.m_elements idx) as [|e l] eqn:El.
    + rewrite El. cbn. lia.
    + cbn. lia.
  - apply Nat.ltb_ge in E. unfold IndexFile.push_back.
    cbn [IndexFile.m_elements]. rewrite length_app. cbn [length]. lia.
Qed.

Lemma add_all_snoc (adds : list IndexFile.TElement) (e : IndexFile.TElement)
    (idx : IndexFile.t FileWriter) :
  IndexFile.add_all (adds ++ [e]) idx
  = IndexFile.Add e.1 e.2 (IndexFile.add_all adds idx).
Proof. unfold IndexFile.add_all. by rewrite foldl_app. Qed.

Lemma add_all_below_threshold (adds : list IndexFile.TElement)
    (idx : IndexFile.t FileWriter) :
  (length (IndexFile.m_elements idx) + length adds <= IndexFile.kFlushCount + 1)%nat ->
  IndexFile.add_all adds idx
  = IndexFile.mk (IndexFile.m_elements idx ++ adds) (IndexFile.m_file idx)
      (IndexFile.m_fileSize idx).
Proof.
  revert idx. induction adds as [|[k v] adds IH]; intros idx Hlen.
  - cbn. rewrite app_nil_r. by destruct idx.
  - unfold IndexFile.add_all in *. cbn [foldl fst snd]. cbn [length] in Hlen.
    assert (Hno : (IndexFile.kFlushCount <? length (IndexFile.m_elements idx))%nat = false)
      by (apply Nat.ltb_ge; lia).
    unfold IndexFile.Add at 2. rewrite Hno. rewrite IH.
    + unfold IndexFile.push_back. cbn [IndexFile.m_elements IndexFile.m_file
                                       IndexFile.m_fileSize].
      by rewrite <- app_assoc.
    + unfold IndexFile.push_back. cbn [IndexFile.m_elements].
      rewrite length_app. cbn [length]. lia.
Qed.

(** X2. [Add] keeps at most [kFlushCount + 1] = 1025 entries in memory, and
    nothing reaches the file before that many were added: the first 1025
    entries of a fresh writer are all still in the buffer, and it is the
    next [Add] that writes them, in order, before it buffers its own
    entry. *)
Theorem Add_buffers_until_threshold (name : string) (adds : list IndexFile.TElement) :
  let idx := IndexFile.add_all adds (IndexFile.create name) in
  (length (IndexFile.m_elements idx) <= 1025)%nat /\
  ((length adds <= 1025)%nat ->
   fw_data (IndexFile.m_file idx) = [] /\ IndexFile.m_elements idx = adds) /\
  (length adds = 1025%nat ->
   forall k v,
     fw_data (IndexFile.m_file (IndexFile.Add k v idx)) = IndexFile.elements_bytes adds /\
     IndexFile.m_elements (IndexFile.Add k v idx) = [(k, v)]).
Proof.
  intros idx. split; [|split].
  - unfold idx. destruct adds as [|e adds] using rev_ind; [cbn; lia|].
    rewrite add_all_snoc. apply Add_buffer_bound.
  - intros Hlen. unfold idx.
    rewrite add_all_below_threshold by (cbn; unfold IndexFile.kFlushCount; lia).
    done.
  - intros Hlen k v. unfold idx.
    rewrite add_all_below_threshold by (cbn; unfold IndexFile.kFlushCount; lia).
    unfold IndexFile.Add. cbn [IndexFile.m_elements IndexFile.create app].
    rewrite Hlen. change (IndexFile.kFlushCount <? 1025)%nat with true. cbn iota.
    destruct adds as [|e adds]; [done|].
    unfold IndexFile.WriteAll, IndexFile.push_back.
    cbn [IndexFile.m_elements IndexFile.m_file IndexFile.create app].
    destruct (fw_Write_append (IndexFile.elements_bytes (e :: adds)) (fw_open name)
                eq_refl) as [Hd _].
    rewrite Hd. done.
Qed.

Lemma Add_buffers_until_threshold_witness :
  let adds := replicate 1025 (7, 9) in
  let idx := IndexFile.add_all adds (IndexFile.create "n.offsets") in
  fw_data (IndexFile.m_file idx) = [] /\
  Z.of_nat (length (fw_data (IndexFile.m_file (IndexFile.Add 1 2 idx)))) = 16400 /\
  IndexFile.m_elements (IndexFile.Add 1 2 idx) = [(1, 2)].
Proof.
  intros adds idx.
  destruct (Add_buffers_until_threshold "n.offsets" adds) as (_ & Hbelow & Hnext).
  destruct (Hbelow ltac:(vm_compute; lia)) as [Hfile _].
  destruct (Hnext eq_refl 1 2) as [Hflush Hbuf].
  split; [exact Hfile|]. split; [|exact Hbuf].
  fold idx in Hflush. rewrite Hflush, length_elements_bytes. reflexivity.
Defined.

(** X3. Flushes in between do not disturb the order: after any sequence of
    [Add]s and a final [WriteAll] the file holds one 16-byte record per
    call, the record at position [16 * i] being the one of the [i]-th
    call. *)
Theorem index_file_in_call_order (name : string) (adds : list IndexFile.TElement) :
  let f := IndexFile.close
             (IndexFile.WriteAll (IndexFile.add_all adds (IndexFile.create name))) in
  f_name f = name /\
  length (f_bytes f) = (16 * length adds)%nat /\
  forall (i : nat) (e : IndexFile.TElement),
    adds !! i = Some e ->
    take 16 (drop (16 * i) (f_bytes f)) = IndexFile.element_bytes e.
Proof.
  intros f. unfold f. rewrite index_file_contents. cbn [f_name f_bytes].
  split; [done|]. split; [apply length_elements_bytes|].
  intros i e Hi. unfold IndexFile.elements_bytes.
  apply chunk_of_flat_map; [apply length_element_bytes|done].
Qed.

Lemma index_file_in_call_order_witness :
  take 16 (drop 32
             (f_bytes (IndexFile.close
                         (IndexFile.WriteAll
                            (IndexFile.add_all [(10, 100); (20, 200); (10, 50)]
                               (IndexFile.create "n.offsets"))))))
  = IndexFile.element_bytes (10, 50).
Proof.
  destruct (index_file_in_call_order "n.offsets" [(10, 100); (20, 200); (10, 50)])
    as (_ & _ & Hrec).
  exact (Hrec 2%nat (10, 50) eq_refl).
Defined.

Lemma sorted_ascending (l : list IndexFile.TElement) :
  StronglySorted IndexFile.sorted_before l ->
  StronglySorted (fun r1 r2 => r1.1 < r2.1 \/ (r1.1 = r2.1 /\ r1.2 <= r2.2)) l.
Proof.
  induction 1 as [|r l Hs IH Hall]; constructor; [exact IH|].
  eapply Forall_impl; [exact Hall|]. intros r' Hr'. by apply sorted_before_iff.
Qed.

(** X4. What [ReadAll] leaves in memory after a writer's pass is the added
    entries themselves, each as often as it was added, in ascending order
    of key and then of value; [m_fileSize] is 16 bytes per entry. *)
Theorem loaded_index_sorted (name : string) (adds : list IndexFile.TElement) :
  Forall u64_element adds ->
  16 * Z.of_nat (length adds) < 2 ^ 64 ->
  exists idx log,
    IndexFile.ReadAll true
      (IndexFile.open
         (IndexFile.close
            (IndexFile.WriteAll (IndexFile.add_all adds (IndexFile.create name)))))
    = Ok idx log /\
    IndexFile.m_elements idx ≡ₚ adds /\
    StronglySorted
      (fun r1 r2 => r1.1 < r2.1 \/ (r1.1 = r2.1 /\ r1.2 <= r2.2))
      (IndexFile.m_elements idx) /\
    IndexFile.m_fileSize idx = 16 * Z.of_nat (length adds).
Proof.
  intros Hu Hfit. destruct (reload_after_adds name adds Hu Hfit) as [log Hr].
  eexists _, log. split; [exact Hr|]. cbn [IndexFile.m_elements IndexFile.m_fileSize].
  split; [apply std_sort_perm|]. split; [|done].
  apply sorted_ascending, std_sort_sorted.
Qed.

Lemma loaded_index_sorted_witness :
  exists idx log,
    IndexFile.ReadAll true
      (IndexFile.open
         (IndexFile.close
            (IndexFile.WriteAll
               (IndexFile.add_all [(10, 100); (20, 200); (10, 50); (10, 100)]
                  (IndexFile.create "n.offsets")))))
    = Ok idx log /\
    IndexFile.m_elements idx = [(10, 50); (10, 100); (10, 100); (20, 200)].
Proof.
  destruct (loaded_index_sorted "n.offsets" [(10, 100); (20, 200); (10, 50); (10, 100)])
    as (idx & log & Hr & _).
  - repeat (apply Forall_cons_2; [unfold u64_element, is_u64; cbn; lia|]). constructor.
  - cbn. lia.
  - exists idx, log. split; [exact Hr|].
    vm_compute in Hr. injection Hr as <- _. reflexivity.
Defined.

(** ** The element cache: layout of its files, and lookups that miss *)

Section cache_extras.
Context {V : Type} `{Payload V}.

Lemma offset_entries_lookup (ws : list (Z * V)) (pos i : nat) (id : Z) (v : V) :
  ws !! i = Some (id, v) ->
  offset_entries pos ws !! i
  = Some (id, Z.of_nat (pos + length (payload_file (take i ws)))).
Proof.
  revert pos i. induction ws as [|[id' v'] ws IH]; intros pos i Hi; [done|].
  destruct i as [|i].
  - injection Hi as -> ->. cbn. by rewrite Nat.add_0_r.
  - cbn [lookup list_lookup] in Hi. cbn [offset_entries take lookup list_lookup].
    rewrite (IH _ _ Hi), payload_file_cons, length_app. cbn [snd].
    do 3 f_equal. lia.
Qed.

Lemma record_at_offset (ws : list (Z * V)) (i : nat) (id : Z) (v : V) :
  ws !! i = Some (id, v) ->
  take (length (record_bytes v))
       (drop (length (payload_file (take i ws))) (payload_file ws))
  = record_bytes v.
Proof.
  intros Hi. rewrite <- (take_drop_middle ws i (id, v) Hi) at 2.
  rewrite payload_file_app, payload_file_cons. cbn [snd]. apply slice_middle.
Qed.

(** The files a pass of writes and [SaveOffsets] leave. *)
Lemma files_after_pass (name : string) (ws : list (Z * V)) (preload : bool) :
  writable ws ->
  exists c,
    OSMElementCache.write_all ws (OSMElementCache.create name preload) = Ok c [] /\
    OSMElementCache.close (OSMElementCache.SaveOffsets c)
    = ({| f_name := name; f_bytes := payload_file ws |},
       {| f_name := String.append name OSMElementCache.OFFSET_EXT;
          f_bytes := IndexFile.elements_bytes (offset_entries 0 ws) |}).
Proof.
  intros (Hid & Hsmall & Hfit & Hidx).
  destruct (write_all_spec ws (OSMElementCache.create name preload))
    as (c & Hw & Hd & Hn & Hwp & He & Hon); [done..|].
  exists c. split; [exact Hw|].
  destruct (WriteAll_flushes _ He) as (Hflush & _ & _).
  unfold OSMElementCache.close, OSMElementCache.SaveOffsets, IndexFile.close, fw_close.
  cbn [OSMElementCache.m_storage OSMElementCache.m_offsets].
  rewrite Hflush, WriteAll_name, Hd, Hn, Hwp, Hon. done.
Qed.

(** X5. After a pass of [Write] calls and [SaveOffsets], the payload file is
    the records [size (4 bytes)][bytes] of the calls in their order, and
    the index file holds one entry per call, in order, whose value is the
    position in the payload file at which the record of that call
    starts. *)
Theorem cache_files_layout (name : string) (ws : list (Z * V)) (preload : bool) :
  writable ws ->
  exists c,
    OSMElementCache.write_all ws (OSMElementCache.create name preload) = Ok c [] /\
    OSMElementCache.close (OSMElementCache.SaveOffsets c)
    = ({| f_name := name; f_bytes := payload_file ws |},
       {| f_name := String.append name OSMElementCache.OFFSET_EXT;
          f_bytes := IndexFile.elements_bytes (offset_entries 0 ws) |}) /\
    forall (i : nat) (id : Z) (v : V),
      ws !! i = Some (id, v) ->
      let pos := length (payload_file (take i ws)) in
      offset_entries 0 ws !! i = Some (id, Z.of_nat pos) /\
      take 4 (drop pos (payload_file ws))
        = le_bytes 4 (Z.of_nat (length (value_Write v))) /\
      take (length (value_Write v)) (drop (pos + 4) (payload_file ws)) = value_Write v.
Proof.
  intros Hw. destruct (files_after_pass name ws preload Hw) as (c & Hrun & Hfiles).
  exists c. split; [exact Hrun|]. split; [exact Hfiles|].
  intros i id v Hi pos. split; [by rewrite (offset_entries_lookup ws 0 i id v Hi)|].
  pose proof (record_at_offset ws i id v Hi) as Hrec. fold pos in Hrec.
  rewrite length_record_bytes in Hrec. unfold record_bytes in Hrec.
  assert (Hlen : (4 + length (value_Write v) <= length (drop pos (payload_file ws)))%nat).
  { apply (f_equal length) in Hrec.
    rewrite length_take, length_app, length_le_bytes in Hrec. lia. }
  split.
  - apply (f_equal (take 4)) in Hrec. rewrite take_take in Hrec.
    rewrite Nat.min_l in Hrec by lia.
    rewrite Hrec. by rewrite take_app_length' by (by rewrite length_le_bytes).
  - rewrite <- drop_drop, take_drop_commute, Hrec.
    by rewrite drop_app_length' by (by rewrite length_le_bytes).
Qed.
End cache_extras.

Lemma cache_files_layout_witness :
  exists c,
    OSMElementCache.write_all
      [(1, list_byte_of_string "alpha"); (1000000, list_byte_of_string "beta")]
      (OSMElementCache.create "nodes" false) = Ok c [] /\
    f_bytes (OSMElementCache.close (OSMElementCache.SaveOffsets c)).1
    = le_bytes 4 5 ++ list_byte_of_string "alpha"
      ++ le_bytes 4 4 ++ list_byte_of_string "beta" /\
    f_bytes (OSMElementCache.close (OSMElementCache.SaveOffsets c)).2
    = IndexFile.elements_bytes [(1, 0); (1000000, 9)].
Proof.
  destruct (cache_files_layout "nodes"
              [(1, list_byte_of_string "alpha"); (1000000, list_byte_of_string "beta")]
              false) as (c & Hrun & Hfiles & _).
  - solve_writable.
  - exists c. split; [exact Hrun|]. rewrite Hfiles. split; reflexivity.
Defined.

Section cache_misses.
Context {V : Type} `{Payload V}.

Lemma Read_without_offset (id : Z) (c : OSMElementCache.t FileReader) :
  IndexFile.m_elements (OSMElementCache.m_offsets c) = [] ->
  OSMElementCache.Read (V := V) id c
  = Ok (c, None) [miss_warning (IndexFile.GetFileName (OSMElementCache.m_offsets c)) id].
Proof.
  intros He. unfold OSMElementCache.Read, IndexFile.GetValueByKey. rewrite He. done.
Qed.

(** X6. [Read] of an id that no [Write] was made under returns false: the
    reader is left as it was and one warning is logged, naming the offsets
    file and the id. *)
Theorem Read_unknown_id (name : string) (ws : list (Z * V)) (preload : bool) (id : Z) :
  writable ws ->
  id ∉ ws.*1 ->
  exists r log,
    written_then_reopened name ws preload = Ok r log /\
    OSMElementCache.Read (V := V) id r
    = Ok (r, None) [miss_warning (String.append name OSMElementCache.OFFSET_EXT) id].
Proof.
  intros Hw Hid. destruct (reopened name ws preload Hw) as [log Hr].
  exists (reader_after name ws preload), log. split; [exact Hr|].
  exact (Read_miss name id ws preload
           (OSMElementCache.m_data (reader_after name ws preload)) Hid).
Qed.

(** X7. [Read] on a reader whose [LoadOffsets] was not called finds nothing:
    the constructor leaves the index in memory empty, so every id is
    answered with false and the warning, whatever the files hold. *)
Theorem Read_before_LoadOffsets (files : File * File) (preload : bool)
    (r : OSMElementCache.t FileReader) (log : list LogEntry) (id : Z) :
  OSMElementCache.open files preload = Ok r log ->
  OSMElementCache.Read (V := V) id r = Ok (r, None) [miss_warning (f_name files.2) id].
Proof.
  intros Hopen.
  assert (Hoff : OSMElementCache.m_offsets r = IndexFile.open files.2).
  { unfold OSMElementCache.open, OSMElementCache.InitStorage_Read in Hopen.
    cbn [OSMElementCache.m_preload OSMElementCache.m_storage OSMElementCache.m_offsets
         OSMElementCache.m_name] in Hopen.
    destruct preload; cbn [negb] in Hopen.
    - apply bind_Ok_inv in Hopen as (bs & l1 & l2 & _ & Hret & _).
      injection Hret as <- _. done.
    - injection Hopen as <- _. done. }
  rewrite Read_without_offset by (by rewrite Hoff).
  by rewrite Hoff.
Qed.

Lemma Write_offsets (id : Z) (v : V) (c c' : OSMElementCache.t FileWriter)
    (log : list LogEntry) :
  fw_pos (OSMElementCache.m_storage c) = length (fw_data (OSMElementCache.m_storage c)) ->
  Z.of_nat (length (fw_data (OSMElementCache.m_storage c))) < 2 ^ 64 ->
  OSMElementCache.Write id v c = Ok c' log ->
  OSMElementCache.m_offsets c'
  = IndexFile.Add id (Z.of_nat (length (fw_data (OSMElementCache.m_storage c))))
      (OSMElementCache.m_offsets c).
Proof.
  intros Hpos Hfit Hw. unfold OSMElementCache.Write in Hw.
  apply bind_Ok_inv in Hw as ([] & l1 & l2 & _ & Hret & _).
  injection Hret as <- _. cbn [OSMElementCache.m_offsets].
  unfold fw_Pos, wrap64. rewrite Hpos, Z.mod_small by lia. done.
Qed.

Lemma write_all_offsets (ws : list (Z * V)) (c : OSMElementCache.t FileWriter) :
  fw_pos (OSMElementCache.m_storage c) = length (fw_data (OSMElementCache.m_storage c)) ->
  at_end (OSMElementCache.m_offsets c) ->
  Forall (fun w => Z.of_nat (length (value_Write w.2)) < 2 ^ 32 - 1) ws ->
  Z.of_nat (length (fw_data (OSMElementCache.m_storage c)) + length (payload_file ws))
    < 2 ^ 64 ->
  exists c',
    OSMElementCache.write_all ws c = Ok c' [] /\
    fw_data (OSMElementCache.m_storage c')
      = fw_data (OSMElementCache.m_storage c) ++ payload_file ws /\
    fw_name (OSMElementCache.m_storage c') = fw_name (OSMElementCache.m_storage c) /\
    OSMElementCache.m_offsets c'
    = IndexFile.add_all
        (offset_entries (length (fw_data (OSMElementCache.m_storage c))) ws)
        (OSMElementCache.m_offsets c).
Proof.
  revert c. induction ws as [|[id v] ws IH]; intros c Hpos Hend Hsmall Hfit.
  - exists c. cbn. by rewrite app_nil_r.
  - apply Forall_cons in Hsmall as [Hv Hsmall]. cbn [snd] in Hv.
    rewrite payload_file_cons, length_app in Hfit. cbn [snd] in Hfit.
    destruct (Write_spec id v c Hpos Hend Hv ltac:(lia))
      as (c1 & Hw & Hd & Hp & Hn & _ & He & _).
    pose proof (Write_offsets id v c c1 [] Hpos ltac:(lia) Hw) as Hoff.
    destruct (IH c1 Hp He Hsmall) as (c' & Hw' & Hd' & Hn' & Hoff').
    { rewrite Hd, length_app. lia. }
    exists c'. cbn [OSMElementCache.write_all]. rewrite Hw.
    cbn [mbind run_mbind run_bind]. rewrite Hw'. cbn [app].
    split; [done|]. rewrite Hoff', Hoff, Hd', Hn', Hn, Hd, length_app, <- app_assoc.
    rewrite payload_file_cons. cbn [snd offset_entries IndexFile.add_all]. done.
Qed.

(** X8. The cache does not save its offsets by itself: after a pass of at
    most 1025 writes that ends without [SaveOffsets], the payload file
    holds every record but the index file is empty, and a reader over
    these files answers every [Read] with false. *)
Theorem unsaved_offsets_are_lost (name : string) (ws : list (Z * V)) :
  writable ws ->
  (length ws <= 1025)%nat ->
  exists c,
    OSMElementCache.write_all ws (OSMElementCache.create name false) = Ok c [] /\
    f_bytes (OSMElementCache.close c).1 = payload_file ws /\
    f_bytes (OSMElementCache.close c).2 = [] /\
    forall (preload : bool) (id : Z),
      exists r log,
        opened_and_loaded (OSMElementCache.close c) preload = Ok r log /\
        OSMElementCache.Read (V := V) id r
        = Ok (r, None) [miss_warning (String.append name OSMElementCache.OFFSET_EXT) id].
Proof.
  intros (Hid & Hsmall & Hfit & Hidx) Hlen.
  destruct (write_all_offsets ws (OSMElementCache.create name false))
    as (c & Hw & Hd & Hn & Hoff); [done..|].
  exists c. split; [exact Hw|].
  rewrite add_all_below_threshold in Hoff.
  2:{ cbn. rewrite length_offset_entries. unfold IndexFile.kFlushCount. lia. }
  cbn [OSMElementCache.create OSMElementCache.m_offsets OSMElementCache.m_storage
       IndexFile.create IndexFile.m_elements IndexFile.m_file IndexFile.m_fileSize
       fw_open fw_data fw_name app length] in Hoff, Hd, Hn.
  assert (Hfiles : OSMElementCache.close c
                   = ({| f_name := name; f_bytes := payload_file ws |},
                      {| f_name := String.append name OSMElementCache.OFFSET_EXT;
                         f_bytes := [] |})).
  { unfold OSMElementCache.close, IndexFile.close, fw_close.
    rewrite Hoff, Hd, Hn. done. }
  rewrite Hfiles. cbn [fst snd f_bytes]. split; [done|]. split; [done|].
  intros preload id. unfold opened_and_loaded, OSMElementCache.open,
    OSMElementCache.InitStorage_Read.
  cbn [fst snd OSMElementCache.m_preload OSMElementCache.m_storage
       OSMElementCache.m_offsets OSMElementCache.m_name OSMElementCache.m_data f_name].
  destruct preload; cbn [negb].
  - rewrite fr_Read_whole. cbn [mbind run_mbind run_bind mret run_mret app].
    unfold OSMElementCache.LoadOffsets. cbn [OSMElementCache.m_offsets].
    rewrite ReadAll_empty by done.
    cbn [mbind run_mbind run_bind mret run_mret app].
    eexists _, _. split; [reflexivity|]. by rewrite Read_without_offset.
  - cbn [mbind run_mbind run_bind mret run_mret app].
    unfold OSMElementCache.LoadOffsets. cbn [OSMElementCache.m_offsets].
    rewrite ReadAll_empty by done.
    cbn [mbind run_mbind run_bind mret run_mret app].
    eexists _, _. split; [reflexivity|]. by rewrite Read_without_offset.
Qed.
End cache_misses.

Lemma Read_unknown_id_witness :
  exists r log,
    written_then_reopened "nodes"
      [(1, list_byte_of_string "alpha"); (42, list_byte_of_string "gamma delta")] false
    = Ok r log /\
    OSMElementCache.Read (V := list byte) 7 r
    = Ok (r, None) [miss_warning "nodes.offsets" 7].
Proof.
  apply (Read_unknown_id "nodes"
           [(1, list_byte_of_string "alpha"); (42, list_byte_of_string "gamma delta")]
           false 7).
  - solve_writable.
  - cbn. compute_done.
Defined.

Lemma Read_before_LoadOffsets_witness :
  let files := ({| f_name := "nodes"; f_bytes := le_bytes 4 1 ++ [Byte.x61] |},
                {| f_name := "nodes.offsets";
                   f_bytes := IndexFile.elements_bytes [(1, 0)] |}) in
  exists r,
    OSMElementCache.open files true = Ok r [] /\
    OSMElementCache.Read (V := list byte) 1 r
    = Ok (r, None) [miss_warning "nodes.offsets" 1].
Proof.
  intros files. eexists. split; [reflexivity|].
  apply (Read_before_LoadOffsets files true _ []). reflexivity.
Defined.

Lemma unsaved_offsets_are_lost_witness :
  exists c,
    OSMElementCache.write_all
      [(1, list_byte_of_string "alpha"); (42, list_byte_of_string "gamma delta")]
      (OSMElementCache.create "nodes" false) = Ok c [] /\
    f_bytes (OSMElementCache.close c).2 = [] /\
    exists r log,
      opened_and_loaded (OSMElementCache.close c) false = Ok r log /\
      OSMElementCache.Read (V := list byte) 42 r
      = Ok (r, None) [miss_warning "nodes.offsets" 42].
Proof.
  destruct (unsaved_offsets_are_lost "nodes"
              [(1, list_byte_of_string "alpha"); (42, list_byte_of_string "gamma delta")])
    as (c & Hrun & _ & Hempty & Hread).
  - solve_writable.
  - cbn. lia.
  - exists c. split; [exact Hrun|]. split; [exact Hempty|]. apply (Hread false 42).
Defined.

(** ** Point storages: properties beyond the claims *)

Lemma RawFile_counter (ps : list (Z * float * float))
    (st st' : RawFilePointStorage.t FileWriter) (log : list LogEntry) :
  is_u64 (RawFilePointStorage.GetProcessedPoint st) ->
  RawFilePointStorage.add_all ps st = Ok st' log ->
  RawFilePointStorage.GetProcessedPoint st'
  = wrap64 (RawFilePointStorage.GetProcessedPoint st + Z.of_nat (length ps)).
Proof.
  unfold RawFilePointStorage.GetProcessedPoint, is_u64.
  revert st log. induction ps as [|[[id lat] lng] ps IH]; intros st log Hst Hrun.
  - injection Hrun as <- _. cbn [length]. unfold wrap64.
    rewrite Z.add_0_r, Z.mod_small; [done|lia].
  - cbn [RawFilePointStorage.add_all] in Hrun.
    apply bind_Ok_inv in Hrun as (st1 & l1 & l2 & E1 & E2 & _).
    unfold RawFilePointStorage.AddPoint in E1. run_inv E1. injection E1 as <- _.
    eapply eq_trans; [eapply IH; [|exact E2]|];
      cbn [RawFilePointStorage.m_processedPoint length];
      [unfold IncProcessedPoint, wrap64; apply Z.mod_pos_bound; lia|].
    unfold IncProcessedPoint, wrap64. rewrite Zplus_mod_idemp_l. f_equal. lia.
Qed.

Lemma RawMem_counter (ps : list (Z * float * float))
    (st st' : RawMemPointStorage.t FileWriter) (log : list LogEntry) :
  is_u64 (RawMemPointStorage.GetProcessedPoint st) ->
  RawMemPointStorage.add_all ps st = Ok st' log ->
  RawMemPointStorage.GetProcessedPoint st'
  = wrap64 (RawMemPointStorage.GetProcessedPoint st + Z.of_nat (length ps)).
Proof.
  unfold RawMemPointStorage.GetProcessedPoint, is_u64.
  revert st log. induction ps as [|[[id lat] lng] ps IH]; intros st log Hst Hrun.
  - injection Hrun as <- _. cbn [length]. unfold wrap64.
    rewrite Z.add_0_r, Z.mod_small; [done|lia].
  - cbn [RawMemPointStorage.add_all] in Hrun.
    apply bind_Ok_inv in Hrun as (st1 & l1 & l2 & E1 & E2 & _).
    unfold RawMemPointStorage.AddPoint in E1. run_inv E1. injection E1 as <- _.
    eapply eq_trans; [eapply IH; [|exact E2]|];
      cbn [RawMemPointStorage.m_processedPoint length];
      [unfold IncProcessedPoint, wrap64; apply Z.mod_pos_bound; lia|].
    unfold IncProcessedPoint, wrap64. rewrite Zplus_mod_idemp_l. f_equal. lia.
Qed.

Lemma MapFile_counter (ps : list (Z * float * float))
    (st st' : MapFilePointStorage.t FileWriter) (log : list LogEntry) :
  is_u64 (MapFilePointStorage.GetProcessedPoint st) ->
  MapFilePointStorage.add_all ps st = Ok st' log ->
  MapFilePointStorage.GetProcessedPoint st'
  = wrap64 (MapFilePointStorage.GetProcessedPoint st + Z.of_nat (length ps)).
Proof.
  unfold MapFilePointStorage.GetProcessedPoint, is_u64.
  revert st log. induction ps as [|[[id lat] lng] ps IH]; intros st log Hst Hrun.
  - injection Hrun as <- _. cbn [length]. unfold wrap64.
    rewrite Z.add_0_r, Z.mod_small; [done|lia].
  - cbn [MapFilePointStorage.add_all] in Hrun.
    apply bind_Ok_inv in Hrun as (st1 & l1 & l2 & E1 & E2 & _).
    unfold MapFilePointStorage.AddPoint in E1. run_inv E1. injection E1 as <- _.
    eapply eq_trans; [eapply IH; [|exact E2]|];
      cbn [MapFilePointStorage.m_processedPoint length];
      [unfold IncProcessedPoint, wrap64; apply Z.mod_pos_bound; lia|].
    unfold IncProcessedPoint, wrap64. rewrite Zplus_mod_idemp_l. f_equal. lia.
Qed.

(** X9. [GetProcessedPoint] counts the calls of [AddPoint] that went
    through, not the ids: after a pass on a fresh storage of any of the
    three kinds it is the number of calls (as a [size_t]), also when
    several calls were made under one id. *)
Theorem processed_points_counted (name : string) (ps : list (Z * float * float)) :
  (forall st log,
     RawFilePointStorage.add_all ps (RawFilePointStorage.create name) = Ok st log ->
     RawFilePointStorage.GetProcessedPoint st = wrap64 (Z.of_nat (length ps))) /\
  (forall st log,
     RawMemPointStorage.add_all ps (RawMemPointStorage.create name) = Ok st log ->
     RawMemPointStorage.GetProcessedPoint st = wrap64 (Z.of_nat (length ps))) /\
  (forall st log,
     MapFilePointStorage.add_all ps (MapFilePointStorage.create name) = Ok st log ->
     MapFilePointStorage.GetProcessedPoint st = wrap64 (Z.of_nat (length ps))).
Proof.
  split; [|split]; intros st log Hrun.
  - apply (RawFile_counter ps (RawFilePointStorage.create name) st log); [by vm_compute|exact Hrun].
  - apply (RawMem_counter ps (RawMemPointStorage.create name) st log); [by vm_compute|exact Hrun].
  - apply (MapFile_counter ps (MapFilePointStorage.create name) st log); [by vm_compute|exact Hrun].
Qed.

Lemma processed_points_counted_witness :
  let ps := [(5, 1.5%float, 2.5%float); (9, 3%float, 4%float); (5, 55.75%float, 37.625%float)] in
  let st := RawMemPointStorage.mk (fw_open "nodes")
              (<[5 := mkLatLon 557500000 376250000]>
                 (<[9 := mkLatLon 30000000 40000000]>
                    (<[5 := mkLatLon 15000000 25000000]> ∅))) 3 in
  RawMemPointStorage.add_all ps (RawMemPointStorage.create "nodes") = Ok st [] /\
  RawMemPointStorage.GetProcessedPoint st = 3.
Proof.
  intros ps st.
  assert (Hrun : RawMemPointStorage.add_all ps (RawMemPointStorage.create "nodes")
                 = Ok st []) by (by vm_compute).
  split; [exact Hrun|].
  destruct (processed_points_counted "nodes" ps) as (_ & Hmem & _).
  exact (Hmem st [] Hrun).
Defined.

Lemma RawMem_AddPoint_inside (id : Z) (lat lng : float)
    (st st' : RawMemPointStorage.t FileWriter) (log : list LogEntry) :
  RawMemPointStorage.AddPoint id lat lng st = Ok st' log ->
  0 <= id < RawMemPointStorage.kDataSize.
Proof.
  intros Hrun.
  destruct (decide (0 <= id < RawMemPointStorage.kDataSize)) as [Hid|Hid]; [exact Hid|].
  destruct (RawMem_AddPoint_outside id lat lng st Hid) as [_ Hno].
  destruct (Hno _ _ Hrun).
Qed.

Lemma RawMem_add_all_inside (ps : list (Z * float * float))
    (st st' : RawMemPointStorage.t FileWriter) (log : list LogEntry) :
  RawMemPointStorage.add_all ps st = Ok st' log ->
  Forall (fun id => 0 <= id < RawMemPointStorage.kDataSize) (point_ids ps).
Proof.
  revert st log. induction ps as [|[[id lat] lng] ps IH]; intros st log Hrun.
  - constructor.
  - cbn [RawMemPointStorage.add_all] in Hrun.
    apply bind_Ok_inv in Hrun as (st1 & l1 & l2 & E1 & E2 & _).
    unfold point_ids. cbn [fmap list_fmap fst]. constructor.
    + exact (RawMem_AddPoint_inside _ _ _ _ _ _ E1).
    + exact (IH _ _ E2).
Qed.

Lemma last_point_id (id : Z) (ps : list (Z * float * float)) (p : Z * float * float) :
  last_point id ps = Some p -> p.1.1 = id /\ id ∈ point_ids ps.
Proof.
  induction ps as [|q ps IH]; [done|]. cbn [last_point].
  unfold point_ids in *. cbn [fmap list_fmap].
  destruct (last_point id ps) as [r|].
  - intros Hr. destruct (IH Hr) as [H1 H2]. split; [exact H1|].
    by apply list_elem_of_further.
  - destruct (decide (q.1.1 = id)) as [Hq|Hq]; [|done].
    intros [= <-]. split; [exact Hq|]. rewrite <- Hq. apply list_elem_of_here.
Qed.

(** The reader restored from the snapshot of a pass answers for an id as
    the record the pass left under it tells. *)
Lemma RawMem_read_back (name : string) (ps : list (Z * float * float))
    (st : RawMemPointStorage.t FileWriter) (log : list LogEntry) :
  RawMemPointStorage.add_all ps (RawMemPointStorage.create name) = Ok st log ->
  exists rd,
    RawMemPointStorage.open (RawMemPointStorage.close st) = Ok rd [] /\
    forall id p,
      last_point id ps = Some p ->
      RawMemPointStorage.GetPoint id rd = dense_answer id (dense_record p).
Proof.
  intros Hrun.
  pose proof (RawMem_add_all_file _ _ _ _ Hrun) as Hfile.
  pose proof (RawMem_add_all_inside _ _ _ _ Hrun) as Hins.
  assert (Hzero : forall i,
            RawMemPointStorage.element
              (RawMemPointStorage.m_data (RawMemPointStorage.create name)) i
            = mkLatLon 0 0).
  { intros i. unfold RawMemPointStorage.element.
    cbn [RawMemPointStorage.create RawMemPointStorage.m_data].
    rewrite lookup_empty. reflexivity. }
  destruct (RawMem_add_all_data _ _ _ _ Hrun) as [Hinv _].
  { intros i. rewrite Hzero. split; reflexivity. }
  destruct (RawMem_reopen st) as (rd & Hopen & Hdata).
  { rewrite Hfile. reflexivity. }
  { rewrite Hfile. reflexivity. }
  exists rd. split; [exact Hopen|]. intros id p Hlast.
  destruct (last_point_id id ps p Hlast) as [_ Hin].
  assert (Hid : 0 <= id < RawMemPointStorage.kDataSize).
  { rewrite Forall_forall in Hins. exact (Hins id Hin). }
  assert (Hst : RawMemPointStorage.element (RawMemPointStorage.m_data st) id
                = dense_record p).
  { rewrite (RawMem_add_all_last _ _ _ _ id Hrun), Hlast. reflexivity. }
  assert (Hel : RawMemPointStorage.element (RawMemPointStorage.m_data rd) id
                = dense_record p).
  { rewrite Hdata, (element_data_of_bytes _ _ Hid (Hinv id)). exact Hst. }
  pose proof (Hinv id) as Hfields. rewrite Hst in Hfields.
  rewrite (RawMem_GetPoint_spec id rd Hid).
  - rewrite Hel. reflexivity.
  - rewrite Hel. exact Hfields.
Qed.

(** X10. What a [RawMemPointStorage] is asked after the snapshot was
    written and read back is what the last [AddPoint] under the id
    stored: [GetPoint(id)] returns that point's coordinates cut to seven
    decimals (and false when both are cut to zero). *)
Theorem RawMem_last_write_read_back (name : string) (ps : list (Z * float * float))
    (st : RawMemPointStorage.t FileWriter) (log : list LogEntry) :
  RawMemPointStorage.add_all ps (RawMemPointStorage.create name) = Ok st log ->
  exists rd,
    RawMemPointStorage.open (RawMemPointStorage.close st) = Ok rd [] /\
    forall id p,
      last_point id ps = Some p ->
      RawMemPointStorage.GetPoint id rd
      = if (scaled p.1.2 =? 0) && (scaled p.2 =? 0)
        then Ok None [not_found_error id]
        else Ok (Some (decoded p)) [].
Proof.
  intros Hrun.
  destruct (RawMem_read_back name ps st log Hrun) as (rd & Hopen & Hget).
  exists rd. split; [exact Hopen|]. intros id p Hlast.
  rewrite (Hget id p Hlast). reflexivity.
Qed.

Lemma RawMem_last_write_read_back_witness :
  let ps := [(5, 1.5%float, 2.5%float); (9, 0%float, 0%float);
             (5, 55.75%float, 37.625%float)] in
  let st := RawMemPointStorage.mk (fw_open "nodes")
              (<[5 := mkLatLon 557500000 376250000]>
                 (<[9 := mkLatLon 0 0]>
                    (<[5 := mkLatLon 15000000 25000000]> ∅))) 3 in
  RawMemPointStorage.add_all ps (RawMemPointStorage.create "nodes") = Ok st [] /\
  exists rd,
    RawMemPointStorage.open (RawMemPointStorage.close st) = Ok rd [] /\
    RawMemPointStorage.GetPoint 5 rd = Ok (Some (55.75%float, 37.625%float)) [] /\
    RawMemPointStorage.GetPoint 9 rd = Ok None [not_found_error 9].
Proof.
  intros ps st.
  assert (Hrun : RawMemPointStorage.add_all ps (RawMemPointStorage.create "nodes")
                 = Ok st []) by (by vm_compute).
  split; [exact Hrun|].
  destruct (RawMem_last_write_read_back "nodes" ps st [] Hrun) as (rd & Hopen & Hget).
  exists rd. split; [exact Hopen|]. clear Hopen Hrun. split.
  - rewrite (Hget 5 (5, 55.75%float, 37.625%float)); [|reflexivity].
    clear Hget. vm_compute. reflexivity.
  - rewrite (Hget 9 (9, 0%float, 0%float)); [|reflexivity].
    clear Hget. vm_compute. reflexivity.
Defined.

(** *** The dense file *)

Lemma length_fw_Write (bs : list byte) (p : Z) (w : FileWriter) :
  length (fw_data (fw_Write bs (fw_Seek p w)))
  = Nat.max (length (fw_data w)) (Z.to_nat p + length bs).
Proof.
  unfold fw_Write, fw_Seek. cbn [fw_data fw_pos].
  rewrite !length_app, length_take, length_replicate, length_drop. lia.
Qed.

Lemma RawFile_AddPoint_stored (id : Z) (lat lng : float)
    (st st' : RawFilePointStorage.t FileWriter) (log : list LogEntry) :
  RawFilePointStorage.AddPoint id lat lng st = Ok st' log ->
  int32_fields (dense_record (id, lat, lng)) /\
  RawFilePointStorage.m_file st'
  = fw_Write (LatLon_bytes (dense_record (id, lat, lng)))
      (fw_Seek (wrap64 (id * sizeof_LatLon)) (RawFilePointStorage.m_file st)).
Proof.
  unfold RawFilePointStorage.AddPoint. intros Heq. run_inv Heq.
  injection Heq as <- _.
  cbn [PointStorage.lat PointStorage.lon] in *.
  apply CHECK_EQUAL_Ok_inv in Hm1, Hm2.
  apply double_to_int64_scaled in Hm, Hm0. subst.
  unfold dense_record, int32_fields.
  cbn [RawFilePointStorage.m_file PointStorage.lat PointStorage.lon fst snd].
  split; [split; [rewrite <- Hm1|rewrite <- Hm2]; apply to_int32_range|].
  by rewrite Hm1, Hm2.
Qed.

Lemma ids_end_cons (p : Z * float * float) (ps : list (Z * float * float)) :
  ids_end (p :: ps) = Z.max (p.1.1 + 1) (ids_end ps).
Proof. reflexivity. Qed.

Lemma ids_end_nonneg (ps : list (Z * float * float)) : 0 <= ids_end ps.
Proof. induction ps as [|p ps IH]; [done|]. rewrite ids_end_cons. lia. Qed.

Lemma RawFile_add_all_length (ps : list (Z * float * float))
    (st st' : RawFilePointStorage.t FileWriter) (log : list LogEntry) :
  Forall (fun id => 0 <= id < 2 ^ 61) (point_ids ps) ->
  RawFilePointStorage.add_all ps st = Ok st' log ->
  Z.of_nat (length (fw_data (RawFilePointStorage.m_file st')))
  = Z.max (Z.of_nat (length (fw_data (RawFilePointStorage.m_file st))))
          (8 * ids_end ps).
Proof.
  revert st log. induction ps as [|[[id lat] lng] ps IH]; intros st log Hids Hrun.
  - injection Hrun as <- _. cbn [ids_end foldr]. lia.
  - cbn [RawFilePointStorage.add_all] in Hrun.
    apply bind_Ok_inv in Hrun as (st1 & l1 & l2 & E1 & E2 & _).
    unfold point_ids in Hids. cbn [fmap list_fmap fst] in Hids.
    apply Forall_cons in Hids as [Hid Hids].
    rewrite (IH _ _ Hids E2).
    destruct (RawFile_AddPoint_stored _ _ _ _ _ _ E1) as [_ Hf].
    rewrite Hf, length_fw_Write, length_LatLon_bytes, ids_end_cons.
    unfold wrap64, sizeof_LatLon. rewrite Z.mod_small by lia.
    cbn [fst]. lia.
Qed.

Lemma RawFile_add_all_name (ps : list (Z * float * float))
    (st st' : RawFilePointStorage.t FileWriter) (log : list LogEntry) :
  RawFilePointStorage.add_all ps st = Ok st' log ->
  fw_name (RawFilePointStorage.m_file st') = fw_name (RawFilePointStorage.m_file st).
Proof.
  revert st log. induction ps as [|[[id lat] lng] ps IH]; intros st log Hrun.
  - injection Hrun as <- _. done.
  - cbn [RawFilePointStorage.add_all] in Hrun.
    apply bind_Ok_inv in Hrun as (st1 & l1 & l2 & E1 & E2 & _).
    rewrite (IH _ _ E2).
    destruct (RawFile_AddPoint_stored _ _ _ _ _ _ E1) as [_ Hf].
    by rewrite Hf.
Qed.

Lemma ids_end_above (id : Z) (ps : list (Z * float * float)) :
  id ∈ point_ids ps -> id + 1 <= ids_end ps.
Proof.
  induction ps as [|p ps IH]; unfold point_ids; cbn [fmap list_fmap].
  - intros Hin. by apply elem_of_nil in Hin.
  - rewrite ids_end_cons. intros [->|Hin]%elem_of_cons; [lia|].
    specialize (IH Hin). lia.
Qed.

Lemma ids_end_bound (b : Z) (ps : list (Z * float * float)) :
  0 <= b -> Forall (fun id => 0 <= id < b) (point_ids ps) -> ids_end ps <= b.
Proof.
  intros Hb. induction ps as [|p ps IH]; unfold point_ids; cbn [fmap list_fmap].
  - intros _. cbn. lia.
  - rewrite ids_end_cons. intros [Hp Hps]%Forall_cons. specialize (IH Hps). lia.
Qed.

Lemma record_after_write (id : Z) (ll : LatLon) (w : FileWriter) :
  0 <= id < 2 ^ 61 ->
  int32_fields ll ->
  file_record
    (fw_data (fw_Write (LatLon_bytes ll) (fw_Seek (wrap64 (id * sizeof_LatLon)) w))) id
  = ll.
Proof.
  intros Hid Hll. unfold file_record, wrap64, sizeof_LatLon.
  rewrite Z.mod_small by lia.
  pose proof (fw_Write_at (LatLon_bytes ll) (id * 8) w) as Hat.
  rewrite length_LatLon_bytes in Hat. rewrite Hat.
  by apply LatLon_of_bytes_LatLon_bytes.
Qed.

Lemma record_after_other_write (id j : Z) (ll : LatLon) (w : FileWriter) :
  0 <= id -> 0 <= j < 2 ^ 61 -> j <> id ->
  id * 8 + 8 <= Z.of_nat (length (fw_data w)) ->
  file_record
    (fw_data (fw_Write (LatLon_bytes ll) (fw_Seek (wrap64 (j * sizeof_LatLon)) w))) id
  = file_record (fw_data w) id.
Proof.
  intros Hid Hj Hne Hin. unfold file_record, wrap64, sizeof_LatLon.
  rewrite Z.mod_small by lia. f_equal. apply list_eq. intros i.
  destruct (decide (i < 8)%nat) as [Hi|Hi].
  - rewrite !lookup_take_lt, !lookup_drop by lia.
    rewrite fw_Write_lookup, length_LatLon_bytes.
    destruct (decide (Z.to_nat (id * 8) + i < Z.to_nat (j * 8))%nat) as [H1|H1].
    + destruct (decide (Z.to_nat (id * 8) + i < length (fw_data w))%nat); [done|lia].
    + destruct (decide (Z.to_nat (id * 8) + i < Z.to_nat (j * 8) + 8)%nat); [lia|done].
  - by rewrite !lookup_take_ge by lia.
Qed.

Lemma RawFile_add_all_record (ps : list (Z * float * float)) (id : Z)
    (st st' : RawFilePointStorage.t FileWriter) (log : list LogEntry) :
  Forall (fun i => 0 <= i < 2 ^ 61) (point_ids ps) ->
  RawFilePointStorage.add_all ps st = Ok st' log ->
  0 <= id ->
  match last_point id ps with
  | Some p =>
      file_record (fw_data (RawFilePointStorage.m_file st')) id = dense_record p
  | None =>
      id * 8 + 8 <= Z.of_nat (length (fw_data (RawFilePointStorage.m_file st))) ->
      file_record (fw_data (RawFilePointStorage.m_file st')) id
      = file_record (fw_data (RawFilePointStorage.m_file st)) id
  end.
Proof.
  revert st log. induction ps as [|[[id' lat] lng] ps IH]; intros st log Hids Hrun Hid.
  - injection Hrun as <- _. done.
  - cbn [RawFilePointStorage.add_all] in Hrun.
    apply bind_Ok_inv in Hrun as (st1 & l1 & l2 & E1 & E2 & _).
    unfold point_ids in Hids. cbn [fmap list_fmap fst] in Hids.
    apply Forall_cons in Hids as [Hid' Hids].
    specialize (IH _ _ Hids E2 Hid). cbn [last_point fst].
    destruct (last_point id ps) as [q|]; [exact IH|].
    destruct (RawFile_AddPoint_stored _ _ _ _ _ _ E1) as [Hll Hf].
    assert (Hlen : length (fw_data (RawFilePointStorage.m_file st1))
                   = Nat.max (length (fw_data (RawFilePointStorage.m_file st)))
                             (Z.to_nat (id' * 8) + 8)).
    { rewrite Hf, length_fw_Write, length_LatLon_bytes.
      unfold wrap64, sizeof_LatLon. by rewrite Z.mod_small by lia. }
    destruct (decide (id' = id)) as [->|Hne].
    + rewrite IH by lia. rewrite Hf. by apply record_after_write.
    + intros Hin. rewrite IH by lia. rewrite Hf.
      by apply record_after_other_write.
Qed.

(** What the reader of the file of a pass answers for an id a point was
    added under. *)
Lemma RawFile_read_back (name : string) (ps : list (Z * float * float))
    (st : RawFilePointStorage.t FileWriter) (log : list LogEntry)
    (id : Z) (p : Z * float * float) :
  Forall (fun i => 0 <= i < 2 ^ 61 - 1) (point_ids ps) ->
  RawFilePointStorage.add_all ps (RawFilePointStorage.create name) = Ok st log ->
  last_point id ps = Some p ->
  RawFilePointStorage.GetPoint id
    (RawFilePointStorage.open (RawFilePointStorage.close st))
  = dense_answer id (dense_record p).
Proof.
  intros Hids Hrun Hlast.
  destruct (last_point_id id ps p Hlast) as [_ Hin].
  assert (Hids' : Forall (fun i => 0 <= i < 2 ^ 61) (point_ids ps)).
  { eapply Forall_impl; [exact Hids|]. cbn beta. intros i Hi. lia. }
  assert (Hid : 0 <= id < 2 ^ 61 - 1).
  { rewrite Forall_forall in Hids. exact (Hids id Hin). }
  pose proof (RawFile_add_all_length _ _ _ _ Hids' Hrun) as Hlen.
  cbn [RawFilePointStorage.create RawFilePointStorage.m_file fw_open fw_data length]
    in Hlen.
  pose proof (ids_end_above id ps Hin) as Hlo.
  pose proof (ids_end_bound (2 ^ 61 - 1) ps ltac:(lia) Hids) as Hhi.
  pose proof (RawFile_add_all_record ps id _ _ _ Hids' Hrun ltac:(lia)) as Hrec.
  rewrite Hlast in Hrec.
  rewrite RawFile_GetPoint_spec.
  - unfold RawFilePointStorage.open, RawFilePointStorage.close, fr_open, fw_close.
    cbn [RawFilePointStorage.m_file fr_data f_bytes]. by rewrite Hrec.
  - lia.
  - unfold RawFilePointStorage.open, RawFilePointStorage.close, fr_open, fw_close,
      fr_Size, sizeof_LatLon.
    cbn [RawFilePointStorage.m_file fr_data f_bytes]. lia.
  - unfold RawFilePointStorage.open, RawFilePointStorage.close, fr_open, fw_close,
      fr_Size.
    cbn [RawFilePointStorage.m_file fr_data f_bytes]. lia.
Qed.

(** X11. The file a [RawFilePointStorage] leaves ends with the record of
    the highest id it was given: its length is 8 times one more than that
    id, whatever the order of the calls, and it is empty when there was
    no call. *)
Theorem RawFile_length (name : string) (ps : list (Z * float * float))
    (st : RawFilePointStorage.t FileWriter) (log : list LogEntry) :
  Forall (fun id => 0 <= id < 2 ^ 61 - 1) (point_ids ps) ->
  RawFilePointStorage.add_all ps (RawFilePointStorage.create name) = Ok st log ->
  f_name (RawFilePointStorage.close st) = name /\
  Z.of_nat (length (f_bytes (RawFilePointStorage.close st))) = 8 * ids_end ps.
Proof.
  intros Hids Hrun.
  assert (Hids' : Forall (fun i => 0 <= i < 2 ^ 61) (point_ids ps)).
  { eapply Forall_impl; [exact Hids|]. cbn beta. intros i Hi. lia. }
  split.
  - unfold RawFilePointStorage.close, fw_close. cbn [f_name].
    by rewrite (RawFile_add_all_name _ _ _ _ Hrun).
  - unfold RawFilePointStorage.close, fw_close. cbn [f_bytes].
    rewrite (RawFile_add_all_length _ _ _ _ Hids' Hrun).
    cbn [RawFilePointStorage.create RawFilePointStorage.m_file fw_open fw_data length].
    pose proof (ids_end_nonneg ps). lia.
Qed.

Lemma RawFile_length_witness :
  exists st,
    RawFilePointStorage.add_all
      [(5, 55.75%float, 37.625%float); (2, 1.5%float, 2.5%float)]
      (RawFilePointStorage.create "nodes") = Ok st [] /\
    Z.of_nat (length (f_bytes (RawFilePointStorage.close st))) = 48.
Proof.
  set (ps := [(5, 55.75%float, 37.625%float); (2, 1.5%float, 2.5%float)]).
  set (st := RawFilePointStorage.mk
               (fw_Write (LatLon_bytes (mkLatLon 15000000 25000000))
                  (fw_Seek 16
                     (fw_Write (LatLon_bytes (mkLatLon 557500000 376250000))
                        (fw_Seek 40 (fw_open "nodes"))))) 2).
  assert (Hrun : RawFilePointStorage.add_all ps (RawFilePointStorage.create "nodes")
                 = Ok st []) by (by vm_compute).
  exists st. split; [exact Hrun|].
  destruct (RawFile_length "nodes" ps st [] ltac:(by repeat constructor) Hrun)
    as [_ Hlen].
  exact Hlen.
Defined.

(** X12. A [RawFilePointStorage] answers for an id with what the last
    [AddPoint] under it stored, whatever was added under other ids before
    or after: [GetPoint(id)] on the reader of the file returns that
    point's coordinates cut to seven decimals (and false when both are
    cut to zero). *)
Theorem RawFile_last_write_read_back (name : string) (ps : list (Z * float * float))
    (st : RawFilePointStorage.t FileWriter) (log : list LogEntry)
    (id : Z) (p : Z * float * float) :
  Forall (fun i => 0 <= i < 2 ^ 61 - 1) (point_ids ps) ->
  RawFilePointStorage.add_all ps (RawFilePointStorage.create name) = Ok st log ->
  last_point id ps = Some p ->
  RawFilePointStorage.GetPoint id
    (RawFilePointStorage.open (RawFilePointStorage.close st))
  = if (scaled p.1.2 =? 0) && (scaled p.2 =? 0)
    then Ok None [not_found_error id]
    else Ok (Some (decoded p)) [].
Proof.
  intros Hids Hrun Hlast.
  rewrite (RawFile_read_back name ps st log id p Hids Hrun Hlast). reflexivity.
Qed.

Lemma RawFile_last_write_read_back_witness :
  exists st,
    RawFilePointStorage.add_all
      [(5, 1.5%float, 2.5%float); (2, 3%float, 4%float); (5, 55.75%float, 37.625%float)]
      (RawFilePointStorage.create "nodes") = Ok st [] /\
    RawFilePointStorage.GetPoint 5
      (RawFilePointStorage.open (RawFilePointStorage.close st))
    = Ok (Some (55.75%float, 37.625%float)) [].
Proof.
  set (ps := [(5, 1.5%float, 2.5%float); (2, 3%float, 4%float);
              (5, 55.75%float, 37.625%float)]).
  set (st := RawFilePointStorage.mk
               (fw_Write (LatLon_bytes (mkLatLon 557500000 376250000))
                  (fw_Seek 40
                     (fw_Write (LatLon_bytes (mkLatLon 30000000 40000000))
                        (fw_Seek 16
                           (fw_Write (LatLon_bytes (mkLatLon 15000000 25000000))
                              (fw_Seek 40 (fw_open "nodes"))))))) 3).
  assert (Hrun : RawFilePointStorage.add_all ps (RawFilePointStorage.create "nodes")
                 = Ok st []) by (by vm_compute).
  exists st. split; [exact Hrun|].
  rewrite (RawFile_last_write_read_back "nodes" ps st [] 5
             (5, 55.75%float, 37.625%float) ltac:(by repeat constructor) Hrun eq_refl).
  by vm_compute.
Defined.

(** *** The sparse file *)

Lemma MapFile_read_back (name : string) (ps : list (Z * float * float))
    (st : MapFilePointStorage.t FileWriter) (log : list LogEntry) :
  Forall is_u64 (point_ids ps) ->
  16 * Z.of_nat (length ps) < 2 ^ 64 ->
  MapFilePointStorage.add_all ps (MapFilePointStorage.create name) = Ok st log ->
  exists rd log',
    MapFilePointStorage.open (MapFilePointStorage.close st) = Ok rd log' /\
    forall id, MapFilePointStorage.GetPoint id rd = decoded <$> first_point id ps.
Proof.
  intros Hids Hfit Hrun.
  destruct (MapFile_add_all_file ps (MapFilePointStorage.create name) st log eq_refl Hrun)
    as (Hd & Hn & Hall).
  cbn [MapFilePointStorage.create MapFilePointStorage.m_file fw_open fw_data app] in Hd.
  set (recs := point_record <$> ps) in *.
  assert (Hwf : Forall well_formed_record recs)
    by (by apply records_well_formed).
  unfold MapFilePointStorage.open, MapFilePointStorage.close.
  cbn [mbind run_mbind run_bind LOG app].
  set (file := fr_open (fw_close (MapFilePointStorage.m_file st))).
  assert (Hfile : fr_data file = flat_map LatLonPos_bytes ([] ++ recs)) by exact Hd.
  assert (Hlen : length (fr_data file) = (16 * length ps)%nat).
  { rewrite Hfile, app_nil_l.
    rewrite (length_flat_map_const _ 16) by apply length_LatLonPos_bytes.
    unfold recs. by rewrite length_fmap. }
  rewrite (read_loop_spec file [] recs (S (length (fr_data file))) ∅ Hfile Hwf).
  - cbn [mbind run_mbind run_bind mret run_mret app].
    eexists _, _. split; [reflexivity|]. intros id.
    unfold MapFilePointStorage.GetPoint. cbn [MapFilePointStorage.m_map].
    rewrite foldl_map_step_lookup, lookup_empty.
    unfold recs. rewrite first_point_record.
    by destruct (first_point id ps) as [[[id' lat] lng]|].
  - unfold fr_Size. lia.
  - unfold recs. rewrite length_fmap. lia.
Qed.

(** X13. The [.short] file of a [MapFilePointStorage] is the log of the
    calls: one record of 16 bytes for each [AddPoint], in call order,
    also when an id comes again, so that the record at [16 * i] decodes
    to the id and the stored coordinates of the [i]-th call. *)
Theorem MapFile_layout (name : string) (ps : list (Z * float * float))
    (st : MapFilePointStorage.t FileWriter) (log : list LogEntry) :
  MapFilePointStorage.add_all ps (MapFilePointStorage.create name) = Ok st log ->
  MapFilePointStorage.close st
  = {| f_name := String.append name ".short";
       f_bytes := flat_map LatLonPos_bytes (point_record <$> ps) |} /\
  length (f_bytes (MapFilePointStorage.close st)) = (16 * length ps)%nat /\
  forall (i : nat) (p : Z * float * float),
    ps !! i = Some p -> is_u64 p.1.1 ->
    LatLonPos_of_bytes (take 16 (drop (16 * i) (f_bytes (MapFilePointStorage.close st))))
    = point_record p.
Proof.
  intros Hrun.
  destruct (MapFile_add_all_file ps (MapFilePointStorage.create name) st log eq_refl Hrun)
    as (Hd & Hn & Hall).
  cbn [MapFilePointStorage.create MapFilePointStorage.m_file fw_open fw_data fw_name app]
    in Hd, Hn.
  assert (Hfile : MapFilePointStorage.close st
                  = {| f_name := String.append name ".short";
                       f_bytes := flat_map LatLonPos_bytes (point_record <$> ps) |}).
  { unfold MapFilePointStorage.close, fw_close. by rewrite Hd, Hn. }
  rewrite Hfile. cbn [f_bytes]. split; [done|]. split.
  - rewrite (length_flat_map_const _ 16) by apply length_LatLonPos_bytes.
    by rewrite length_fmap.
  - intros i p Hp Hid.
    rewrite (chunk_of_flat_map LatLonPos_bytes 16 _ i (point_record p)).
    + apply LatLonPos_of_bytes_LatLonPos_bytes.
      rewrite Forall_forall in Hall.
      destruct (Hall p (list_elem_of_lookup_2 _ _ _ Hp)) as [Ha Hb].
      by split.
    + apply length_LatLonPos_bytes.
    + by rewrite list_lookup_fmap, Hp.
Qed.

Lemma MapFile_layout_witness :
  exists st,
    MapFilePointStorage.add_all
      [(7, 1.5%float, 2.5%float); (9, 3%float, 4%float); (7, 5%float, 6%float)]
      (MapFilePointStorage.create "nodes") = Ok st [] /\
    f_name (MapFilePointStorage.close st) = "nodes.short"%string /\
    length (f_bytes (MapFilePointStorage.close st)) = 48%nat /\
    LatLonPos_of_bytes (take 16 (drop 32 (f_bytes (MapFilePointStorage.close st))))
    = mkLatLonPos 7 50000000 60000000.
Proof.
  set (ps := [(7, 1.5%float, 2.5%float); (9, 3%float, 4%float); (7, 5%float, 6%float)]).
  set (st := MapFilePointStorage.mk
               (fw_Write (LatLonPos_bytes (mkLatLonPos 7 50000000 60000000))
                  (fw_Write (LatLonPos_bytes (mkLatLonPos 9 30000000 40000000))
                     (fw_Write (LatLonPos_bytes (mkLatLonPos 7 15000000 25000000))
                        (fw_open "nodes.short")))) ∅ 3).
  assert (Hrun : MapFilePointStorage.add_all ps (MapFilePointStorage.create "nodes")
                 = Ok st []) by (by vm_compute).
  exists st. split; [exact Hrun|].
  destruct (MapFile_layout "nodes" ps st [] Hrun) as (Hfile & Hlen & Hrec).
  split; [by rewrite Hfile|]. split; [exact Hlen|].
  exact (Hrec 2%nat (7, 5%float, 6%float) eq_refl ltac:(by vm_compute)).
Defined.

Lemma last_point_snoc (id : Z) (ps : list (Z * float * float)) (lat lng : float) :
  last_point id (ps ++ [(id, lat, lng)]) = Some (id, lat, lng).
Proof.
  induction ps as [|q ps IH]; cbn [app last_point fst].
  - by rewrite decide_True.
  - by rewrite IH.
Qed.

Lemma first_point_snoc (id : Z) (ps : list (Z * float * float)) (lat lng : float) :
  id ∉ point_ids ps ->
  first_point id (ps ++ [(id, lat, lng)]) = Some (id, lat, lng).
Proof.
  induction ps as [|q ps IH]; cbn [app first_point fst]; intros Hnot.
  - by rewrite decide_True.
  - unfold point_ids in Hnot. cbn [fmap list_fmap] in Hnot.
    apply not_elem_of_cons in Hnot as [Hne Hnot].
    rewrite decide_False by done. by apply IH.
Qed.

(** X14. The dense storages keep no mark of their own for an id that was
    written: a point whose two coordinates are both cut to zero (the
    point at latitude 0, longitude 0, and those within 1e-7 of it) is
    stored by [AddPoint] like any other, but [GetPoint] answers for its
    id with false and the error of a missing node. The sparse storage
    returns the point, when it is the first under its id. *)
Theorem zero_point_is_lost (name : string) (ps : list (Z * float * float))
    (id : Z) (lat lng : float) :
  scaled lat = 0 -> scaled lng = 0 ->
  (forall st log,
     Forall (fun i => 0 <= i < 2 ^ 61 - 1) (point_ids (ps ++ [(id, lat, lng)])) ->
     RawFilePointStorage.add_all (ps ++ [(id, lat, lng)])
       (RawFilePointStorage.create name) = Ok st log ->
     RawFilePointStorage.GetPoint id
       (RawFilePointStorage.open (RawFilePointStorage.close st))
     = Ok None [not_found_error id]) /\
  (forall st log,
     RawMemPointStorage.add_all (ps ++ [(id, lat, lng)])
       (RawMemPointStorage.create name) = Ok st log ->
     exists rd,
       RawMemPointStorage.open (RawMemPointStorage.close st) = Ok rd [] /\
       RawMemPointStorage.GetPoint id rd = Ok None [not_found_error id]) /\
  (forall st log,
     Forall is_u64 (point_ids (ps ++ [(id, lat, lng)])) ->
     16 * Z.of_nat (length (ps ++ [(id, lat, lng)])) < 2 ^ 64 ->
     id ∉ point_ids ps ->
     MapFilePointStorage.add_all (ps ++ [(id, lat, lng)])
       (MapFilePointStorage.create name) = Ok st log ->
     exists rd log',
       MapFilePointStorage.open (MapFilePointStorage.close st) = Ok rd log' /\
       MapFilePointStorage.GetPoint id rd = Some (0%float, 0%float)).
Proof.
  intros Hlat Hlng.
  assert (Hans : dense_answer id (dense_record (id, lat, lng))
                 = Ok None [not_found_error id]).
  { unfold dense_answer, dense_record.
    cbn [PointStorage.lat PointStorage.lon fst snd]. by rewrite Hlat, Hlng. }
  split; [|split].
  - intros st log Hids Hrun.
    rewrite (RawFile_read_back name _ st log id (id, lat, lng) Hids Hrun
               (last_point_snoc id ps lat lng)).
    exact Hans.
  - intros st log Hrun.
    destruct (RawMem_read_back name _ st log Hrun) as (rd & Hopen & Hget).
    exists rd. split; [exact Hopen|].
    rewrite (Hget id (id, lat, lng) (last_point_snoc id ps lat lng)).
    exact Hans.
  - intros st log Hids Hfit Hnot Hrun.
    destruct (MapFile_read_back name _ st log Hids Hfit Hrun) as (rd & log' & Hopen & Hget).
    exists rd, log'. split; [exact Hopen|].
    rewrite Hget, (first_point_snoc id ps lat lng Hnot).
    unfold decoded. cbn [fmap option_fmap option_map fst snd].
    rewrite Hlat, Hlng. by vm_compute.
Qed.

Lemma zero_point_is_lost_witness :
  exists st,
    RawFilePointStorage.add_all
      ([(3, 1.5%float, 2.5%float)] ++ [(7, 0x1p-30%float, 0%float)])
      (RawFilePointStorage.create "nodes") = Ok st [] /\
    RawFilePointStorage.GetProcessedPoint st = 2 /\
    RawFilePointStorage.GetPoint 7
      (RawFilePointStorage.open (RawFilePointStorage.close st))
    = Ok None [not_found_error 7].
Proof.
  set (st := RawFilePointStorage.mk
               (fw_Write (LatLon_bytes (mkLatLon 0 0))
                  (fw_Seek 56
                     (fw_Write (LatLon_bytes (mkLatLon 15000000 25000000))
                        (fw_Seek 24 (fw_open "nodes"))))) 2).
  assert (Hrun : RawFilePointStorage.add_all
                   ([(3, 1.5%float, 2.5%float)] ++ [(7, 0x1p-30%float, 0%float)])
                   (RawFilePointStorage.create "nodes") = Ok st [])
    by (by vm_compute).
  exists st. split; [exact Hrun|]. split; [reflexivity|].
  destruct (zero_point_is_lost "nodes" [(3, 1.5%float, 2.5%float)] 7
              0x1p-30%float 0%float) as (Hfile & _ & _).
  - by vm_compute.
  - by vm_compute.
  - apply (Hfile st []); [by repeat constructor|exact Hrun].
Defined.

(** *** The two dense formats *)

Lemma record_of_data_bytes (data : gmap Z LatLon) (id : Z) :
  0 <= id < RawMemPointStorage.kDataSize ->
  int32_fields (RawMemPointStorage.element data id) ->
  file_record (RawMemPointStorage.data_bytes data) id
  = RawMemPointStorage.element data id.
Proof.
  intros Hid Hf. unfold file_record, sizeof_LatLon, RawMemPointStorage.data_bytes.
  replace (Z.to_nat (id * 8)) with (8 * Z.to_nat id)%nat by lia.
  rewrite (chunk_of_flat_map _ 8 _ (Z.to_nat id) id).
  - apply LatLon_of_bytes_LatLon_bytes. exact Hf.
  - intros y. apply length_LatLon_bytes.
  - rewrite lookup_seqZ_lt by lia. f_equal. lia.
Qed.

(** X15. The snapshot a [RawMemPointStorage] writes has the layout of the
    file of a [RawFilePointStorage]: a [RawFilePointStorage] reader opened
    on it answers [GetPoint] for every id of the array as the
    [RawMemPointStorage] reader that loaded it does. *)
Theorem RawMem_snapshot_read_as_RawFile (name : string)
    (ps : list (Z * float * float))
    (st : RawMemPointStorage.t FileWriter) (log : list LogEntry) :
  RawMemPointStorage.add_all ps (RawMemPointStorage.create name) = Ok st log ->
  exists rd,
    RawMemPointStorage.open (RawMemPointStorage.close st) = Ok rd [] /\
    forall id,
      0 <= id < 2 ^ 32 - 1 ->
      RawFilePointStorage.GetPoint id
        (RawFilePointStorage.open (RawMemPointStorage.close st))
      = RawMemPointStorage.GetPoint id rd.
Proof.
  intros Hrun.
  pose proof (RawMem_add_all_file _ _ _ _ Hrun) as Hfile.
  assert (Hzero : forall i,
            RawMemPointStorage.element
              (RawMemPointStorage.m_data (RawMemPointStorage.create name)) i
            = mkLatLon 0 0).
  { intros i. unfold RawMemPointStorage.element.
    cbn [RawMemPointStorage.create RawMemPointStorage.m_data].
    rewrite lookup_empty. reflexivity. }
  destruct (RawMem_add_all_data _ _ _ _ Hrun) as [Hinv _].
  { intros i. rewrite Hzero. split; reflexivity. }
  destruct (RawMem_reopen st) as (rd & Hopen & Hdata).
  { rewrite Hfile. reflexivity. }
  { rewrite Hfile. reflexivity. }
  exists rd. split; [exact Hopen|]. clear Hopen Hzero Hrun. intros id Hid.
  assert (Hid' : 0 <= id < RawMemPointStorage.kDataSize)
    by (unfold RawMemPointStorage.kDataSize; lia).
  assert (Hbytes : fr_data (RawFilePointStorage.m_file
                              (RawFilePointStorage.open (RawMemPointStorage.close st)))
                   = RawMemPointStorage.data_bytes (RawMemPointStorage.m_data st)).
  { unfold RawFilePointStorage.open, RawMemPointStorage.close,
      RawMemPointStorage.DoneStorage.
    cbn [RawFilePointStorage.m_file RawMemPointStorage.m_file fr_open fw_close
         fr_data f_bytes].
    destruct (fw_Write_append
                (RawMemPointStorage.data_bytes (RawMemPointStorage.m_data st))
                (RawMemPointStorage.m_file st)) as [Hw _].
    { rewrite Hfile. reflexivity. }
    rewrite Hw, Hfile. reflexivity. }
  assert (Hsize : fr_Size (RawFilePointStorage.m_file
                             (RawFilePointStorage.open (RawMemPointStorage.close st)))
                  = RawMemPointStorage.kDataSize * sizeof_LatLon).
  { unfold fr_Size. rewrite Hbytes. apply length_data_bytes. }
  rewrite RawFile_GetPoint_spec.
  - rewrite Hbytes, (record_of_data_bytes _ _ Hid' (Hinv id)).
    rewrite (RawMem_GetPoint_spec id rd Hid').
    + rewrite Hdata, (element_data_of_bytes _ _ Hid' (Hinv id)). reflexivity.
    + rewrite Hdata, (element_data_of_bytes _ _ Hid' (Hinv id)). exact (Hinv id).
  - lia.
  - rewrite Hsize. unfold RawMemPointStorage.kDataSize, sizeof_LatLon. lia.
  - rewrite Hsize. unfold RawMemPointStorage.kDataSize, sizeof_LatLon. lia.
Qed.

Lemma RawMem_snapshot_read_as_RawFile_witness :
  let ps := [(5, 55.75%float, 37.625%float)] in
  let st := RawMemPointStorage.mk (fw_open "nodes")
              (<[5 := mkLatLon 557500000 376250000]> ∅) 1 in
  RawMemPointStorage.add_all ps (RawMemPointStorage.create "nodes") = Ok st [] /\
  exists rd,
    RawMemPointStorage.open (RawMemPointStorage.close st) = Ok rd [] /\
    RawFilePointStorage.GetPoint 5
      (RawFilePointStorage.open (RawMemPointStorage.close st))
    = RawMemPointStorage.GetPoint 5 rd.
Proof.
  intros ps st.
  assert (Hrun : RawMemPointStorage.add_all ps (RawMemPointStorage.create "nodes")
                 = Ok st []) by (by vm_compute).
  split; [exact Hrun|].
  destruct (RawMem_snapshot_read_as_RawFile "nodes" ps st [] Hrun) as (rd & Hopen & Hget).
  exists rd. split; [exact Hopen|]. apply (Hget 5). lia.
Defined.
